(** * go-keys: the sine-wave PCM stream of package [keys]

    A shallow embedding of [NewSineWave], [SineWave.Read],
    [formatByteLength] and [InitAudioContext], of [play], [Run] and the
    table [noteFrequencies], and of [main], followed by the properties of
    the stream that the specification states and by further properties of
    the stream, of the notes and of the main loop.

    Conventions.
    - Go's [int], [int64] and [time.Duration] are 64-bit two's complement
      integers (a 64-bit target); they are modelled as [Z] with the
      wrap-around of every arithmetic operation written out ([Int64]).
    - [float64] is Rocq's primitive binary64 [float]; [math.Sin] belongs to
      Go's standard library and is a parameter of the development.
    - A byte slice is a [list byte]. Slice lengths and slice indices are
      kept in [Z] without wrap-around: a slice lives in memory, so its
      length is far below [2^63], and an index is compared with that
      length before it is used.
    - A Go panic is the outcome [Panic] of the [result] monad.
    - The players of the audio library, the clock, the keyboard and the
      terminal are a trace of effects; [keyboard.KeyEsc] and the answers
      of [oto.NewContext] and [keyboard.GetKeys] are parameters.
    - [Run] and the loop of [main] are modelled each on its own thread;
      the goroutines that [main] starts appear as effects, or run to
      their end one at a time where a statement says so. *)

From Stdlib Require Import ZArith Lia String.
From Stdlib.Strings Require Import Byte Ascii.
From Stdlib Require Import PrimFloat FloatOps SpecFloat.
From stdpp Require Import base list gmap strings.

Local Open Scope Z_scope.

(** ** Machine integers *)

Module Int64.
Definition modulus : Z := 2 ^ 64.

(** The signed 64-bit representative of an integer. *)
Definition wrap (z : Z) : Z := (z + 2 ^ 63) mod modulus - 2 ^ 63.

Definition add (a b : Z) : Z := wrap (a + b).
Definition sub (a b : Z) : Z := wrap (a - b).
Definition mul (a b : Z) : Z := wrap (a * b).
(** Go's [/] truncates toward zero. *)
Definition quot (a b : Z) : Z := wrap (Z.quot a b).
End Int64.

(** The signed 16-bit representative of an integer (conversion to [int16]). *)
Definition wrap16 (z : Z) : Z := (z + 2 ^ 15) mod 2 ^ 16 - 2 ^ 15.

(** ** Bytes *)

(** Go's conversion [byte(x)] of an integer: the low eight bits. *)
Definition byte_of_Z (z : Z) : byte :=
  match Byte.of_N (Z.to_N (z mod 256)) with
  | Some b => b
  | None => x00
  end.

(** [len(buf)] *)
Definition len {A} (l : list A) : Z := Z.of_nat (length l).

(** ** Floating point *)

(** Conversion [float64(z)] of an integer: rounding to nearest, ties to even. *)
Definition float64_of_int (z : Z) : float :=
  SF2Prim (binary_normalize prec emax z 0 false).

(** The integer part of a float (truncation toward zero). Go leaves the
    conversion of NaN, of the infinities and of values outside the target
    type implementation-dependent: here NaN and the infinities give 0 and
    the conversions below wrap an integer part that is out of range. *)
Definition trunc (x : float) : Z :=
  match Prim2SF x with
  | S754_finite s m e =>
      let a := match e with
               | Zneg k => Z.shiftr (Zpos m) (Zpos k)
               | _ => Z.shiftl (Zpos m) e
               end in
      if s then - a else a
  | _ => 0
  end.

(** [int(x)] and [int16(x)] of a [float64]. *)
Definition int_of_float (x : float) : Z := Int64.wrap (trunc x).
Definition int16_of_float (x : float) : Z := wrap16 (trunc x).

(** [math.Float32bits(float32(x))]: [x] rounded to binary32 (nearest, ties
    to even) and the IEEE 754 bit pattern of the result. A NaN gives the
    default quiet NaN. *)
Definition Float32bits_float32 (x : float) : Z :=
  let sgn (s : bool) := if s then 0x80000000 else 0 in
  match Prim2SF x with
  | S754_zero s => sgn s
  | S754_infinity s => sgn s + 0x7F800000
  | S754_nan => 0x7FC00000
  | S754_finite s m e =>
      match binary_round 24 128 s m e with
      | S754_finite _ m' e' =>
          sgn s + (if Zpos m' <? 2 ^ 23 then Zpos m'
                   else (e' + 150) * 2 ^ 23 + (Zpos m' - 2 ^ 23))
      | S754_infinity _ => sgn s + 0x7F800000
      | _ => sgn s
      end
  end.

(** The untyped constants [2*math.Pi] and [0.3] as [float64] values. *)
Definition two_pi : float := 0x1.921FB54442D18p+2%float.
Definition headroom : float := 0x1.3333333333333p-2%float.

(** ** Panics *)

Inductive result (A : Type) : Type :=
| Ok (a : A)
| Panic.
Arguments Ok {A} a.
Arguments Panic {A}.

Definition bind {A B} (r : result A) (k : A -> result B) : result B :=
  match r with
  | Ok a => k a
  | Panic => Panic
  end.

Notation "x <- r ;; k" := (bind r (fun x => k))
  (at level 100, r at next level, right associativity, only parsing).

(** ** Slices *)

(** [buf[idx] = b]; an index out of range panics. *)
Definition store (buf : list byte) (idx : Z) (b : byte) : result (list byte) :=
  if (0 <=? idx) && (idx <? len buf)
  then Ok (<[Z.to_nat idx := b]> buf)
  else Panic.

(** [buf[:k]] for a slice whose capacity is its length. *)
Definition slice_to (buf : list byte) (k : Z) : result (list byte) :=
  if (0 <=? k) && (k <=? len buf)
  then Ok (take (Z.to_nat k) buf)
  else Panic.

(** [n := copy(dst, src)]: the count and the new contents of [dst]. *)
Definition copy (dst src : list byte) : Z * list byte :=
  let n := Z.min (len dst) (len src) in
  (n, take (Z.to_nat n) src ++ drop (Z.to_nat n) dst).

(** [make([]byte, n)] *)
Definition make (n : Z) : list byte := replicate (Z.to_nat n) x00.

(** ** Loops *)

(** [for i := lo; ...; i++ { body }] run for [k] iterations, the loop's
    variables threaded through the body. *)
Fixpoint for_from {St : Type} (k : nat) (i : Z)
    (body : Z -> St -> result St) (st : St) : result St :=
  match k with
  | O => Ok st
  | S k' => st' <- body i st ;; for_from k' (i + 1) body st'
  end.

(** [for i := 0; i < hi; i++ { body }] *)
Definition for_lt {St : Type} (hi : Z) (body : Z -> St -> result St) (st : St)
    : result St :=
  for_from (Z.to_nat hi) 0 body st.

(** ** The data model *)

(** What the package uses of [github.com/ebitengine/oto/v3]. *)
Module oto.

(** [oto.Format] is an integer type with three named constants; any other
    value is [FormatOther]. *)
Inductive Format : Type :=
| FormatFloat32LE
| FormatUnsignedInt8
| FormatSignedInt16LE
| FormatOther (code : Z).

Module NewContextOptions.
Record t : Type := mk {
  SampleRate : Z;
  ChannelCount : Z;
  Format : Format
}.
End NewContextOptions.

End oto.

(** Go's [error] values that the package returns; [nil] is [None]. *)
Inductive error : Type :=
| EOF
| Errorf (msg : string)
| ContextError (msg : string).

(** The package-level command-line flags. *)
Module Flag.
Record t : Type := mk {
  sampleRate : Z;
  channelCount : Z;
  format : string
}.
(** The flags' default values. *)
Definition default : t := mk 44100 10 "s16le".
End Flag.

Module SineWave.
Record t : Type := mk {
  freq : float;
  length : Z;
  pos : Z;
  channelCount : Z;
  format : oto.Format;
  remaining : list byte
}.
End SineWave.

(** [time.Second], in nanoseconds, the unit of [time.Duration]. *)
Definition Second : Z := 1000000000.

Definition formatByteLength (format : oto.Format) : result Z :=
  match format with
  | oto.FormatFloat32LE => Ok 4
  | oto.FormatUnsignedInt8 => Ok 1
  | oto.FormatSignedInt16LE => Ok 2
  | oto.FormatOther _ => Panic
  end.

(** The outcome of a [Read] that returns: the count [n], the error, the
    caller's buffer after the call and the stream after the call. *)
Record ReadResult : Type := mkRead {
  count : Z;
  err : option error;
  out : list byte;
  stream : SineWave.t
}.

(** What [InitAudioContext] does to the audio backend. *)
Inductive event (Context : Type) : Type :=
| NewContextCalled (op : oto.NewContextOptions.t) (r : Context + string).
Arguments NewContextCalled {Context} op r.

(** ** Notes, players and key events *)

(** The conversion [string(key)] of a rune: the UTF-8 encoding of the code
    point, and that of U+FFFD for a value that is no valid code point. *)
Definition char_of_Z (z : Z) : ascii := ascii_of_N (Z.to_N z).

Definition string_of_rune (r : Z) : string :=
  if (r <? 0) || (0x10FFFF <? r) || ((0xD800 <=? r) && (r <=? 0xDFFF)) then
    String (char_of_Z 0xEF) (String (char_of_Z 0xBF)
      (String (char_of_Z 0xBD) EmptyString))
  else if r <? 0x80 then
    String (char_of_Z r) EmptyString
  else if r <? 0x800 then
    String (char_of_Z (Z.lor 0xC0 (Z.shiftr r 6)))
      (String (char_of_Z (Z.lor 0x80 (Z.land r 0x3F))) EmptyString)
  else if r <? 0x10000 then
    String (char_of_Z (Z.lor 0xE0 (Z.shiftr r 12)))
      (String (char_of_Z (Z.lor 0x80 (Z.land (Z.shiftr r 6) 0x3F)))
        (String (char_of_Z (Z.lor 0x80 (Z.land r 0x3F))) EmptyString))
  else
    String (char_of_Z (Z.lor 0xF0 (Z.shiftr r 18)))
      (String (char_of_Z (Z.lor 0x80 (Z.land (Z.shiftr r 12) 0x3F)))
        (String (char_of_Z (Z.lor 0x80 (Z.land (Z.shiftr r 6) 0x3F)))
          (String (char_of_Z (Z.lor 0x80 (Z.land r 0x3F))) EmptyString))).

(** The map literal [noteFrequencies], entry by entry. *)
#[warnings="-inexact-float"]
Definition noteTable : list (string * float) :=
  [("q", 523.25); ("2", 554.37); ("w", 587.33); ("3", 622.25);
   ("e", 659.25); ("4", 698.46); ("r", 739.99); ("5", 783.99);
   ("t", 830.61); ("6", 880.00); ("y", 932.33); ("7", 987.77);
   ("u", 1046.50); ("8", 1108.73); ("i", 1174.66); ("9", 1244.51);
   ("o", 1318.51);
   ("z", 261.63); ("s", 277.18); ("x", 293.66); ("d", 311.13);
   ("c", 329.63); ("f", 349.23); ("v", 369.99); ("g", 392.00);
   ("b", 415.30); ("h", 440.00); ("n", 466.16); ("j", 493.88)]%float.

Definition noteFrequencies : gmap string float := list_to_map noteTable.

(** What [Run] and [main] do to the players, to the clock, to the keyboard
    and to the terminal. A player is named by the number of effects that
    came before the [NewPlayer] that made it; [Pressed r] is the line
    that [main] prints for the rune [r], and [Go key c op] the start of
    the goroutine that calls [Run(key, c, op)]. *)
Inductive effect (Context : Type) : Type :=
| NewPlayer (c : Context) (s : SineWave.t)
| Play (p : nat)
| SetVolume (p : nat) (v : float)
| Sleep (d : Z)
| GetKeys (bufferSize : Z)
| Close
| Println (msg : string)
| Pressed (r : Z)
| Go (key : Z) (c : Context) (op : oto.NewContextOptions.t).
Arguments NewPlayer {Context} c s.
Arguments Play {Context} p.
Arguments SetVolume {Context} p v.
Arguments Sleep {Context} d.
Arguments GetKeys {Context} bufferSize.
Arguments Close {Context}.
Arguments Println {Context} msg.
Arguments Pressed {Context} r.
Arguments Go {Context} key c op.

(** The state around the program: the package variable [NoteCount], the
    calls made to the audio backend (latest first) and the effects so far
    (oldest first). *)
Record World (Context : Type) : Type := mkWorld {
  NoteCount : Z;
  backend : list (event Context);
  effects : list (effect Context)
}.
Arguments mkWorld {Context} NoteCount backend effects.
Arguments NoteCount {Context} w.
Arguments backend {Context} w.
Arguments effects {Context} w.

(** A [keyboard.KeyEvent]. *)
Module keyboard.
Record KeyEvent : Type := mk {
  Key : Z;
  Rune : Z;
  Err : option string
}.
End keyboard.

(** How [main] stops: it returns, or it waits for a key event that does
    not come. *)
Inductive exit : Type := Returned | Waiting.

(** [err.Error()] *)
Definition Error (e : error) : string :=
  match e with
  | EOF => "EOF"
  | Errorf msg => msg
  | ContextError msg => msg
  end.



(** The code points of the keys of [noteFrequencies]. *)
Definition noteRunes : list Z :=
  [113; 50; 119; 51; 101; 52; 114; 53; 116; 54; 121; 55; 117; 56; 105; 57;
   111; 122; 115; 120; 100; 99; 102; 118; 103; 98; 104; 110; 106].

(** ** Concrete inputs *)

(** A stand-in for [math.Sin] where an example needs a function to run:
    a Taylor polynomial, which shares the value at zero. *)
Definition sinTaylor (x : float) : float :=
  (x - x * x * x / 6 + x * x * x * x * x / 120)%float.

(** The flags for one channel at 44100 Hz. *)
Definition mono (format : string) : Flag.t := Flag.mk 44100 1 format.

(** [time.Millisecond] and [time.Hour] *)
Definition Millisecond : Z := 1000000.
Definition Hour : Z := 3600 * Second.

(** One second of 440 Hz, unsigned 8-bit, one channel. *)
Definition tone_u8 : SineWave.t :=
  SineWave.mk 440 44100 0 1 oto.FormatUnsignedInt8 [].

(** One second of 440 Hz, signed 16-bit, one channel. *)
Definition tone_s16 : SineWave.t :=
  SineWave.mk 440 88200 0 1 oto.FormatSignedInt16LE [].

(** One millisecond of 440 Hz, signed 16-bit, one channel. *)
Definition blip_s16 : SineWave.t :=
  SineWave.mk 440 88 0 1 oto.FormatSignedInt16LE [].

(** Three seconds of 440 Hz under the default flags: what [Run] plays for
    the key h. *)
Definition note_h : SineWave.t :=
  SineWave.mk 440 2646000 0 10 oto.FormatSignedInt16LE [].

(** The one-millisecond stream once it is exhausted. *)
Definition blip_s16_spent : SineWave.t :=
  SineWave.mk 440 88 88 1 oto.FormatSignedInt16LE [].

(** A 24-byte buffer whose last four bytes are 1, 2, 3, 4, and a buffer as
    long as the three-second note. *)
Definition chunk24 : list byte := replicate 20 x00 ++ [x01; x02; x03; x04].
Definition whole_note : list byte := replicate (Z.to_nat 2646000) x00.

(** A backend that makes a context. *)
Definition backendUp (op : oto.NewContextOptions.t) : unit + string :=
  inl tt.

(** The options that [InitAudioContext] makes of the default flags. *)
Definition defaultOp : oto.NewContextOptions.t :=
  oto.NewContextOptions.mk 44100 10 oto.FormatSignedInt16LE.

(** Key events: the keys h and Q, Esc (with 27 for [keyboard.KeyEsc]) and
    an event that carries an error. *)
Definition key_h : keyboard.KeyEvent := keyboard.mk 0 104 None.
Definition key_Q : keyboard.KeyEvent := keyboard.mk 0 81 None.
Definition key_esc : keyboard.KeyEvent := keyboard.mk 27 0 None.
Definition key_error : keyboard.KeyEvent :=
  keyboard.mk 0 0 (Some "keyboard closed"%string).

(** The world when the program starts. *)
Definition start : World unit := mkWorld 0 [] [].

(** Three seconds of 440 Hz on twelve channels, signed 16-bit, made under
    the default flags: frames of 24 bytes. *)
Definition note_12 : SineWave.t :=
  SineWave.mk 440 3175200 0 12 oto.FormatSignedInt16LE [].

(** One millisecond of 440 Hz under the default flags: 44 frames of 20
    bytes. *)
Definition blip_default : SineWave.t :=
  SineWave.mk 440 880 0 10 oto.FormatSignedInt16LE [].

Section Keys.

(** [math.Sin] *)
Variable Sin : float -> float.

(** The values of the flags [*sampleRate], [*channelCount], [*format]. *)
Variable flags : Flag.t.

Definition NewSineWave (freq : float) (duration : Z) (channelCount : Z)
    (format : oto.Format) : result SineWave.t :=
  bps <- formatByteLength format ;;
  let l := Int64.quot
             (Int64.mul (Int64.mul (Int64.mul channelCount bps)
                                   (Flag.sampleRate flags))
                        duration)
             Second in
  let l := Int64.mul (Int64.quot l 4) 4 in
  Ok (SineWave.mk freq l 0 channelCount format []).

(** [math.Sin(2*math.Pi*float64(p)/length) * 0.3] *)
Definition sample (length : float) (p : Z) : float :=
  (Sin (two_pi * float64_of_int p / length) * headroom)%float.

(** The body of the channel loop of each format: the stores of one
    channel slot of frame [i]. *)
Definition put_f32 (num i bs ch : Z) (buf : list byte) : result (list byte) :=
  buf <- store buf (num * i + 4 * ch) (byte_of_Z bs) ;;
  buf <- store buf (num * i + 1 + 4 * ch) (byte_of_Z (Z.shiftr bs 8)) ;;
  buf <- store buf (num * i + 2 + 4 * ch) (byte_of_Z (Z.shiftr bs 16)) ;;
  store buf (num * i + 3 + 4 * ch) (byte_of_Z (Z.shiftr bs 24)).

Definition put_u8 (num i b ch : Z) (buf : list byte) : result (list byte) :=
  store buf (num * i + ch) (byte_of_Z (b + 128)).

Definition put_s16 (num i b ch : Z) (buf : list byte) : result (list byte) :=
  buf <- store buf (num * i + 2 * ch) (byte_of_Z b) ;;
  store buf (num * i + 1 + 2 * ch) (byte_of_Z (Z.shiftr b 8)).

(** One iteration of the frame loop of each format; the loop's variables
    are the buffer and the frame position [p]. *)
Definition frame_f32 (length : float) (num i : Z) (st : list byte * Z)
    : result (list byte * Z) :=
  let '(buf, p) := st in
  let bs := Float32bits_float32 (sample length p) in
  buf <- for_lt (Flag.channelCount flags) (put_f32 num i bs) buf ;;
  Ok (buf, Int64.add p 1).

Definition frame_u8 (length : float) (num i : Z) (st : list byte * Z)
    : result (list byte * Z) :=
  let '(buf, p) := st in
  let b := int_of_float (sample length p * 127)%float in
  buf <- for_lt (Flag.channelCount flags) (put_u8 num i b) buf ;;
  Ok (buf, Int64.add p 1).

Definition frame_s16 (length : float) (num i : Z) (st : list byte * Z)
    : result (list byte * Z) :=
  let '(buf, p) := st in
  let b := int16_of_float (sample length p * 32767)%float in
  buf <- for_lt (Flag.channelCount flags) (put_s16 num i b) buf ;;
  Ok (buf, Int64.add p 1).

(** The [switch s.format] of [Read]: the frame loop of the stream's format
    over the working buffer, from frame position [p]. *)
Definition generate (format : oto.Format) (length : float) (num p : Z)
    (buf : list byte) : result (list byte) :=
  let frames := Z.quot (len buf) num in
  match format with
  | oto.FormatFloat32LE =>
      st <- for_lt frames (frame_f32 length num) (buf, p) ;; Ok (fst st)
  | oto.FormatUnsignedInt8 =>
      st <- for_lt frames (frame_u8 length num) (buf, p) ;; Ok (fst st)
  | oto.FormatSignedInt16LE =>
      st <- for_lt frames (frame_s16 length num) (buf, p) ;; Ok (fst st)
  | oto.FormatOther _ => Ok buf
  end.

Definition Read (s : SineWave.t) (buf : list byte) : result ReadResult :=
  if 0 <? len (SineWave.remaining s) then
    let '(n, buf) := copy buf (SineWave.remaining s) in
    let remaining := drop (Z.to_nat n) (SineWave.remaining s) in
    Ok (mkRead n None buf
          (SineWave.mk (SineWave.freq s) (SineWave.length s) (SineWave.pos s)
             (SineWave.channelCount s) (SineWave.format s) remaining))
  else if SineWave.pos s =? SineWave.length s then
    Ok (mkRead 0 (Some EOF) buf s)
  else
    (* [callerBuf] is the caller's whole buffer, [buf] the slice of it that
       the rest of the function works on. *)
    let callerBuf := buf in
    be <- (if Int64.add (SineWave.pos s) (len buf) >? SineWave.length s
           then buf <- slice_to buf
                         (Int64.sub (SineWave.length s) (SineWave.pos s)) ;;
                Ok (buf, true)
           else Ok (buf, false)) ;;
    let '(buf, eof) := be in
    let beyond := drop (length buf) callerBuf in
    let origBuf := if Z.rem (len buf) 4 >? 0 then Some buf else None in
    let buf := if Z.rem (len buf) 4 >? 0
               then make (len buf + 4 - Z.rem (len buf) 4)
               else buf in
    let length :=
      (float64_of_int (Flag.sampleRate flags) / SineWave.freq s)%float in
    bps <- formatByteLength (SineWave.format s) ;;
    let num := Int64.mul bps (SineWave.channelCount s) in
    p <- (if num =? 0 then Panic else Ok (Int64.quot (SineWave.pos s) num)) ;;
    buf <- generate (SineWave.format s) length num p buf ;;
    let pos := Int64.add (SineWave.pos s) (len buf) in
    let '(n, callerBuf, remaining) :=
      match origBuf with
      | Some origBuf =>
          let '(n, origBuf) := copy origBuf buf in
          (n, origBuf ++ beyond, drop (Z.to_nat n) buf)
      | None => (len buf, buf ++ beyond, SineWave.remaining s)
      end in
    Ok (mkRead n (if eof then Some EOF else None) callerBuf
          (SineWave.mk (SineWave.freq s) (SineWave.length s) pos
             (SineWave.channelCount s) (SineWave.format s) remaining)).

(** [oto.NewContext]: the audio backend either gives a context or fails. *)
Variable Context : Type.
Variable NewContext : oto.NewContextOptions.t -> Context + string.

(** [InitAudioContext] returns [(c, op, err)]; the trace records the calls
    made to the backend, latest first. *)
Definition InitAudioContext (trace : list (event Context))
    : (option Context * option oto.NewContextOptions.t * option error)
      * list (event Context) :=
  let fmt := Flag.format flags in
  let selected :=
    if String.eqb fmt "f32le" then Some oto.FormatFloat32LE
    else if String.eqb fmt "u8" then Some oto.FormatUnsignedInt8
    else if String.eqb fmt "s16le" then Some oto.FormatSignedInt16LE
    else None in
  match selected with
  | None =>
      (None, None,
       Some (Errorf ("format must be u8, s16le, or f32le but: " ++ fmt)%string),
       trace)
  | Some f =>
      let op := oto.NewContextOptions.mk
                  (Flag.sampleRate flags) (Flag.channelCount flags) f in
      match NewContext op with
      | inr e =>
          (None, None, Some (ContextError e),
           NewContextCalled op (inr e) :: trace)
      | inl c =>
          (Some c, Some op, None, NewContextCalled op (inl c) :: trace)
      end
  end.


(** ** What the loops compute *)

(** The bytes of one channel slot of the frame at position [p]. *)
Definition slot (format : oto.Format) (length : float) (p : Z) : list byte :=
  match format with
  | oto.FormatFloat32LE =>
      let bs := Float32bits_float32 (sample length p) in
      [byte_of_Z bs; byte_of_Z (Z.shiftr bs 8); byte_of_Z (Z.shiftr bs 16);
       byte_of_Z (Z.shiftr bs 24)]
  | oto.FormatUnsignedInt8 =>
      let b := int_of_float (sample length p * 127)%float in
      [byte_of_Z (b + 128)]
  | oto.FormatSignedInt16LE =>
      let b := int16_of_float (sample length p * 32767)%float in
      [byte_of_Z b; byte_of_Z (Z.shiftr b 8)]
  | oto.FormatOther _ => []
  end.

(** A frame: the slot repeated for each of the [*channelCount] channels. *)
Definition frame (format : oto.Format) (length : float) (p : Z) : list byte :=
  concat (replicate (Z.to_nat (Flag.channelCount flags)) (slot format length p)).

(** [k] consecutive frames from position [p]. *)
Fixpoint frames (format : oto.Format) (length : float) (k : nat) (p : Z)
    : list byte :=
  match k with
  | O => []
  | S k' => frame format length p ++ frames format length k' (p + 1)
  end.

(** [float64(sampleRate) / float64(s.freq)], the period in samples. *)
Definition period (s : SineWave.t) : float :=
  (float64_of_int (Flag.sampleRate flags) / SineWave.freq s)%float.

(** The frame size [num] of a stream. *)
Definition frameSize (s : SineWave.t) : Z :=
  match formatByteLength (SineWave.format s) with
  | Ok bps => bps * SineWave.channelCount s
  | Panic => 0
  end.

(** What a call on a stream without pending bytes works on: the request
    [min(len(buf), length - pos)], the working length (the request rounded
    up to a multiple of 4), the working buffer before the frame loop (a
    zeroed scratch buffer, or the caller's own bytes) and after it. *)
Definition requested (s : SineWave.t) (buf : list byte) : Z :=
  Z.min (len buf) (SineWave.length s - SineWave.pos s).

Definition roundup4 (k : Z) : Z :=
  if Z.rem k 4 >? 0 then k + 4 - Z.rem k 4 else k.

Definition workbuf (k : Z) (buf : list byte) : list byte :=
  if Z.rem k 4 >? 0 then make (roundup4 k) else take (Z.to_nat k) buf.

Definition generated (s : SineWave.t) (buf : list byte) : list byte :=
  let k := requested s buf in
  let num := frameSize s in
  let n := roundup4 k / num in
  frames (SineWave.format s) (period s) (Z.to_nat n) (SineWave.pos s / num)
  ++ drop (Z.to_nat (num * n)) (workbuf k buf).

(** The bytes of the stream that no call has handed out yet. *)
Definition undelivered (s : SineWave.t) : Z :=
  SineWave.length s - SineWave.pos s + len (SineWave.remaining s).

(** A run of [Read] calls, one per buffer; it panics when a call does. *)
Fixpoint ReadAll (s : SineWave.t) (bufs : list (list byte))
    : result (list ReadResult * SineWave.t) :=
  match bufs with
  | [] => Ok ([], s)
  | buf :: bufs' =>
      r <- Read s buf ;;
      rest <- ReadAll (stream r) bufs' ;;
      Ok (r :: fst rest, snd rest)
  end.

(** The bytes a call hands to its caller. *)
Definition delivered (r : ReadResult) : list byte :=
  take (Z.to_nat (count r)) (out r).

(** ** Well-formed streams *)

(** The stream was created with a valid format and with the configured
    channel count, the way [play] creates it: [Read] takes its frame size
    from [s.channelCount] and runs its channel loops over the flag
    [*channelCount]. The count is positive and, so that the frame size does
    not wrap, below [2^32]. *)
Record Configured (s : SineWave.t) : Prop := {
  cfg_format : forall code, SineWave.format s <> oto.FormatOther code;
  cfg_flag : SineWave.channelCount s = Flag.channelCount flags;
  cfg_channels : 0 < SineWave.channelCount s < 2 ^ 32
}.

(** The invariant of the cursor and of the pending bytes. *)
Record Inv (s : SineWave.t) : Prop := {
  inv_length : 0 <= SineWave.length s < 2 ^ 62;
  inv_length4 : (4 | SineWave.length s);
  inv_pos : 0 <= SineWave.pos s <= SineWave.length s;
  inv_pos4 : (4 | SineWave.pos s);
  inv_remaining : len (SineWave.remaining s) <= 3
}.

(** The stream after a call: with other pending bytes, or with the cursor
    advanced by [n] and other pending bytes. *)
Definition with_remaining (s : SineWave.t) (remaining : list byte)
    : SineWave.t :=
  SineWave.mk (SineWave.freq s) (SineWave.length s) (SineWave.pos s)
    (SineWave.channelCount s) (SineWave.format s) remaining.

Definition advanced (s : SineWave.t) (n : Z) (remaining : list byte)
    : SineWave.t :=
  SineWave.mk (SineWave.freq s) (SineWave.length s) (SineWave.pos s + n)
    (SineWave.channelCount s) (SineWave.format s) remaining.

(** The length that [NewSineWave] computes: only the product can wrap. *)
Definition newLength (channelCount bps duration : Z) : Z :=
  Z.quot (Z.quot (Int64.wrap (channelCount * bps * Flag.sampleRate flags
                              * duration)) Second) 4 * 4.

(** The total length as the specification words it: the product in
    seconds, rounded down to a multiple of 4. *)
Definition totalLength_spec (channelCount bps sampleRate duration : Z) : Z :=
  4 * (channelCount * bps * sampleRate * duration / (Second * 4)).

(** The bytes handed out by a run of calls. *)
Definition total (rs : list ReadResult) : Z :=
  foldr (fun r acc => count r + acc) 0 rs.

(** A buffer that fits in memory: [pos + len(buf)] does not wrap. *)
Definition small (buf : list byte) : Prop := len buf < 2 ^ 62.

(** All the frames of a stream, from position 0. *)
Definition ideal (s : SineWave.t) : list byte :=
  frames (SineWave.format s) (period s)
    (Z.to_nat (SineWave.length s / frameSize s)) 0.

(** The bytes handed out so far, followed by the pending bytes, are the
    first [pos] bytes of the stream's frames. *)
Definition in_order (s : SineWave.t) (acc : list byte) : Prop :=
  acc ++ SineWave.remaining s = take (Z.to_nat (SineWave.pos s)) (ideal s).

(** [InitAudioContext] asked the backend for one context with format [f]
    and the flags' sample rate and channel count, and returned what the
    backend answered. *)
Definition selects (f : oto.Format) (trace : list (event Context)) : Prop :=
  let op := oto.NewContextOptions.mk
              (Flag.sampleRate flags) (Flag.channelCount flags) f in
  InitAudioContext trace
  = match NewContext op with
    | inl c => (Some c, Some op, None, NewContextCalled op (inl c) :: trace)
    | inr e => (None, None, Some (ContextError e),
                NewContextCalled op (inr e) :: trace)
    end.

(** ** [play], [Run] and [main] *)

(** The world after one more effect. *)
Definition say (w : World Context) (fx : list (effect Context))
    : World Context :=
  mkWorld (NoteCount w) (backend w) (effects w ++ fx).

(** [play]: a player on a new stream, started. It returns the player. *)
Definition play (context : Context) (freq : float) (duration channelCount : Z)
    (format : oto.Format) (w : World Context)
    : result (nat * World Context) :=
  s <- NewSineWave freq duration channelCount format ;;
  let p := base.length (effects w) in
  Ok (p, say w [NewPlayer context s; Play p]).

(** [Run]. The goroutine that it starts is the only one of the call and
    [Run] waits for it, so its statements run in their order; what other
    goroutines do to [NoteCount] meanwhile is not part of the function. *)
Definition Run (key : Z) (c : Context) (op : oto.NewContextOptions.t)
    (w : World Context) : result (option error * World Context) :=
  let keyStr := string_of_rune key in
  match noteFrequencies !! keyStr with
  | Some freq =>
      pw <- play c freq (3 * Second) (oto.NewContextOptions.ChannelCount op)
              (oto.NewContextOptions.Format op) w ;;
      let '(p, w) := pw in
      let initialVolume := (1 / float64_of_int (NoteCount w))%float in
      let w := say w [SetVolume p initialVolume; Sleep (1 * Second);
                      SetVolume p (initialVolume / 2); Sleep (1 * Second);
                      SetVolume p (initialVolume / 3); Sleep 50000;
                      SetVolume p 0] in
      Ok (None, mkWorld (Int64.sub (NoteCount w) 1) (backend w) (effects w))
  | None => Ok (None, w)
  end.

(** [keyboard.KeyEsc], a constant of the keyboard library. *)
Variable KeyEsc : Z.

(** The statement [go func(key rune) { keys.Run(key, c, op) }(event.Rune)]
    seen from the loop of [main]: the goroutine is started, and the loop
    goes on. *)
Definition started (c : Context) (op : oto.NewContextOptions.t) (key : Z)
    (w : World Context) : result (World Context) :=
  Ok (say w [Go key c op]).

(** The same statement when the goroutine runs to its end before the loop
    receives the next event (one key at a time, each note over before the
    next key). A non-nil error of [Run] panics. *)
Definition finished (c : Context) (op : oto.NewContextOptions.t) (key : Z)
    (w : World Context) : result (World Context) :=
  r <- Run key c op (say w [Go key c op]) ;;
  match fst r with
  | Some _ => Panic
  | None => Ok (snd r)
  end.

(** The loop of [main] over the events that the channel delivers; when
    they are used up the loop waits. [spawn] is the [go] statement. *)
Fixpoint mainLoop (spawn : Z -> World Context -> result (World Context))
    (keysEvents : list keyboard.KeyEvent) (w : World Context)
    : result (exit * World Context) :=
  match keysEvents with
  | [] => Ok (Waiting, w)
  | event :: keysEvents =>
      let w := mkWorld (Int64.add (NoteCount w) 1) (backend w) (effects w) in
      match keyboard.Err event with
      | Some _ => Panic
      | None =>
          let w := say w [Pressed (keyboard.Rune event)] in
          if keyboard.Key event =? KeyEsc then Ok (Returned, w)
          else
            w <- spawn (keyboard.Rune event) w ;;
            mainLoop spawn keysEvents w
      end
  end.

(** [main]. [keys] is what [keyboard.GetKeys(200)] answers: the events of
    the channel, or an error. The deferred [keyboard.Close] runs when
    [main] returns. [InitAudioContext] returns a context and options
    whenever it returns no error, so the last case does not occur. *)
Definition main
    (spawn : Context -> oto.NewContextOptions.t -> Z -> World Context ->
             result (World Context))
    (keys : list keyboard.KeyEvent + string) (w : World Context)
    : result (exit * World Context) :=
  let '(c, op, err, trace) := InitAudioContext (backend w) in
  let w := mkWorld (NoteCount w) trace (effects w) in
  match err, c, op with
  | Some err, _, _ => Ok (Returned, say w [Println (Error err)])
  | None, Some c, Some op =>
      match keys with
      | inr err => Ok (Returned, say w [GetKeys 200; Println err])
      | inl keysEvents =>
          r <- mainLoop (spawn c op) keysEvents
                 (say w [GetKeys 200; Println "Press ESC to quit"]) ;;
          match fst r with
          | Returned => Ok (Returned, say (snd r) [Close])
          | Waiting => Ok r
          end
      end
  | None, _, _ => Panic
  end.

(** The events that the loop passes over: no error and no Esc. *)
Definition passes (e : keyboard.KeyEvent) : Prop :=
  keyboard.Err e = None /\ keyboard.Key e <> KeyEsc.

(** The body of the channel loop of a format, for the frame [i] at
    position [p]. *)
Definition put (format : oto.Format) (length : float) (num i p : Z)
    : Z -> list byte -> result (list byte) :=
  match format with
  | oto.FormatFloat32LE =>
      put_f32 num i (Float32bits_float32 (sample length p))
  | oto.FormatUnsignedInt8 =>
      put_u8 num i (int_of_float (sample length p * 127)%float)
  | oto.FormatSignedInt16LE =>
      put_s16 num i (int16_of_float (sample length p * 32767)%float)
  | oto.FormatOther _ => fun _ buf => Ok buf
  end.


(** The runes of a run of key events that are no keys of
    [noteFrequencies]. *)
Definition strays (events : list keyboard.KeyEvent) : Z :=
  len (filter (fun e => keyboard.Rune e ∉ noteRunes) events).

(** ** Arithmetic and list lemmas *)

Lemma wrap_small z : - 2 ^ 63 <= z < 2 ^ 63 -> Int64.wrap z = z.
Proof.
  intros Hz. unfold Int64.wrap, Int64.modulus.
  rewrite Z.mod_small; lia.
Qed.

Lemma len_app {A} (l1 l2 : list A) : len (l1 ++ l2) = len l1 + len l2.
Proof. unfold len. rewrite length_app. lia. Qed.

Lemma len_nonneg {A} (l : list A) : 0 <= len l.
Proof. unfold len. lia. Qed.

Lemma len_cons {A} (x : A) (l : list A) : len (x :: l) = 1 + len l.
Proof. unfold len. simpl. lia. Qed.

Lemma store_middle (pre rest : list byte) (x b : byte) (idx : Z) :
  idx = len pre ->
  store (pre ++ x :: rest) idx b = Ok (pre ++ b :: rest).
Proof.
  intros ->. unfold store.
  pose proof (len_nonneg pre) as Hpre.
  rewrite len_app, len_cons.
  pose proof (len_nonneg rest).
  replace (0 <=? len pre) with true by (symmetry; apply Z.leb_le; lia).
  replace (len pre <? len pre + (1 + len rest)) with true
    by (symmetry; apply Z.ltb_lt; lia).
  simpl. f_equal. unfold len. rewrite Nat2Z.id.
  replace (length pre) with (length pre + 0)%nat at 1 by lia.
  rewrite insert_app_r. reflexivity.
Qed.

(** A list of known length splits into its elements. *)
Lemma length_one {A} (l : list A) : length l = 1%nat -> exists a, l = [a].
Proof. destruct l as [|a [|? ?]]; simpl; intros; try lia. eauto. Qed.

Lemma length_two {A} (l : list A) : length l = 2%nat -> exists a b, l = [a; b].
Proof. destruct l as [|a [|b [|? ?]]]; simpl; intros; try lia. eauto. Qed.

Lemma length_four {A} (l : list A) :
  length l = 4%nat -> exists a b c d, l = [a; b; c; d].
Proof.
  destruct l as [|a [|b [|c [|d [|? ?]]]]]; simpl; intros; try lia.
  eauto 6.
Qed.

Lemma store_at (pre rest : list byte) (x b : byte) (idx : Z)
    (k : list byte -> result (list byte)) :
  idx = len pre ->
  bind (store (pre ++ x :: rest) idx b) k = k (pre ++ b :: rest).
Proof. intros H. rewrite store_middle by exact H. reflexivity. Qed.

(** The stores of one channel slot replace the slot's old bytes. *)
Lemma put_u8_spec num i b ch (pre old rest : list byte) :
  len pre = num * i + 1 * ch -> length old = 1%nat ->
  put_u8 num i b ch (pre ++ old ++ rest)
  = Ok (pre ++ [byte_of_Z (b + 128)] ++ rest).
Proof.
  intros Hpre Hold. destruct (length_one _ Hold) as [a ->].
  unfold put_u8. simpl. apply store_middle. lia.
Qed.

Lemma put_s16_spec num i b ch (pre old rest : list byte) :
  len pre = num * i + 2 * ch -> length old = 2%nat ->
  put_s16 num i b ch (pre ++ old ++ rest)
  = Ok (pre ++ [byte_of_Z b; byte_of_Z (Z.shiftr b 8)] ++ rest).
Proof.
  intros Hpre Hold. destruct (length_two _ Hold) as (a0 & a1 & ->).
  unfold put_s16. cbn [app].
  rewrite store_at by lia.
  change (pre ++ ?x :: ?y :: rest) with (pre ++ [x] ++ y :: rest).
  rewrite (app_assoc pre), store_middle
    by (rewrite len_app, len_cons; unfold len at 2; simpl; lia).
  rewrite <- (app_assoc pre). reflexivity.
Qed.

Lemma put_f32_spec num i bs ch (pre old rest : list byte) :
  len pre = num * i + 4 * ch -> length old = 4%nat ->
  put_f32 num i bs ch (pre ++ old ++ rest)
  = Ok (pre ++ [byte_of_Z bs; byte_of_Z (Z.shiftr bs 8);
                byte_of_Z (Z.shiftr bs 16); byte_of_Z (Z.shiftr bs 24)] ++ rest).
Proof.
  intros Hpre Hold. destruct (length_four _ Hold) as (a0 & a1 & a2 & a3 & ->).
  unfold put_f32. cbn [app].
  rewrite store_at by lia.
  change (pre ++ ?x :: a1 :: ?t) with (pre ++ [x] ++ a1 :: t).
  rewrite (app_assoc pre), store_at
    by (rewrite len_app, len_cons; unfold len at 2; simpl; lia).
  rewrite <- (app_assoc pre). cbn [app].
  change (pre ++ ?x :: ?y :: a2 :: ?t) with (pre ++ [x; y] ++ a2 :: t).
  rewrite (app_assoc pre), store_at
    by (rewrite len_app, !len_cons; unfold len at 2; simpl; lia).
  rewrite <- (app_assoc pre). cbn [app].
  change (pre ++ ?x :: ?y :: ?z :: a3 :: ?t) with (pre ++ [x; y; z] ++ a3 :: t).
  rewrite (app_assoc pre), store_middle
    by (rewrite len_app, !len_cons; unfold len at 2; simpl; lia).
  rewrite <- (app_assoc pre). reflexivity.
Qed.

(** A channel loop whose body writes the slot [w] of channel [ch] at
    [base + len w * ch] fills [k] consecutive slots with [w]. *)
Lemma channel_loop (put : Z -> list byte -> result (list byte))
    (w : list byte) (base : Z) :
  (forall ch pre old rest,
      len pre = base + len w * ch -> length old = length w ->
      put ch (pre ++ old ++ rest) = Ok (pre ++ w ++ rest)) ->
  forall (k : nat) ch (pre olds rest : list byte),
    len pre = base + len w * ch ->
    length olds = (k * length w)%nat ->
    for_from k ch put (pre ++ olds ++ rest)
    = Ok (pre ++ concat (replicate k w) ++ rest).
Proof.
  intros Hput k. induction k as [|k IH]; intros ch pre olds rest Hpre Holds.
  - destruct olds; [reflexivity | discriminate].
  - cbn [for_from replicate concat].
    rewrite <- (take_drop (length w) olds), <- (app_assoc (take _ olds)).
    rewrite Hput; [| exact Hpre | rewrite length_take; lia].
    cbn [bind]. rewrite (app_assoc pre w), IH.
    + rewrite <- !app_assoc. reflexivity.
    + rewrite len_app. lia.
    + rewrite length_drop. lia.
Qed.

Lemma length_concat_replicate {A} (k : nat) (w : list A) :
  length (concat (replicate k w)) = (k * length w)%nat.
Proof.
  induction k as [|k IH]; [reflexivity|].
  cbn [replicate concat]. rewrite length_app, IH. lia.
Qed.

Lemma slot_length format bps length p :
  formatByteLength format = Ok bps ->
  len (slot format length p) = bps.
Proof. destruct format; intros [= <-]; reflexivity. Qed.

Lemma frame_length format bps length p :
  formatByteLength format = Ok bps ->
  0 <= Flag.channelCount flags ->
  len (frame format length p) = bps * Flag.channelCount flags.
Proof.
  intros Hbps Hcc. unfold frame, len.
  rewrite length_concat_replicate.
  pose proof (slot_length format bps length p Hbps) as Hs. unfold len in Hs.
  lia.
Qed.

(** One iteration of a frame loop replaces the old bytes of frame [i] by
    the frame of position [p]. *)
Ltac frame_body w base put_spec :=
  intros Hnum Hcc Hpre Hold Hp;
  unfold frame_u8, frame_s16, frame_f32, frame, for_lt; cbn beta iota;
  rewrite (channel_loop _ w base);
    [ cbn [bind]; unfold Int64.add; rewrite wrap_small by lia; reflexivity
    | intros ch pre' old' rest' Hpre' Hold'; apply put_spec;
      [ exact Hpre' | exact Hold' ]
    | exact Hpre
    | unfold len in Hold; cbn [length slot]; lia ].

Lemma frame_u8_spec length num i p (pre old rest : list byte) :
  num = 1 * Flag.channelCount flags -> 0 <= Flag.channelCount flags ->
  len pre = num * i + len (slot oto.FormatUnsignedInt8 length p) * 0 ->
  len old = num -> - 2 ^ 63 <= p + 1 < 2 ^ 63 ->
  frame_u8 length num i (pre ++ old ++ rest, p)
  = Ok (pre ++ frame oto.FormatUnsignedInt8 length p ++ rest, p + 1).
Proof.
  frame_body (slot oto.FormatUnsignedInt8 length p) (num * i) put_u8_spec.
Qed.

Lemma frame_s16_spec length num i p (pre old rest : list byte) :
  num = 2 * Flag.channelCount flags -> 0 <= Flag.channelCount flags ->
  len pre = num * i + len (slot oto.FormatSignedInt16LE length p) * 0 ->
  len old = num -> - 2 ^ 63 <= p + 1 < 2 ^ 63 ->
  frame_s16 length num i (pre ++ old ++ rest, p)
  = Ok (pre ++ frame oto.FormatSignedInt16LE length p ++ rest, p + 1).
Proof.
  frame_body (slot oto.FormatSignedInt16LE length p) (num * i) put_s16_spec.
Qed.

Lemma frame_f32_spec length num i p (pre old rest : list byte) :
  num = 4 * Flag.channelCount flags -> 0 <= Flag.channelCount flags ->
  len pre = num * i + len (slot oto.FormatFloat32LE length p) * 0 ->
  len old = num -> - 2 ^ 63 <= p + 1 < 2 ^ 63 ->
  frame_f32 length num i (pre ++ old ++ rest, p)
  = Ok (pre ++ frame oto.FormatFloat32LE length p ++ rest, p + 1).
Proof.
  frame_body (slot oto.FormatFloat32LE length p) (num * i) put_f32_spec.
Qed.

(** A frame loop whose body writes the frame of position [p] over frame
    [i] of the buffer fills [k] consecutive frames. *)
Lemma frame_loop (body : Z -> list byte * Z -> result (list byte * Z))
    (format : oto.Format) (length : float) (num : Z) :
  0 <= num ->
  (forall p, len (frame format length p) = num) ->
  (forall i p pre old rest,
      len pre = num * i -> len old = num -> - 2 ^ 63 <= p + 1 < 2 ^ 63 ->
      body i (pre ++ old ++ rest, p)
      = Ok (pre ++ frame format length p ++ rest, p + 1)) ->
  forall (k : nat) i p (pre olds rest : list byte),
    - 2 ^ 63 <= p + 1 -> p + Z.of_nat k < 2 ^ 63 ->
    len pre = num * i -> len olds = Z.of_nat k * num ->
    for_from k i body (pre ++ olds ++ rest, p)
    = Ok (pre ++ frames format length k p ++ rest, p + Z.of_nat k).
Proof.
  intros Hnum Hlen Hbody k.
  induction k as [|k IH]; intros i p pre olds rest Hp Hpk Hpre Holds.
  - destruct olds; [| rewrite len_cons in Holds; pose proof (len_nonneg olds); lia].
    cbn [for_from frames app]. do 2 f_equal. lia.
  - cbn [for_from frames].
    rewrite <- (take_drop (Z.to_nat num) olds), <- (app_assoc (take _ olds)).
    rewrite Hbody; [| exact Hpre | unfold len in *; rewrite length_take; nia | lia].
    cbn [bind]. rewrite (app_assoc pre (frame format length p)), IH.
    + rewrite <- !app_assoc. do 2 f_equal. lia.
    + lia.
    + lia.
    + rewrite len_app, Hlen. lia.
    + unfold len in *. rewrite length_drop. nia.
Qed.

Lemma generate_spec format bps length num p (buf : list byte) :
  formatByteLength format = Ok bps ->
  num = bps * Flag.channelCount flags ->
  0 < Flag.channelCount flags ->
  - 2 ^ 63 <= p + 1 -> p + len buf < 2 ^ 63 ->
  generate format length num p buf
  = Ok (frames format length (Z.to_nat (len buf / num)) p
        ++ drop (Z.to_nat (num * (len buf / num))) buf).
Proof.
  intros Hbps Hnum Hcc Hp Hpl.
  pose proof (len_nonneg buf) as Hbuf.
  assert (Hnum0 : 0 < num) by (destruct format; inversion Hbps; subst; lia).
  assert (Hq : 0 <= len buf / num) by (apply Z.div_pos; lia).
  assert (Hqle : num * (len buf / num) <= len buf)
    by (apply Z.mul_div_le; lia).
  assert (Hqlen : len buf / num <= len buf) by nia.
  assert (Hsplit : buf = [] ++ take (Z.to_nat (num * (len buf / num))) buf
                           ++ drop (Z.to_nat (num * (len buf / num))) buf)
    by (cbn [app]; rewrite take_drop; reflexivity).
  unfold generate. rewrite Z.quot_div_nonneg by lia. unfold for_lt.
  set (k := Z.to_nat (len buf / num)).
  set (beyond := drop (Z.to_nat (num * (len buf / num))) buf).
  assert (Hloop : forall body,
    (forall i p pre old rest,
        len pre = num * i -> len old = num -> - 2 ^ 63 <= p + 1 < 2 ^ 63 ->
        body i (pre ++ old ++ rest, p)
        = Ok (pre ++ frame format length p ++ rest, p + 1)) ->
    for_from k 0 body (buf, p)
    = Ok (frames format length k p ++ beyond, p + Z.of_nat k)).
  { intros body Hbody. rewrite Hsplit.
    apply (frame_loop body format length num); try lia.
    - intros p'. rewrite (frame_length format bps) by (assumption || lia). lia.
    - exact Hbody.
    - unfold len. simpl. lia.
    - unfold k. clearbody beyond. clear Hsplit.
      generalize dependent (len buf / num). intros q Hq Hqle Hqlen.
      unfold len in *. rewrite length_take. nia. }
  destruct format; try discriminate; injection Hbps as <-;
    rewrite Hloop; try reflexivity; intros.
  - apply frame_f32_spec; lia.
  - apply frame_u8_spec; lia.
  - apply frame_s16_spec; lia.
Qed.

Lemma frames_length format bps length (k : nat) p :
  formatByteLength format = Ok bps ->
  0 <= Flag.channelCount flags ->
  len (frames format length k p) = Z.of_nat k * (bps * Flag.channelCount flags).
Proof.
  intros Hbps Hcc. revert p.
  induction k as [|k IH]; intros p; [reflexivity|].
  cbn [frames]. rewrite len_app, IH, (frame_length format bps) by assumption.
  lia.
Qed.

Lemma roundup4_spec k :
  0 <= k -> k <= roundup4 k < k + 4 /\ (4 | roundup4 k).
Proof.
  intros Hk. unfold roundup4. rewrite Z.rem_mod_nonneg by lia.
  pose proof (Z.mod_pos_bound k 4 ltac:(lia)) as Hm.
  pose proof (Z.div_mod k 4 ltac:(lia)) as Hd.
  destruct (k mod 4 >? 0) eqn:E.
  - split; [lia|]. exists (k / 4 + 1). lia.
  - rewrite Z.gtb_ltb in E. apply Z.ltb_ge in E.
    split; [lia|]. exists (k / 4). lia.
Qed.

Lemma roundup4_aligned k : 0 <= k -> (4 | k) -> roundup4 k = k.
Proof.
  intros Hk [q ->]. unfold roundup4.
  rewrite Z.rem_mod_nonneg, Z.mod_mul by lia. reflexivity.
Qed.

Lemma len_make n : 0 <= n -> len (make n) = n.
Proof. intros Hn. unfold len, make. rewrite length_replicate. lia. Qed.

Lemma len_take (l : list byte) k : 0 <= k <= len l -> len (take (Z.to_nat k) l) = k.
Proof. intros Hk. unfold len in *. rewrite length_take. lia. Qed.

Lemma workbuf_length k (buf : list byte) :
  0 <= k <= len buf -> len (workbuf k buf) = roundup4 k.
Proof.
  intros Hk. unfold workbuf, roundup4.
  destruct (Z.rem k 4 >? 0) eqn:E.
  - apply len_make. rewrite Z.rem_mod_nonneg by lia.
    pose proof (Z.mod_pos_bound k 4 ltac:(lia)). lia.
  - apply len_take. exact Hk.
Qed.

(** ** The three cases of [Read] *)

(** Pending bytes are handed out first, without an end-of-stream signal. *)
Lemma Read_pending s (buf : list byte) :
  SineWave.remaining s <> [] ->
  let n := Z.min (len buf) (len (SineWave.remaining s)) in
  Read s buf
  = Ok (mkRead n None
          (take (Z.to_nat n) (SineWave.remaining s) ++ drop (Z.to_nat n) buf)
          (with_remaining s (drop (Z.to_nat n) (SineWave.remaining s)))).
Proof.
  intros Hrem n. unfold Read.
  destruct (SineWave.remaining s) as [|b rem] eqn:E; [congruence|].
  rewrite len_cons. pose proof (len_nonneg rem).
  replace (0 <? 1 + len rem) with true by (symmetry; apply Z.ltb_lt; lia).
  unfold copy, with_remaining. fold n. subst n. rewrite len_cons. reflexivity.
Qed.

(** Without pending bytes and with the cursor at the end, nothing is
    delivered and the stream is left as it is. *)
Lemma Read_exhausted s (buf : list byte) :
  SineWave.remaining s = [] ->
  SineWave.pos s = SineWave.length s ->
  Read s buf = Ok (mkRead 0 (Some EOF) buf s).
Proof.
  intros Hrem Hpos. unfold Read. rewrite Hrem, Hpos, Z.eqb_refl.
  reflexivity.
Qed.

Lemma Configured_bps s :
  Configured s ->
  exists bps, formatByteLength (SineWave.format s) = Ok bps /\
              (bps = 1 \/ bps = 2 \/ bps = 4) /\
              frameSize s = bps * SineWave.channelCount s.
Proof.
  intros [Hfmt _ _]. unfold frameSize.
  destruct (SineWave.format s) eqn:E; cbn; eauto 7.
  exfalso. exact (Hfmt code eq_refl).
Qed.

Lemma generated_length s (buf : list byte) :
  Configured s -> 0 <= requested s buf <= len buf ->
  len (generated s buf) = roundup4 (requested s buf).
Proof.
  intros Hcfg Hk.
  destruct (Configured_bps s Hcfg) as (bps & Hbps & Hb & Hnum).
  pose proof (cfg_channels s Hcfg) as Hcc.
  pose proof (cfg_flag s Hcfg) as Hflag.
  pose proof (roundup4_spec _ (proj1 Hk)) as [Hr _].
  unfold generated. rewrite len_app, (frames_length _ bps) by (assumption || lia).
  rewrite <- Hflag, <- Hnum.
  assert (Hnum0 : 0 < frameSize s) by (rewrite Hnum; nia).
  pose proof (Z.mul_div_le (roundup4 (requested s buf)) (frameSize s) Hnum0).
  assert (0 <= roundup4 (requested s buf) / frameSize s)
    by (apply Z.div_pos; lia).
  unfold len at 1. rewrite length_drop.
  pose proof (workbuf_length _ buf Hk) as Hw. unfold len in Hw.
  nia.
Qed.

(** The slice of the caller's buffer that a call works on: the first
    [requested] bytes, cut off when the buffer reaches past the end. *)
Lemma Read_view s (buf : list byte) :
  0 <= SineWave.pos s <= SineWave.length s ->
  SineWave.length s < 2 ^ 62 ->
  len buf < 2 ^ 62 ->
  (if SineWave.pos s + len buf >? SineWave.length s
   then buf0 <- slice_to buf
                 (Int64.sub (SineWave.length s) (SineWave.pos s)) ;;
        Ok (buf0, true)
   else Ok (buf, false))
  = Ok (take (Z.to_nat (requested s buf)) buf,
        SineWave.pos s + len buf >? SineWave.length s).
Proof.
  intros Hp Hlen Hbuf. pose proof (len_nonneg buf) as Hbuf0.
  destruct (SineWave.pos s + len buf >? SineWave.length s) eqn:E.
  - rewrite Z.gtb_ltb in E. apply Z.ltb_lt in E.
    unfold Int64.sub. rewrite wrap_small by lia.
    unfold slice_to.
    replace (0 <=? SineWave.length s - SineWave.pos s) with true
      by (symmetry; apply Z.leb_le; lia).
    replace (SineWave.length s - SineWave.pos s <=? len buf) with true
      by (symmetry; apply Z.leb_le; lia).
    cbn. do 3 f_equal. unfold requested. lia.
  - rewrite Z.gtb_ltb in E. apply Z.ltb_ge in E.
    do 2 f_equal. rewrite take_ge; [reflexivity|].
    unfold requested, len in *. lia.
Qed.

(** Without pending bytes and before the end, the call generates the
    request rounded up to a multiple of 4, hands the request to the caller
    and keeps the rest. *)
Lemma Read_fresh s (buf : list byte) :
  Configured s -> Inv s ->
  SineWave.remaining s = [] ->
  SineWave.pos s <> SineWave.length s ->
  len buf < 2 ^ 62 ->
  let k := requested s buf in
  Read s buf
  = Ok (mkRead k
          (if SineWave.pos s + len buf >? SineWave.length s
           then Some EOF else None)
          (take (Z.to_nat k) (generated s buf) ++ drop (Z.to_nat k) buf)
          (advanced s (roundup4 k) (drop (Z.to_nat k) (generated s buf)))).
Proof.
  intros Hcfg Hinv Hrem Hpos Hbuf k.
  destruct (Configured_bps s Hcfg) as (bps & Hbps & Hb & Hnum).
  pose proof (cfg_channels s Hcfg) as Hcc.
  pose proof (cfg_flag s Hcfg) as Hflag.
  destruct Hinv as [Hlen [ql Hql] Hp [qp Hqp] _].
  pose proof (len_nonneg buf) as Hbuf0.
  assert (Hk : 0 <= k <= len buf) by (unfold k, requested; lia).
  assert (Hkl : k <= SineWave.length s - SineWave.pos s)
    by (unfold k, requested; lia).
  pose proof (roundup4_spec k (proj1 Hk)) as [Hr [qr Hqr]].
  assert (Hrl : roundup4 k <= SineWave.length s - SineWave.pos s) by lia.
  pose proof (generated_length s buf Hcfg Hk) as Hgen. fold k in Hgen.
  assert (Hnum0 : 0 < frameSize s) by (rewrite Hnum; nia).
  unfold Read. rewrite Hrem. change (0 <? len []) with false. cbv iota.
  replace (SineWave.pos s =? SineWave.length s) with false
    by (symmetry; apply Z.eqb_neq; exact Hpos).
  unfold Int64.add at 1. rewrite wrap_small by lia.
  rewrite (Read_view s buf) by lia. fold k. cbn [bind].
  rewrite Hbps. cbn [bind].
  unfold Int64.mul. rewrite <- Hnum, wrap_small by (rewrite Hnum; nia).
  replace (frameSize s =? 0) with false by (symmetry; apply Z.eqb_neq; lia).
  cbn [bind].
  assert (Hlv : len (take (Z.to_nat k) buf) = k) by (apply len_take; exact Hk).
  rewrite Hlv.
  assert (Hquot : Int64.quot (SineWave.pos s) (frameSize s)
                  = SineWave.pos s / frameSize s).
  { unfold Int64.quot. rewrite Z.quot_div_nonneg by lia.
    assert (0 <= SineWave.pos s / frameSize s) by (apply Z.div_pos; lia).
    assert (SineWave.pos s / frameSize s <= SineWave.pos s)
      by (apply Z.div_le_upper_bound; nia).
    apply wrap_small. lia. }
  rewrite Hquot.
  assert (Hwork : (if Z.rem k 4 >? 0
                   then make (k + 4 - Z.rem k 4)
                   else take (Z.to_nat k) buf) = workbuf k buf).
  { unfold workbuf, roundup4. destruct (Z.rem k 4 >? 0); reflexivity. }
  rewrite Hwork.
  pose proof (workbuf_length k buf Hk) as Hwl.
  rewrite (generate_spec _ bps);
    [ | exact Hbps | rewrite <- Hflag; exact Hnum | lia
      | assert (0 <= SineWave.pos s / frameSize s) by (apply Z.div_pos; lia); lia
      | rewrite Hwl;
        assert (SineWave.pos s / frameSize s <= SineWave.pos s)
          by (apply Z.div_le_upper_bound; nia); lia ].
  cbn [bind]. rewrite Hwl. fold (period s).
  change (frames (SineWave.format s) (period s)
            (Z.to_nat (roundup4 k / frameSize s))
            (SineWave.pos s / frameSize s)
          ++ drop (Z.to_nat (frameSize s * (roundup4 k / frameSize s)))
               (workbuf k buf))
    with (generated s buf).
  rewrite Hgen. unfold Int64.add. rewrite wrap_small by lia.
  assert (Hbeyond : drop (length (take (Z.to_nat k) buf)) buf
                    = drop (Z.to_nat k) buf).
  { f_equal. unfold len in Hlv. lia. }
  rewrite Hbeyond.
  destruct (Z.rem k 4 >? 0) eqn:E.
  - unfold copy. rewrite Hlv, Hgen.
    replace (Z.min k (roundup4 k)) with k by lia.
    rewrite (drop_ge (take (Z.to_nat k) buf))
      by (unfold len in Hlv; lia).
    rewrite app_nil_r. reflexivity.
  - assert (roundup4 k = k) as Hrk
      by (unfold roundup4; rewrite E; reflexivity).
    rewrite Hrk in *.
    rewrite (take_ge (generated s buf)), (drop_ge (generated s buf))
      by (unfold len in Hgen; lia).
    reflexivity.
Qed.

(** ** What holds of every call that returns *)

Lemma bind_Ok {A B} (r : result A) (k : A -> result B) (b : B) :
  bind r k = Ok b -> exists a, r = Ok a /\ k a = Ok b.
Proof. destruct r as [a|]; cbn; [eauto | discriminate]. Qed.

Lemma for_from_inv {St} (P : St -> Prop) (body : Z -> St -> result St) :
  (forall i st st', P st -> body i st = Ok st' -> P st') ->
  forall (k : nat) i st st',
    P st -> for_from k i body st = Ok st' -> P st'.
Proof.
  intros Hbody k. induction k as [|k IH]; intros i st st' HP Hrun.
  - injection Hrun as <-. exact HP.
  - cbn [for_from] in Hrun.
    apply bind_Ok in Hrun as (st1 & H1 & H2). eauto.
Qed.

Lemma store_length (buf buf' : list byte) idx b :
  store buf idx b = Ok buf' -> length buf' = length buf.
Proof.
  unfold store. destruct (_ && _); [|discriminate].
  intros [= <-]. apply length_insert.
Qed.

Ltac stores_length :=
  repeat match goal with
  | H : bind _ _ = Ok _ |- _ =>
      let b := fresh "b" in let Hb := fresh "Hb" in
      apply bind_Ok in H as (b & Hb & H); apply store_length in Hb
  | H : store _ _ _ = Ok _ |- _ => apply store_length in H
  end; congruence.

Lemma put_u8_length num i b ch (buf buf' : list byte) :
  put_u8 num i b ch buf = Ok buf' -> length buf' = length buf.
Proof. unfold put_u8. intros H. stores_length. Qed.

Lemma put_s16_length num i b ch (buf buf' : list byte) :
  put_s16 num i b ch buf = Ok buf' -> length buf' = length buf.
Proof. unfold put_s16. intros H. stores_length. Qed.

Lemma put_f32_length num i b ch (buf buf' : list byte) :
  put_f32 num i b ch buf = Ok buf' -> length buf' = length buf.
Proof. unfold put_f32. intros H. stores_length. Qed.

(** The frame loops write in place: the working buffer keeps its length. *)
Lemma generate_length format length num p (buf buf' : list byte) :
  generate format length num p buf = Ok buf' ->
  len buf' = len buf.
Proof.
  assert (Hchan : forall put : Z -> list byte -> result (list byte),
    (forall ch b b', put ch b = Ok b' -> base.length b' = base.length b) ->
    forall hi b b', for_lt hi put b = Ok b' ->
                    base.length b' = base.length b).
  { intros put Hput hi b b' Hrun.
    apply (for_from_inv (fun x => base.length x = base.length b) put)
      with (k := Z.to_nat hi) (i := 0) (st := b); [| reflexivity | exact Hrun].
    intros ch x x' Hx Hstep. rewrite (Hput _ _ _ Hstep). exact Hx. }
  assert (Hframe : forall body : Z -> list byte * Z -> result (list byte * Z),
    (forall i st st', body i st = Ok st' ->
                      base.length (fst st') = base.length (fst st)) ->
    forall hi st',
      for_lt hi body (buf, p) = Ok st' -> len (fst st') = len buf).
  { intros body Hbody hi st' Hrun. unfold len. f_equal.
    apply (for_from_inv (fun x => base.length (fst x) = base.length buf) body)
      with (k := Z.to_nat hi) (i := 0) (st := (buf, p));
      [| reflexivity | exact Hrun].
    intros i x x' Hx Hstep. rewrite (Hbody _ _ _ Hstep). exact Hx. }
  unfold generate. destruct format; intros H;
    try (injection H as <-; reflexivity);
    apply bind_Ok in H as (st & Hrun & [= <-]);
    apply (Hframe _) in Hrun; try exact Hrun;
    intros i [b q] st' Hstep;
    unfold frame_f32, frame_u8, frame_s16 in Hstep;
    apply bind_Ok in Hstep as (b' & Hloop & [= <-]);
    cbn [fst]; apply (Hchan _) in Hloop; try exact Hloop;
    intros ch x x'.
  - apply put_f32_length.
  - apply put_u8_length.
  - apply put_s16_length.
Qed.

(** Whatever the stream, a call that returns leaves fewer than four
    pending bytes when it found at most three. *)
Lemma Read_remaining s (buf : list byte) r :
  len (SineWave.remaining s) <= 3 ->
  Read s buf = Ok r ->
  len (SineWave.remaining (stream r)) <= 3.
Proof.
  intros Hrem. unfold Read.
  destruct (0 <? len (SineWave.remaining s)).
  { unfold copy. intros [= <-]. cbn [stream SineWave.remaining].
    unfold len in *. rewrite length_drop. lia. }
  destruct (SineWave.pos s =? SineWave.length s).
  { intros [= <-]. exact Hrem. }
  intros H.
  apply bind_Ok in H as ([view eof] & _ & H).
  apply bind_Ok in H as (bps & _ & H).
  apply bind_Ok in H as (p & _ & H).
  apply bind_Ok in H as (gen & Hgen & H).
  apply generate_length in Hgen.
  destruct (Z.rem (len view) 4 >? 0) eqn:E.
  - unfold copy in H. injection H as <-. cbn [stream SineWave.remaining].
    pose proof (len_nonneg view) as Hv.
    rewrite Z.gtb_ltb in E. apply Z.ltb_lt in E.
    rewrite Z.rem_mod_nonneg in * by lia.
    pose proof (Z.mod_pos_bound (len view) 4 ltac:(lia)).
    rewrite len_make in Hgen by lia.
    unfold len in *. rewrite length_drop. lia.
  - injection H as <-. exact Hrem.
Qed.

(** The shape of a call that returns, on a stream without pending bytes and
    before the end, whatever the channel counts: the working buffer [gen]
    has the request's length rounded up to a multiple of 4. *)
Lemma Read_fresh_shape s (buf : list byte) r :
  Inv s ->
  SineWave.remaining s = [] ->
  SineWave.pos s <> SineWave.length s ->
  len buf < 2 ^ 62 ->
  Read s buf = Ok r ->
  let k := requested s buf in
  exists gen,
    len gen = roundup4 k /\
    r = mkRead k
          (if SineWave.pos s + len buf >? SineWave.length s
           then Some EOF else None)
          (take (Z.to_nat k) gen ++ drop (Z.to_nat k) buf)
          (advanced s (roundup4 k) (drop (Z.to_nat k) gen)).
Proof.
  intros Hinv Hrem Hpos Hbuf Hread k.
  destruct Hinv as [Hlen [ql Hql] Hp [qp Hqp] _].
  pose proof (len_nonneg buf) as Hbuf0.
  assert (Hk : 0 <= k <= len buf) by (unfold k, requested; lia).
  pose proof (roundup4_spec k (proj1 Hk)) as [Hr [qr Hqr]].
  assert (Hrl : roundup4 k <= SineWave.length s - SineWave.pos s)
    by (unfold k, requested in *; lia).
  revert Hread. unfold Read. rewrite Hrem. change (0 <? len []) with false.
  cbv iota.
  replace (SineWave.pos s =? SineWave.length s) with false
    by (symmetry; apply Z.eqb_neq; exact Hpos).
  unfold Int64.add at 1. rewrite wrap_small by lia.
  rewrite (Read_view s buf) by lia. fold k. cbn [bind]. intros H.
  apply bind_Ok in H as (bps & _ & H).
  apply bind_Ok in H as (p & _ & H).
  apply bind_Ok in H as (gen & Hgen & H).
  apply generate_length in Hgen.
  assert (Hlv : len (take (Z.to_nat k) buf) = k) by (apply len_take; exact Hk).
  rewrite Hlv in *.
  assert (Hbeyond : drop (length (take (Z.to_nat k) buf)) buf
                    = drop (Z.to_nat k) buf).
  { f_equal. unfold len in Hlv. lia. }
  rewrite Hbeyond in H.
  exists gen.
  destruct (Z.rem k 4 >? 0) eqn:E.
  - assert (Hrk : roundup4 k = k + 4 - Z.rem k 4)
      by (unfold roundup4; rewrite E; reflexivity).
    rewrite <- Hrk in Hgen. rewrite len_make in Hgen by lia.
    split; [exact Hgen|].
    unfold copy in H. rewrite Hlv, Hgen in H.
    replace (Z.min k (roundup4 k)) with k in H by lia.
    rewrite (drop_ge (take (Z.to_nat k) buf)) in H
      by (unfold len in Hlv; lia).
    rewrite app_nil_r in H. injection H as <-.
    unfold Int64.add. rewrite wrap_small by lia. reflexivity.
  - assert (Hrk : roundup4 k = k)
      by (unfold roundup4; rewrite E; reflexivity).
    rewrite Hrk, Hlv in *. split; [exact Hgen|].
    rewrite (take_ge gen), (drop_ge gen) by (unfold len in Hgen; lia).
    injection H as <-.
    unfold Int64.add. rewrite Hgen, wrap_small by lia. reflexivity.
Qed.

(** ** One call: the invariant, the cursor and the bytes handed out *)

Lemma Read_step s (buf : list byte) r :
  Inv s -> len buf < 2 ^ 62 ->
  Read s buf = Ok r ->
  Inv (stream r) /\
  SineWave.pos s <= SineWave.pos (stream r) /\
  SineWave.length (stream r) = SineWave.length s /\
  SineWave.channelCount (stream r) = SineWave.channelCount s /\
  SineWave.format (stream r) = SineWave.format s /\
  0 <= count r <= len buf /\
  undelivered (stream r) = undelivered s - count r /\
  (0 < len buf -> 0 < undelivered s -> 0 < count r).
Proof.
  intros Hinv Hbuf Hread.
  pose proof (len_nonneg buf) as Hbuf0.
  destruct (SineWave.remaining s) as [|b rem] eqn:Hrem.
  - destruct (Z.eq_dec (SineWave.pos s) (SineWave.length s)) as [Hpos|Hpos].
    + rewrite Read_exhausted in Hread by assumption.
      injection Hread as <-. cbn [stream count].
      split; [exact Hinv |].
      unfold undelivered. rewrite Hrem. change (len []) with 0.
      repeat split; lia.
    + destruct (Read_fresh_shape s buf r Hinv Hrem Hpos Hbuf Hread)
        as (gen & Hgen & ->).
      destruct Hinv as [Hlen [ql Hql] Hp [qp Hqp] Hr].
      set (k := requested s buf) in *.
      assert (Hk : 0 <= k <= len buf) by (unfold k, requested; lia).
      pose proof (roundup4_spec k (proj1 Hk)) as [Hru [qr Hqr]].
      assert (Hrl : roundup4 k <= SineWave.length s - SineWave.pos s)
        by (unfold k, requested in *; lia).
      assert (Hdrop : len (drop (Z.to_nat k) gen) = roundup4 k - k)
        by (unfold len in *; rewrite length_drop; lia).
      unfold undelivered. cbn [stream count advanced SineWave.pos
        SineWave.length SineWave.remaining SineWave.channelCount
        SineWave.format].
      rewrite Hrem. change (len []) with 0.
      assert (Hkpos : 0 < len buf -> 0 < k) by (unfold k, requested; lia).
      split; [split | rewrite Hdrop; repeat split; lia];
        cbn [advanced SineWave.pos SineWave.length SineWave.remaining];
        try lia.
      * exists ql. exact Hql.
      * exists (qp + qr). lia.
  - rewrite Read_pending in Hread by (rewrite Hrem; discriminate).
    injection Hread as <-.
    destruct Hinv as [Hlen Hl4 Hp Hp4 Hr].
    assert (Hr0 : 0 < len (SineWave.remaining s))
      by (rewrite Hrem, len_cons; pose proof (len_nonneg rem); lia).
    assert (Hdrop :
      len (drop (Z.to_nat (Z.min (len buf) (len (SineWave.remaining s))))
             (SineWave.remaining s))
      = len (SineWave.remaining s)
        - Z.min (len buf) (len (SineWave.remaining s)))
      by (unfold len in *; rewrite length_drop; lia).
    unfold undelivered. cbn [stream count with_remaining SineWave.pos
      SineWave.length SineWave.remaining SineWave.channelCount
      SineWave.format].
    split; [split | rewrite Hdrop; repeat split; lia];
      cbn [with_remaining SineWave.pos SineWave.length SineWave.remaining];
      try assumption; lia.
Qed.

Lemma Read_total s (buf : list byte) :
  Configured s -> Inv s -> len buf < 2 ^ 62 ->
  exists r, Read s buf = Ok r.
Proof.
  intros Hcfg Hinv Hbuf.
  destruct (SineWave.remaining s) as [|b rem] eqn:Hrem.
  - destruct (Z.eq_dec (SineWave.pos s) (SineWave.length s)) as [Hpos|Hpos].
    + rewrite Read_exhausted by assumption. eauto.
    + rewrite Read_fresh by assumption. eauto.
  - rewrite Read_pending by (rewrite Hrem; discriminate). eauto.
Qed.

Lemma Read_Configured s (buf : list byte) r :
  Configured s -> Inv s -> len buf < 2 ^ 62 ->
  Read s buf = Ok r -> Configured (stream r).
Proof.
  intros [Hf Hc Hcc] Hinv Hbuf Hread.
  destruct (Read_step s buf r Hinv Hbuf Hread)
    as (_ & _ & _ & Hch & Hfmt & _).
  split; rewrite ?Hch, ?Hfmt; assumption.
Qed.

(** ** [NewSineWave] *)

Ltac qlia := Z.to_euclidean_division_equations; lia.

Lemma wrap_range z : - 2 ^ 63 <= Int64.wrap z < 2 ^ 63.
Proof.
  unfold Int64.wrap, Int64.modulus.
  pose proof (Z.mod_pos_bound (z + 2 ^ 63) (2 ^ 64) ltac:(lia)). lia.
Qed.

(** Wrap-around is compatible with multiplication. *)
Lemma wrap_mul_l a b : Int64.wrap (Int64.wrap a * b) = Int64.wrap (a * b).
Proof.
  unfold Int64.wrap, Int64.modulus. f_equal.
  rewrite (Z.mod_eq (a + 2 ^ 63) (2 ^ 64)) by lia.
  replace ((a + 2 ^ 63 - 2 ^ 64 * ((a + 2 ^ 63) / 2 ^ 64) - 2 ^ 63) * b + 2 ^ 63)
    with (a * b + 2 ^ 63 + (- ((a + 2 ^ 63) / 2 ^ 64) * b) * 2 ^ 64) by lia.
  apply Z_mod_plus_full.
Qed.

Lemma NewSineWave_spec freq duration channelCount format bps :
  formatByteLength format = Ok bps ->
  NewSineWave freq duration channelCount format
  = Ok (SineWave.mk freq (newLength channelCount bps duration) 0
          channelCount format []).
Proof using flags.
  clear Sin Context NewContext.
  intros Hbps. unfold NewSineWave, newLength. rewrite Hbps. cbn [bind].
  do 2 f_equal. unfold Int64.mul, Int64.quot.
  rewrite !wrap_mul_l, <- (Z.mul_assoc (Int64.wrap _)), wrap_mul_l, Z.mul_assoc.
  set (x := Int64.wrap (channelCount * bps * Flag.sampleRate flags * duration)).
  pose proof (wrap_range (channelCount * bps * Flag.sampleRate flags * duration))
    as Hx. fold x in Hx. unfold Second.
  rewrite (wrap_small (Z.quot x 1000000000)) by qlia.
  apply wrap_small. qlia.
Qed.

Lemma newLength_range channelCount bps duration :
  - 2 ^ 34 < newLength channelCount bps duration < 2 ^ 34 /\
  (4 | newLength channelCount bps duration).
Proof.
  unfold newLength, Second.
  set (x := Int64.wrap (channelCount * bps * Flag.sampleRate flags * duration)).
  pose proof (wrap_range (channelCount * bps * Flag.sampleRate flags * duration))
    as Hx. fold x in Hx.
  split; [qlia|]. eexists. reflexivity.
Qed.

Lemma newLength_nonneg channelCount bps duration :
  0 <= channelCount * bps * Flag.sampleRate flags * duration < 2 ^ 63 ->
  newLength channelCount bps duration
  = totalLength_spec channelCount bps (Flag.sampleRate flags) duration.
Proof.
  intros Hx. unfold newLength, totalLength_spec, Second.
  rewrite wrap_small by lia.
  rewrite !Z.quot_div_nonneg by qlia.
  rewrite Z.div_div by lia. lia.
Qed.


(** ** Runs of calls *)

Lemma ReadAll_cons s (buf : list byte) bufs rs s' :
  ReadAll s (buf :: bufs) = Ok (rs, s') ->
  exists r rs', Read s buf = Ok r /\ ReadAll (stream r) bufs = Ok (rs', s') /\
                rs = r :: rs'.
Proof.
  cbn [ReadAll]. intros H.
  apply bind_Ok in H as (r & Hr & H).
  apply bind_Ok in H as ([rs' s''] & Hrest & H).
  injection H as <- <-. eauto.
Qed.

Lemma ReadAll_step s bufs rs s' :
  Inv s -> Forall small bufs ->
  ReadAll s bufs = Ok (rs, s') ->
  Inv s' /\
  Forall (fun r => Inv (stream r)) rs /\
  SineWave.pos s <= SineWave.pos s' /\
  SineWave.length s' = SineWave.length s /\
  undelivered s' = undelivered s - total rs.
Proof.
  intros Hinv Hsmall. revert s rs Hinv.
  induction Hsmall as [|buf bufs Hbuf Hbufs IH]; intros s rs Hinv Hrun.
  - injection Hrun as <- <-. cbn [total foldr].
    split; [assumption|]. split; [constructor|]. repeat split; lia.
  - apply ReadAll_cons in Hrun as (r & rs' & Hr & Hrest & ->).
    destruct (Read_step s buf r Hinv Hbuf Hr)
      as (Hinv1 & Hpos1 & Hlen1 & _ & _ & _ & Hund1 & _).
    destruct (IH _ _ Hinv1 Hrest) as (Hinv' & Hall & Hpos' & Hlen' & Hund').
    cbn [total foldr]. fold (total rs').
    split; [assumption|]. split; [constructor; assumption|].
    repeat split; lia.
Qed.

Lemma ReadAll_total s bufs :
  Configured s -> Inv s -> Forall small bufs ->
  exists rs s', ReadAll s bufs = Ok (rs, s').
Proof.
  intros Hcfg Hinv Hsmall. revert s Hcfg Hinv.
  induction Hsmall as [|buf bufs Hbuf Hbufs IH]; intros s Hcfg Hinv.
  - cbn. eauto.
  - destruct (Read_total s buf Hcfg Hinv Hbuf) as (r & Hr).
    destruct (Read_step s buf r Hinv Hbuf Hr) as (Hinv1 & _).
    pose proof (Read_Configured s buf r Hcfg Hinv Hbuf Hr) as Hcfg1.
    destruct (IH _ Hcfg1 Hinv1) as (rs & s' & Hrest).
    cbn [ReadAll]. rewrite Hr. cbn [bind]. rewrite Hrest. cbn. eauto.
Qed.

(** Once the cursor is at the end and nothing is pending, every call
    returns no byte and the end-of-stream signal, and changes nothing. *)
Lemma ReadAll_exhausted s bufs :
  SineWave.remaining s = [] ->
  SineWave.pos s = SineWave.length s ->
  ReadAll s bufs = Ok (map (fun buf => mkRead 0 (Some EOF) buf s) bufs, s).
Proof.
  intros Hrem Hpos. induction bufs as [|buf bufs IH]; [reflexivity|].
  cbn [ReadAll map]. rewrite Read_exhausted by assumption.
  cbn [bind stream]. rewrite IH. reflexivity.
Qed.

(** Every call with a non-empty buffer hands out at least one byte while
    bytes are left, so [undelivered s] such calls exhaust the stream. *)
Lemma ReadAll_exhausts s bufs rs s' :
  Inv s -> Forall small bufs ->
  Forall (fun buf => 0 < len buf) bufs ->
  undelivered s <= len bufs ->
  ReadAll s bufs = Ok (rs, s') ->
  SineWave.pos s' = SineWave.length s' /\ SineWave.remaining s' = [].
Proof.
  intros Hinv Hsmall. revert s rs Hinv.
  induction Hsmall as [|buf bufs Hbuf Hbufs IH];
    intros s rs Hinv Hne Hund Hrun.
  - injection Hrun as <- <-. change (len []) with 0 in Hund.
    destruct Hinv as [_ _ Hp _ _]. unfold undelivered in Hund.
    pose proof (len_nonneg (SineWave.remaining s)) as Hr.
    split; [lia|].
    destruct (SineWave.remaining s); [reflexivity|].
    rewrite len_cons in *. pose proof (len_nonneg l). lia.
  - apply ReadAll_cons in Hrun as (r & rs' & Hr & Hrest & ->).
    inversion Hne as [|? ? Hbuf0 Hne']; subst.
    destruct (Read_step s buf r Hinv Hbuf Hr)
      as (Hinv1 & _ & _ & _ & _ & Hcount & Hund1 & Hprog).
    apply (IH (stream r) rs' Hinv1 Hne'); [| exact Hrest].
    rewrite len_cons in Hund. pose proof (len_nonneg bufs).
    destruct (Z_lt_le_dec 0 (undelivered s)) as [Hpos|Hzero].
    + specialize (Hprog Hbuf0 Hpos). lia.
    + lia.
Qed.

Lemma NewSineWave_Inv freq duration channelCount format bps :
  formatByteLength format = Ok bps ->
  0 <= channelCount * bps * Flag.sampleRate flags * duration < 2 ^ 63 ->
  Inv (SineWave.mk freq (newLength channelCount bps duration) 0
         channelCount format []).
Proof.
  intros Hbps Hx.
  destruct (newLength_range channelCount bps duration) as [Hr H4].
  assert (0 <= newLength channelCount bps duration).
  { rewrite newLength_nonneg by exact Hx. unfold totalLength_spec, Second.
    apply Z.mul_nonneg_nonneg; [lia|]. apply Z.div_pos; lia. }
  split; cbn [SineWave.length SineWave.pos SineWave.remaining];
    try lia; try exact H4.
  - exists 0. reflexivity.
  - change (len []) with 0. lia.
Qed.

(** What a caller observes of a call on a stream without pending bytes
    and before the end. *)
Lemma Read_fresh_observables s (buf : list byte) :
  Configured s -> Inv s ->
  SineWave.remaining s = [] ->
  SineWave.pos s <> SineWave.length s ->
  len buf < 2 ^ 62 ->
  exists r,
    Read s buf = Ok r /\
    count r = requested s buf /\
    err r = (if SineWave.pos s + len buf >? SineWave.length s
             then Some EOF else None) /\
    SineWave.pos (stream r) = SineWave.pos s + roundup4 (requested s buf) /\
    SineWave.length (stream r) = SineWave.length s /\
    len (SineWave.remaining (stream r))
    = roundup4 (requested s buf) - requested s buf.
Proof.
  intros Hcfg Hinv Hrem Hpos Hbuf.
  rewrite Read_fresh by assumption.
  eexists. split; [reflexivity|].
  cbn [count err stream advanced SineWave.pos SineWave.length
       SineWave.remaining].
  repeat split.
  destruct Hinv as [Hlen _ Hp _ _].
  pose proof (len_nonneg buf) as Hbuf0.
  assert (Hk : 0 <= requested s buf <= len buf) by (unfold requested; lia).
  pose proof (generated_length s buf Hcfg Hk) as Hgen.
  pose proof (roundup4_spec _ (proj1 Hk)) as [Hr _].
  unfold len in *. rewrite length_drop. lia.
Qed.

(** ** Properties of [NewSineWave] and [Read] *)

(** C6 (amended). [NewSineWave] sets the total length to the int64 product
    channelCount * bytesPerSample * sampleRate * duration (in nanoseconds),
    divided by [time.Second] and then by 4 with Go's truncating division,
    times 4. It is always a multiple of 4; when the product is
    nonnegative and fits in 64 bits it is the product in seconds rounded
    down to a multiple of 4. *)
Theorem C6_totalLength freq duration channelCount format bps :
  formatByteLength format = Ok bps ->
  exists s,
    NewSineWave freq duration channelCount format = Ok s /\
    SineWave.length s
    = Z.quot (Z.quot (Int64.wrap (channelCount * bps * Flag.sampleRate flags
                                  * duration)) Second) 4 * 4 /\
    (4 | SineWave.length s) /\
    (0 <= channelCount * bps * Flag.sampleRate flags * duration < 2 ^ 63 ->
     SineWave.length s
     = totalLength_spec channelCount bps (Flag.sampleRate flags) duration).
Proof using flags.
  intros Hbps. rewrite (NewSineWave_spec _ _ _ _ bps Hbps).
  eexists. split; [reflexivity|]. cbn [SineWave.length].
  split; [reflexivity|]. split.
  - apply newLength_range.
  - apply newLength_nonneg.
Qed.



(** C5 (amended). The cursor never decreases and the total length never
    changes, whatever the calls. Once the cursor is at the total length
    and no byte is pending, every later call, however many, returns no
    byte and the end-of-stream signal and leaves the stream unchanged.
    (Bytes still pending when the cursor reaches the total length are
    handed out first, without the signal.) *)
Theorem C5_exhausted_is_final s bufs :
  Inv s -> Forall small bufs ->
  (forall rs s',
      ReadAll s bufs = Ok (rs, s') ->
      SineWave.pos s <= SineWave.pos s' /\
      SineWave.length s' = SineWave.length s) /\
  (SineWave.remaining s = [] -> SineWave.pos s = SineWave.length s ->
   ReadAll s bufs
   = Ok (map (fun buf => mkRead 0 (Some EOF) buf s) bufs, s)).
Proof.
  intros Hinv Hsmall. split.
  - intros rs s' Hrun.
    destruct (ReadAll_step s bufs rs s' Hinv Hsmall Hrun)
      as (_ & _ & Hpos & Hlen & _).
    split; assumption.
  - apply ReadAll_exhausted.
Qed.

(** C2 (amended). After every call on a stream made by [NewSineWave] the
    pending buffer holds at most 3 bytes, whatever the frame size: the
    working length is the request rounded up to a multiple of 4. The
    bound frameSize - 1 follows only for frames of 4 bytes or more. *)
Theorem C2_pending_bound freq duration channelCount format s bufs rs s' :
  NewSineWave freq duration channelCount format = Ok s ->
  ReadAll s bufs = Ok (rs, s') ->
  len (SineWave.remaining s') <= 3 /\
  (4 <= frameSize s -> len (SineWave.remaining s') <= frameSize s - 1).
Proof.
  intros Hnew Hrun.
  assert (H0 : len (SineWave.remaining s) <= 3).
  { unfold NewSineWave in Hnew.
    apply bind_Ok in Hnew as (bps & _ & [= <-]).
    cbn [SineWave.remaining]. change (len []) with 0. lia. }
  clear Hnew.
  assert (H3 : len (SineWave.remaining s') <= 3); [| split; lia].
  revert s rs H0 Hrun. induction bufs as [|buf bufs IH]; intros s rs H0 Hrun.
  - injection Hrun as <- <-. exact H0.
  - apply ReadAll_cons in Hrun as (r & rs' & Hr & Hrest & ->).
    apply (IH (stream r) rs'); [| exact Hrest].
    exact (Read_remaining s buf r H0 Hr).
Qed.

(** C10 (amended). For a stream made by [NewSineWave] with a valid format
    and a product channelCount * bytesPerSample * sampleRate * duration
    that is nonnegative and fits in 64 bits: after construction and after
    every call, the cursor is a multiple of 4 between 0 and the total
    length, the total length is a multiple of 4 and at most 3 bytes are
    pending. Calls with non-empty buffers reach the end exactly: after as
    many of them as the total length has bytes, the cursor equals the
    total length and nothing is pending. With the configured, positive
    channel count no call panics. *)
Theorem C10_cursor_invariant freq duration channelCount format bps bufs :
  formatByteLength format = Ok bps ->
  0 <= channelCount * bps * Flag.sampleRate flags * duration < 2 ^ 63 ->
  Forall small bufs ->
  exists s,
    NewSineWave freq duration channelCount format = Ok s /\
    Inv s /\
    (forall rs s',
        ReadAll s bufs = Ok (rs, s') ->
        Inv s' /\ Forall (fun r => Inv (stream r)) rs) /\
    (forall rs s',
        Forall (fun buf : list byte => 0 < len buf) bufs ->
        SineWave.length s <= len bufs ->
        ReadAll s bufs = Ok (rs, s') ->
        SineWave.pos s' = SineWave.length s' /\ SineWave.remaining s' = []) /\
    (channelCount = Flag.channelCount flags -> 0 < channelCount < 2 ^ 32 ->
     exists rs s', ReadAll s bufs = Ok (rs, s')).
Proof.
  intros Hbps Hx Hsmall. rewrite (NewSineWave_spec _ _ _ _ bps Hbps).
  pose proof (NewSineWave_Inv freq duration channelCount format bps Hbps Hx)
    as Hinv.
  eexists. split; [reflexivity|]. split; [exact Hinv|]. split; [| split].
  - intros rs s' Hrun.
    destruct (ReadAll_step _ bufs rs s' Hinv Hsmall Hrun) as (H1 & H2 & _).
    split; assumption.
  - intros rs s' Hne Hlen Hrun.
    apply (ReadAll_exhausts _ bufs rs s' Hinv Hsmall Hne); [| exact Hrun].
    unfold undelivered. cbn [SineWave.length SineWave.pos SineWave.remaining]
      in *. change (len []) with 0. lia.
  - intros Hflag Hcc. apply ReadAll_total; [| exact Hinv | exact Hsmall].
    split; cbn [SineWave.format SineWave.channelCount]; try assumption.
    intros code ->. discriminate.
Qed.

(** ** Where a slot lies in the generated bytes *)

Lemma frames_app format length (a b : nat) p :
  frames format length (a + b) p
  = frames format length a p ++ frames format length b (p + Z.of_nat a).
Proof.
  revert p. induction a as [|a IH]; intros p.
  - cbn [frames Nat.add app]. f_equal. lia.
  - cbn [frames Nat.add]. rewrite IH, <- app_assoc. do 3 f_equal. lia.
Qed.

Lemma take_drop_block {A} (pre w rest : list A) (off n : nat) :
  off = length pre -> n = length w ->
  take n (drop off (pre ++ w ++ rest)) = w.
Proof.
  intros -> ->. rewrite drop_app_length, take_app_length. reflexivity.
Qed.

(** Channel slot [ch] of frame [i] of a run of [n] frames from position
    [p] holds the sample of position [p + i], whatever the channel. *)
Lemma slot_in_frames format bps length (n i ch : nat) p (tail : list byte) :
  formatByteLength format = Ok bps ->
  (i < n)%nat -> (ch < Z.to_nat (Flag.channelCount flags))%nat ->
  take (Z.to_nat bps)
    (drop (Z.to_nat (bps * Flag.channelCount flags * Z.of_nat i
                     + bps * Z.of_nat ch))
       (frames format length n p ++ tail))
  = slot format length (p + Z.of_nat i).
Proof.
  intros Hbps Hi Hch.
  set (cc := Z.to_nat (Flag.channelCount flags)) in *.
  set (w := slot format length (p + Z.of_nat i)).
  assert (Hcc : 0 <= Flag.channelCount flags) by lia.
  assert (Hw : len w = bps) by (apply slot_length; exact Hbps).
  replace n with (i + (1 + (n - i - 1)))%nat by lia.
  rewrite frames_app, (frames_app _ _ 1). cbn [frames]. rewrite app_nil_r.
  unfold frame at 1. fold cc. fold w.
  replace cc with (ch + (1 + (cc - ch - 1)))%nat at 1 by lia.
  rewrite !replicate_add, !concat_app. cbn [replicate concat].
  rewrite app_nil_r, <- !app_assoc.
  rewrite (app_assoc (frames format length i p)).
  apply take_drop_block.
  - rewrite length_app, length_concat_replicate.
    pose proof (frames_length format bps length i p Hbps Hcc) as Hf.
    unfold len in *. lia.
  - unfold len in Hw. lia.
Qed.

(** The bytes a call on a stream without pending bytes generated are
    those it handed out followed by those it kept. *)
Lemma Read_fresh_generated s (buf : list byte) :
  Configured s -> Inv s ->
  SineWave.remaining s = [] ->
  SineWave.pos s <> SineWave.length s ->
  small buf ->
  exists r,
    Read s buf = Ok r /\
    count r = requested s buf /\
    delivered r = take (Z.to_nat (requested s buf)) (generated s buf) /\
    delivered r ++ SineWave.remaining (stream r) = generated s buf.
Proof.
  intros Hcfg Hinv Hrem Hpos Hbuf.
  rewrite Read_fresh by assumption.
  eexists. split; [reflexivity|]. split; [reflexivity|].
  unfold delivered. cbn [count out stream advanced SineWave.remaining].
  destruct Hinv as [Hlen _ Hp _ _].
  pose proof (len_nonneg buf) as Hbuf0.
  assert (Hk : 0 <= requested s buf <= len buf) by (unfold requested; lia).
  pose proof (generated_length s buf Hcfg Hk) as Hgen.
  pose proof (roundup4_spec _ (proj1 Hk)) as [Hr _].
  rewrite take_app_length'
    by (rewrite length_take; unfold len in Hgen; lia).
  split; [reflexivity | apply take_drop].
Qed.

(** Channel replication within one call: when the stream has the channel
    count of the flag, every channel slot of every whole frame of the
    call's working buffer holds the encoded sample of the frame's
    position, so the slots of such a frame are identical. *)
Lemma replication_in_working_buffer s (buf : list byte) :
  Configured s -> Inv s ->
  SineWave.remaining s = [] ->
  SineWave.pos s <> SineWave.length s ->
  small buf ->
  exists r bps,
    Read s buf = Ok r /\
    formatByteLength (SineWave.format s) = Ok bps /\
    let gen := delivered r ++ SineWave.remaining (stream r) in
    forall i ch,
      0 <= i < len gen / frameSize s ->
      0 <= ch < SineWave.channelCount s ->
      take (Z.to_nat bps)
        (drop (Z.to_nat (frameSize s * i + bps * ch)) gen)
      = slot (SineWave.format s) (period s)
          (SineWave.pos s / frameSize s + i).
Proof.
  intros Hcfg Hinv Hrem Hpos Hbuf.
  destruct (Read_fresh_generated s buf Hcfg Hinv Hrem Hpos Hbuf)
    as (r & Hread & _ & _ & Hgen).
  destruct (Configured_bps s Hcfg) as (bps & Hbps & Hb & Hnum).
  pose proof (cfg_flag s Hcfg) as Hflag.
  exists r, bps. split; [exact Hread|]. split; [exact Hbps|].
  intros gen i ch Hi Hch. subst gen. rewrite Hgen in *.
  destruct Hinv as [Hlen _ Hp _ _].
  pose proof (len_nonneg buf) as Hbuf0.
  assert (Hk : 0 <= requested s buf <= len buf) by (unfold requested; lia).
  rewrite (generated_length s buf Hcfg Hk) in Hi.
  unfold generated.
  replace (frameSize s * i + bps * ch)
    with (bps * Flag.channelCount flags * Z.of_nat (Z.to_nat i)
          + bps * Z.of_nat (Z.to_nat ch))
    by (rewrite Hnum, Hflag, !Z2Nat.id by lia; reflexivity).
  replace (SineWave.pos s / frameSize s + i)
    with (SineWave.pos s / frameSize s + Z.of_nat (Z.to_nat i)) by lia.
  apply slot_in_frames; [exact Hbps | lia | lia].
Qed.

(** When the flag [*channelCount] is 1 as well (and the sample rate
    44100), the stream of 440 Hz, one second, one channel, signed 16-bit
    little-endian has a total length of 88200 bytes, and the first two
    bytes any call hands out are 0x00 0x00, the low and the high byte of
    int16(sin(0) * 0.3 * 32767) = 0. What is assumed of [math.Sin] is its
    value at zero. *)
Lemma one_channel_stream (buf : list byte) :
  Flag.sampleRate flags = 44100 ->
  Flag.channelCount flags = 1 ->
  Sin 0%float = 0%float ->
  2 <= len buf < 2 ^ 62 ->
  exists s r,
    NewSineWave 440%float Second 1 oto.FormatSignedInt16LE = Ok s /\
    SineWave.length s = 88200 /\
    Read s buf = Ok r /\
    2 <= count r /\
    int16_of_float (Sin 0%float * headroom * 32767)%float = 0 /\
    take 2 (delivered r) = [byte_of_Z 0; byte_of_Z (Z.shiftr 0 8)] /\
    take 2 (delivered r) = [x00; x00].
Proof.
  intros Hsr Hcc HSin Hbuf.
  rewrite (NewSineWave_spec _ _ _ oto.FormatSignedInt16LE 2 eq_refl).
  assert (Hl : newLength 1 2 Second = 88200)
    by (unfold newLength; rewrite Hsr; vm_compute; reflexivity).
  rewrite Hl.
  set (s := SineWave.mk 440%float 88200 0 1 oto.FormatSignedInt16LE []).
  assert (Hcfg : Configured s).
  { split; cbn; [discriminate | congruence | lia]. }
  assert (Hinv : Inv s).
  { split; cbn [s SineWave.length SineWave.pos SineWave.remaining];
      try (change (len []) with 0); try lia.
    - exists 22050. reflexivity.
    - exists 0. reflexivity. }
  destruct (Read_fresh_generated s buf Hcfg Hinv eq_refl ltac:(discriminate)
              ltac:(unfold small; lia)) as (r & Hread & Hcount & Hdel & _).
  assert (Hk : 2 <= requested s buf <= len buf)
    by (unfold requested; cbn [s SineWave.length SineWave.pos]; lia).
  pose proof (roundup4_spec (requested s buf) ltac:(lia)) as [Hr _].
  assert (Hzero : int16_of_float (Sin 0%float * headroom * 32767)%float = 0)
    by (rewrite HSin; vm_compute; reflexivity).
  assert (Hslot : slot oto.FormatSignedInt16LE (period s) (0 + Z.of_nat 0)
                  = [x00; x00]).
  { unfold slot, sample, period. cbn [s SineWave.freq]. rewrite Hsr.
    replace (two_pi * float64_of_int (0 + Z.of_nat 0)
             / (float64_of_int 44100 / 440))%float
      with 0%float by (vm_compute; reflexivity).
    rewrite Hzero. vm_compute. reflexivity. }
  assert (Htake : take 2 (delivered r) = [x00; x00]).
  { rewrite Hdel, take_take.
    replace (2 `min` Z.to_nat (requested s buf))%nat with 2%nat by lia.
    unfold generated.
    replace (frameSize s) with 2 by reflexivity.
    change (SineWave.pos s / 2) with 0.
    rewrite <- Hslot.
    assert (Hn : (0 < Z.to_nat (roundup4 (requested s buf) / 2))%nat).
    { assert (1 <= roundup4 (requested s buf) / 2)
        by (apply Z.div_le_lower_bound; lia).
      lia. }
    assert (Hch : (0 < Z.to_nat (Flag.channelCount flags))%nat)
      by (rewrite Hcc; lia).
    pose proof (slot_in_frames oto.FormatSignedInt16LE 2 (period s) _ 0 0 0
                  (drop (Z.to_nat (2 * (roundup4 (requested s buf) / 2)))
                     (workbuf (requested s buf) buf))
                  eq_refl Hn Hch) as H.
    replace (Z.to_nat (2 * Flag.channelCount flags * Z.of_nat 0
                       + 2 * Z.of_nat 0)) with 0%nat in H by lia.
    rewrite drop_0 in H. exact H. }
  exists s, r. split; [reflexivity|]. split; [reflexivity|].
  split; [exact Hread|]. split; [lia|]. split; [exact Hzero|].
  split; exact Htake.
Qed.

(** ** Chunking when the frame size divides 4 *)

(** A call changes the cursor and the pending bytes only. *)
Lemma Read_static s (buf : list byte) r :
  Read s buf = Ok r ->
  SineWave.freq (stream r) = SineWave.freq s /\
  SineWave.length (stream r) = SineWave.length s /\
  SineWave.channelCount (stream r) = SineWave.channelCount s /\
  SineWave.format (stream r) = SineWave.format s.
Proof.
  unfold Read.
  destruct (0 <? len (SineWave.remaining s)).
  { unfold copy. intros [= <-]. repeat split. }
  destruct (SineWave.pos s =? SineWave.length s).
  { intros [= <-]. repeat split. }
  intros H.
  apply bind_Ok in H as ([view eof] & _ & H).
  apply bind_Ok in H as (bps & _ & H).
  apply bind_Ok in H as (p & _ & H).
  apply bind_Ok in H as (gen & _ & H).
  destruct (Z.rem (len view) 4 >? 0).
  - unfold copy in H. injection H as <-. repeat split.
  - injection H as <-. repeat split.
Qed.

Lemma Read_ideal s (buf : list byte) r :
  Read s buf = Ok r -> ideal (stream r) = ideal s.
Proof.
  intros H. destruct (Read_static s buf r H) as (Hf & Hl & Hc & Hfmt).
  unfold ideal, period, frameSize. rewrite Hf, Hl, Hc, Hfmt. reflexivity.
Qed.

Lemma frames_prefix format bps length (a n : nat) p :
  formatByteLength format = Ok bps ->
  0 <= Flag.channelCount flags ->
  (a <= n)%nat ->
  take (Z.to_nat (bps * Flag.channelCount flags * Z.of_nat a))
    (frames format length n p)
  = frames format length a p.
Proof.
  intros Hbps Hcc Han.
  replace n with (a + (n - a))%nat by lia.
  rewrite frames_app. apply take_app_length'.
  pose proof (frames_length format bps length a p Hbps Hcc) as Hf.
  unfold len in Hf. lia.
Qed.

(** With frames that divide 4, a call generates exactly the next bytes of
    the stream's frames: no byte of the working buffer is left unwritten
    and the frame position matches the cursor. *)
Lemma generated_aligned s (buf : list byte) :
  Configured s -> Inv s ->
  (frameSize s | 4) ->
  len buf < 2 ^ 62 ->
  take (Z.to_nat (SineWave.pos s)) (ideal s) ++ generated s buf
  = take (Z.to_nat (SineWave.pos s + roundup4 (requested s buf))) (ideal s).
Proof.
  intros Hcfg Hinv Hdiv Hbuf.
  destruct (Configured_bps s Hcfg) as (bps & Hbps & Hb & Hnum).
  pose proof (cfg_channels s Hcfg) as Hcc.
  pose proof (cfg_flag s Hcfg) as Hflag.
  destruct Hinv as [Hlen Hl4 Hp Hp4 _].
  pose proof (len_nonneg buf) as Hbuf0.
  assert (Hk : 0 <= requested s buf <= len buf) by (unfold requested; lia).
  pose proof (roundup4_spec _ (proj1 Hk)) as [Hr Hr4].
  assert (Hrl : roundup4 (requested s buf)
                <= SineWave.length s - SineWave.pos s).
  { destruct Hl4 as [ql Hql], Hp4 as [qp Hqp], Hr4 as [qr Hqr].
    unfold requested in *. lia. }
  assert (Hnum0 : 0 < frameSize s) by (rewrite Hnum; nia).
  destruct (Z.divide_trans _ _ _ Hdiv Hp4) as [a Ha].
  destruct (Z.divide_trans _ _ _ Hdiv Hr4) as [n Hn].
  destruct (Z.divide_trans _ _ _ Hdiv Hl4) as [m Hm].
  assert (Ha0 : 0 <= a) by nia.
  assert (Hn0 : 0 <= n) by nia.
  assert (Hanm : a + n <= m) by nia.
  unfold generated, ideal.
  rewrite Hn, Ha, Hm, !Z.div_mul by lia.
  rewrite (drop_ge (workbuf _ _))
    by (pose proof (workbuf_length _ buf Hk) as Hw; unfold len in Hw; lia).
  rewrite app_nil_r.
  replace (a * frameSize s)
    with (bps * Flag.channelCount flags * Z.of_nat (Z.to_nat a))
    by (rewrite Hnum, Hflag, Z2Nat.id by lia; lia).
  replace (bps * Flag.channelCount flags * Z.of_nat (Z.to_nat a)
           + n * frameSize s)
    with (bps * Flag.channelCount flags * Z.of_nat (Z.to_nat a + Z.to_nat n))
    by (rewrite Hnum, Hflag, Nat2Z.inj_add, !Z2Nat.id by lia; lia).
  rewrite !(frames_prefix _ bps) by (assumption || lia).
  rewrite frames_app. do 2 f_equal. lia.
Qed.

Lemma ideal_length s :
  Configured s -> Inv s -> (frameSize s | 4) ->
  len (ideal s) = SineWave.length s.
Proof.
  intros Hcfg Hinv Hdiv.
  destruct (Configured_bps s Hcfg) as (bps & Hbps & Hb & Hnum).
  pose proof (cfg_channels s Hcfg) as Hcc.
  pose proof (cfg_flag s Hcfg) as Hflag.
  destruct Hinv as [Hlen Hl4 _ _ _].
  assert (Hnum0 : 0 < frameSize s) by (rewrite Hnum; nia).
  destruct (Z.divide_trans _ _ _ Hdiv Hl4) as [m Hm].
  unfold ideal. rewrite (frames_length _ bps) by (assumption || lia).
  rewrite <- Hflag, <- Hnum, Hm, Z.div_mul by lia.
  rewrite Z2Nat.id by nia. reflexivity.
Qed.

Lemma Read_in_order s (buf : list byte) r acc :
  Configured s -> Inv s -> (frameSize s | 4) -> small buf ->
  in_order s acc ->
  Read s buf = Ok r ->
  in_order (stream r) (acc ++ delivered r).
Proof.
  intros Hcfg Hinv Hdiv Hbuf Hord Hread.
  unfold in_order in *. rewrite (Read_ideal s buf r Hread).
  destruct (SineWave.remaining s) as [|b rem] eqn:Hrem.
  - rewrite app_nil_r in Hord.
    destruct (Z.eq_dec (SineWave.pos s) (SineWave.length s)) as [Hpos|Hpos].
    + rewrite Read_exhausted in Hread by assumption.
      injection Hread as <-. unfold delivered. cbn [count out stream].
      rewrite Hrem. cbn [Z.to_nat take]. rewrite !app_nil_r. exact Hord.
    + destruct (Read_fresh_generated s buf Hcfg Hinv Hrem Hpos Hbuf)
        as (r' & Hr' & _ & _ & Hgen).
      rewrite Hread in Hr'. injection Hr' as <-.
      destruct (Read_fresh_observables s buf Hcfg Hinv Hrem Hpos Hbuf)
        as (r' & Hr' & _ & _ & Hp' & _).
      rewrite Hread in Hr'. injection Hr' as <-.
      rewrite <- app_assoc, Hgen, Hp', Hord.
      apply generated_aligned; assumption.
  - rewrite Read_pending in Hread by (rewrite Hrem; discriminate).
    rewrite <- Hrem in Hord.
    injection Hread as <-. unfold delivered.
    cbn [count out stream with_remaining SineWave.remaining SineWave.pos].
    rewrite <- Hord, <- app_assoc. f_equal.
    rewrite take_app_length' by (unfold len; rewrite length_take; lia).
    apply take_drop.
Qed.

Lemma ReadAll_in_order s bufs rs s' acc :
  Configured s -> Inv s -> (frameSize s | 4) -> Forall small bufs ->
  in_order s acc ->
  ReadAll s bufs = Ok (rs, s') ->
  in_order s' (acc ++ concat (map delivered rs)) /\ ideal s' = ideal s.
Proof.
  intros Hcfg Hinv Hdiv Hsmall. revert s rs acc Hcfg Hinv Hdiv.
  induction Hsmall as [|buf bufs Hbuf Hbufs IH];
    intros s rs acc Hcfg Hinv Hdiv Hord Hrun.
  - injection Hrun as <- <-. cbn [map concat]. rewrite app_nil_r.
    split; [exact Hord | reflexivity].
  - apply ReadAll_cons in Hrun as (r & rs' & Hr & Hrest & ->).
    pose proof (Read_in_order s buf r acc Hcfg Hinv Hdiv Hbuf Hord Hr) as H1.
    destruct (Read_step s buf r Hinv Hbuf Hr) as (Hinv1 & _).
    pose proof (Read_Configured s buf r Hcfg Hinv Hbuf Hr) as Hcfg1.
    destruct (Read_static s buf r Hr) as (_ & _ & Hc & Hfmt).
    assert (Hdiv1 : (frameSize (stream r) | 4))
      by (unfold frameSize in *; rewrite Hc, Hfmt; exact Hdiv).
    destruct (IH _ _ _ Hcfg1 Hinv1 Hdiv1 H1 Hrest) as [H2 Hid].
    cbn [map concat]. rewrite app_assoc.
    split; [exact H2 | rewrite Hid; apply (Read_ideal s buf r Hr)].
Qed.

(** X1. Chunking invariance where it holds: for a stream whose frame size
    divides 4 (one or two 8-bit channels, one or two 16-bit channels, one
    float channel), with the configured channel count, the bytes handed
    out by any run of calls, concatenated, are the first bytes of what a
    single call into a buffer of at least the total length hands out; all
    of them once the run has exhausted the stream. *)
Theorem chunking_invariance s bufs (whole : list byte) :
  Configured s -> Inv s ->
  SineWave.pos s = 0 -> SineWave.remaining s = [] ->
  (frameSize s | 4) ->
  Forall small bufs -> small whole -> SineWave.length s <= len whole ->
  exists single rs s',
    Read s whole = Ok single /\
    ReadAll s bufs = Ok (rs, s') /\
    delivered single = ideal s /\
    concat (map delivered rs)
    = take (Z.to_nat (total rs)) (delivered single) /\
    (undelivered s' = 0 -> concat (map delivered rs) = delivered single).
Proof.
  intros Hcfg Hinv Hpos Hrem Hdiv Hsmall Hwhole Hlen.
  destruct (ReadAll_total s bufs Hcfg Hinv Hsmall) as (rs & s' & Hrun).
  destruct (Read_total s whole Hcfg Hinv Hwhole) as (single & Hsingle).
  pose proof (ideal_length s Hcfg Hinv Hdiv) as Hil.
  assert (H0 : in_order s []).
  { unfold in_order. rewrite Hrem, Hpos. reflexivity. }
  (* the single call *)
  assert (Hds : delivered single = ideal s).
  { pose proof (Read_in_order s whole single [] Hcfg Hinv Hdiv Hwhole H0
                  Hsingle) as Hord.
    unfold in_order in Hord. rewrite (Read_ideal s whole single Hsingle) in Hord.
    cbn [app] in Hord.
    destruct (Read_step s whole single Hinv Hwhole Hsingle)
      as (Hinv1 & _ & Hl1 & _ & _ & Hcount & Hund & _).
    destruct (Z.eq_dec (SineWave.pos s) (SineWave.length s)) as [He|Hne].
    - rewrite Read_exhausted in Hsingle by assumption.
      injection Hsingle as <-. unfold delivered. cbn [count out Z.to_nat take].
      symmetry. apply nil_length_inv. unfold len in Hil. lia.
    - destruct (Read_fresh_observables s whole Hcfg Hinv Hrem Hne Hwhole)
        as (r' & Hr' & _ & _ & Hp' & _ & Hrem').
      rewrite Hsingle in Hr'. injection Hr' as <-.
      destruct Hinv as [Hlen0 Hl4 Hp _ _].
      assert (Hreq : requested s whole = SineWave.length s)
        by (unfold requested; lia).
      rewrite Hreq, roundup4_aligned in Hp', Hrem' by (lia || assumption).
      assert (Hnil : SineWave.remaining (stream single) = [])
        by (apply nil_length_inv; unfold len in Hrem'; lia).
      rewrite Hnil, app_nil_r, Hp', Hpos in Hord. rewrite Hord.
      apply take_ge. unfold len in Hil. lia. }
  (* the run of calls *)
  destruct (ReadAll_in_order s bufs rs s' [] Hcfg Hinv Hdiv Hsmall H0 Hrun)
    as [Hord Hid].
  destruct (ReadAll_step s bufs rs s' Hinv Hsmall Hrun)
    as (Hinv' & _ & _ & Hl' & Hund').
  unfold in_order in Hord. cbn [app] in Hord. rewrite Hid in Hord.
  assert (Htot : len (concat (map delivered rs)) = total rs).
  { apply (f_equal len) in Hord. rewrite len_app in Hord.
    destruct Hinv' as [_ _ Hp' _ _].
    unfold len at 3 in Hord. rewrite length_take in Hord.
    unfold undelivered in Hund'. rewrite Hrem, Hpos in Hund'.
    change (len []) with 0 in Hund'. unfold len in *. lia. }
  assert (Hprefix : concat (map delivered rs)
                    = take (Z.to_nat (total rs)) (ideal s)).
  { rewrite <- Htot. unfold len. rewrite Nat2Z.id.
    rewrite <- (take_app_length (concat (map delivered rs))
                  (SineWave.remaining s')) at 1.
    rewrite Hord, take_take. f_equal.
    apply (f_equal (@length byte)) in Hord.
    rewrite length_app, length_take in Hord. lia. }
  exists single, rs, s'.
  split; [exact Hsingle|]. split; [exact Hrun|]. split; [exact Hds|].
  rewrite Hds. split; [exact Hprefix|].
  intros Hz. rewrite Hprefix. apply take_ge.
  unfold undelivered in Hund', Hz. rewrite Hrem, Hpos in Hund'.
  unfold len in *. cbn [length] in Hund'. lia.
Qed.

(** ** [InitAudioContext] *)

(** C9. A format string other than u8, s16le and f32le makes
    [InitAudioContext] return an error that names the string, without any
    call to the backend; each of the three strings selects its format. *)
Theorem C9_format_selection (trace : list (event Context)) :
  (Flag.format flags = "f32le"%string -> selects oto.FormatFloat32LE trace) /\
  (Flag.format flags = "u8"%string -> selects oto.FormatUnsignedInt8 trace) /\
  (Flag.format flags = "s16le"%string ->
   selects oto.FormatSignedInt16LE trace) /\
  (Flag.format flags <> "f32le"%string ->
   Flag.format flags <> "u8"%string ->
   Flag.format flags <> "s16le"%string ->
   InitAudioContext trace
   = (None, None,
      Some (Errorf ("format must be u8, s16le, or f32le but: "
                    ++ Flag.format flags)%string),
      trace)).
Proof.
  unfold selects, InitAudioContext.
  repeat split.
  - intros ->. cbn. destruct (NewContext _); reflexivity.
  - intros ->. cbn. destruct (NewContext _); reflexivity.
  - intros ->. cbn. destruct (NewContext _); reflexivity.
  - intros H1 H2 H3.
    apply String.eqb_neq in H1, H2, H3. rewrite H1, H2, H3. reflexivity.
Qed.


(** ** The caller's buffer *)

(** The buffer after a call that returns: [n] bytes, then the caller's. *)
Lemma Read_shape s (buf : list byte) r :
  Read s buf = Ok r ->
  exists n pre,
    count r = n /\ 0 <= n <= len buf /\ len pre = n /\
    out r = pre ++ drop (Z.to_nat n) buf.
Proof.
  intros Hread.
  pose proof (len_nonneg buf) as Hb0.
  revert Hread. unfold Read.
  destruct (0 <? len (SineWave.remaining s)).
  { unfold copy. intros [= <-]. cbn [count out].
    pose proof (len_nonneg (SineWave.remaining s)) as Hr0.
    eexists _, _. split; [reflexivity|]. split; [lia|].
    split; [|reflexivity]. apply len_take. lia. }
  destruct (SineWave.pos s =? SineWave.length s).
  { intros [= <-]. cbn [count out]. exists 0, []. repeat split; lia. }
  intros H.
  apply bind_Ok in H as ([view eof] & Hview & H).
  assert (Hv : exists k, 0 <= k <= len buf /\ view = take (Z.to_nat k) buf).
  { destruct (Int64.add _ _ >? _).
    - apply bind_Ok in Hview as (v & Hs & [= <- <-]).
      unfold slice_to in Hs.
      destruct (_ && _) eqn:E; [|discriminate]. injection Hs as <-.
      eexists. split; [|reflexivity]. lia.
    - injection Hview as <- <-. exists (len buf). split; [lia|].
      rewrite take_ge; [reflexivity | unfold len; lia]. }
  destruct Hv as (k & Hk & ->).
  assert (Hlv : len (take (Z.to_nat k) buf) = k) by (apply len_take; exact Hk).
  assert (Hbeyond : drop (base.length (take (Z.to_nat k) buf)) buf
                    = drop (Z.to_nat k) buf).
  { f_equal. unfold len in Hlv. lia. }
  rewrite Hbeyond, Hlv in H.
  apply bind_Ok in H as (bps & _ & H).
  apply bind_Ok in H as (p & _ & H).
  apply bind_Ok in H as (gen & Hgen & H).
  apply generate_length in Hgen.
  destruct (Z.rem k 4 >? 0) eqn:E.
  - rewrite Z.gtb_ltb in E. apply Z.ltb_lt in E.
    rewrite Z.rem_mod_nonneg in * by lia.
    pose proof (Z.mod_pos_bound k 4 ltac:(lia)).
    rewrite len_make in Hgen by lia.
    unfold copy in H. rewrite Hlv, Hgen in H.
    replace (Z.min k (k + 4 - k mod 4)) with k in H by lia.
    rewrite (drop_ge (take (Z.to_nat k) buf)) in H
      by (unfold len in Hlv; lia).
    rewrite app_nil_r in H. injection H as <-. cbn [count out].
    exists k, (take (Z.to_nat k) gen). split; [reflexivity|].
    split; [lia|]. split; [|reflexivity]. apply len_take. lia.
  - rewrite Hlv in Hgen. injection H as <-. cbn [count out].
    exists (len gen), gen. rewrite Hgen. repeat split; lia.
Qed.

Lemma delivered_length s (buf : list byte) r :
  Read s buf = Ok r -> len (delivered r) = count r.
Proof.
  intros Hread.
  destruct (Read_shape s buf r Hread) as (n & pre & Hn & _ & Hpre & Hout).
  unfold delivered. rewrite Hn, Hout.
  rewrite take_app_length' by (unfold len in Hpre; lia). exact Hpre.
Qed.

(** X4. A call that returns, on any stream, writes only the bytes it counts:
    the count lies between 0 and [len(buf)], the buffer keeps its length
    and the bytes from index [n] on are the caller's own. *)
Theorem Read_writes_only_count s (buf : list byte) r :
  Read s buf = Ok r ->
  0 <= count r <= len buf /\
  len (out r) = len buf /\
  drop (Z.to_nat (count r)) (out r) = drop (Z.to_nat (count r)) buf /\
  len (delivered r) = count r.
Proof.
  intros Hread.
  destruct (Read_shape s buf r Hread) as (n & pre & Hn & Hrange & Hpre & Hout).
  assert (Hl : Z.to_nat n = base.length pre) by (unfold len in Hpre; lia).
  rewrite Hn, Hout.
  split; [exact Hrange|]. split; [|split].
  - rewrite len_app, Hpre. unfold len. rewrite length_drop.
    unfold len in *. lia.
  - rewrite drop_app_length' by exact Hl. reflexivity.
  - rewrite <- Hn. exact (delivered_length s buf r Hread).
Qed.

(** ** Progress and the end of the stream *)

Lemma undelivered_zero s :
  Inv s -> undelivered s <= 0 ->
  SineWave.remaining s = [] /\ SineWave.pos s = SineWave.length s.
Proof.
  intros [_ _ Hp _ _] Hu. unfold undelivered in Hu.
  pose proof (len_nonneg (SineWave.remaining s)) as Hr.
  split; [|lia].
  apply nil_length_inv. unfold len in *. lia.
Qed.

(** The error of a call, and what the call leaves, in the three cases. *)
Lemma Read_err s (buf : list byte) r :
  Inv s -> small buf ->
  Read s buf = Ok r ->
  (err r = None \/ err r = Some EOF) /\
  (err r = Some EOF <->
   SineWave.remaining s = [] /\
   (SineWave.pos s = SineWave.length s \/
    SineWave.length s - SineWave.pos s < len buf)) /\
  (err r = Some EOF ->
   SineWave.remaining (stream r) = [] /\
   SineWave.pos (stream r) = SineWave.length (stream r)).
Proof.
  intros Hinv Hbuf Hread.
  pose proof (len_nonneg buf) as Hbuf0.
  destruct (SineWave.remaining s) as [|b rem] eqn:Hrem.
  - destruct (Z.eq_dec (SineWave.pos s) (SineWave.length s)) as [Hpos|Hpos].
    + rewrite Read_exhausted in Hread by assumption.
      injection Hread as <-. cbn [err stream].
      split; [right; reflexivity|]. split; [|auto].
      split; [intros _; split; [reflexivity | left; exact Hpos]
             | reflexivity].
    + destruct (Read_fresh_shape s buf r Hinv Hrem Hpos Hbuf Hread)
        as (gen & Hgen & ->).
      destruct Hinv as [Hlen [ql Hql] Hp [qp Hqp] Hr].
      cbn [err stream advanced SineWave.remaining SineWave.pos
           SineWave.length].
      destruct (SineWave.pos s + len buf >? SineWave.length s) eqn:E.
      * rewrite Z.gtb_ltb in E. apply Z.ltb_lt in E.
        split; [right; reflexivity|]. split.
        { split; [intros _; split; [reflexivity | right; lia]
                 | reflexivity]. }
        intros _.
        assert (Hk : requested s buf = SineWave.length s - SineWave.pos s)
          by (unfold requested; lia).
        rewrite Hk in *.
        rewrite roundup4_aligned in * by (try lia; exists (ql - qp); lia).
        split; [|lia].
        apply drop_ge. unfold len in Hgen. lia.
      * rewrite Z.gtb_ltb in E. apply Z.ltb_ge in E.
        split; [left; reflexivity|]. split; [|discriminate].
        split; [discriminate|]. intros [_ [H|H]]; lia.
  - rewrite Read_pending in Hread by (rewrite Hrem; discriminate).
    injection Hread as <-. cbn [err].
    split; [left; reflexivity|]. split; [|discriminate].
    split; [discriminate|]. intros [H _]. discriminate.
Qed.

(** X5. A call with a non-empty buffer hands out at least one byte unless the
    stream is exhausted, and then it says so: it never returns 0 with a
    nil error. Its error is nil or [io.EOF]. *)
Theorem Read_never_stalls s (buf : list byte) r :
  Inv s -> small buf ->
  Read s buf = Ok r ->
  (err r = None \/ err r = Some EOF) /\
  (0 < len buf -> count r = 0 -> err r = Some EOF).
Proof.
  intros Hinv Hbuf Hread.
  destruct (Read_err s buf r Hinv Hbuf Hread) as (Hcases & Heof & _).
  destruct (Read_step s buf r Hinv Hbuf Hread)
    as (_ & _ & _ & _ & _ & Hcount & _ & Hprog).
  split; [exact Hcases|].
  intros Hpos H0.
  destruct (Z_lt_le_dec 0 (undelivered s)) as [Hu|Hu].
  - specialize (Hprog Hpos Hu). lia.
  - destruct (undelivered_zero s Hinv Hu) as [Hrem Hend].
    apply Heof. split; [exact Hrem | left; exact Hend].
Qed.

(** X6. [io.EOF] comes with the last bytes, or after them: a call returns it
    exactly when nothing is pending and the buffer is longer than what is
    left (or nothing is left); the call then hands out all that was left,
    and every later call returns 0 and [io.EOF]. *)
Theorem Read_eof_is_the_end s (buf : list byte) r :
  Inv s -> small buf ->
  Read s buf = Ok r ->
  (err r = Some EOF <->
   SineWave.remaining s = [] /\
   (SineWave.pos s = SineWave.length s \/
    SineWave.length s - SineWave.pos s < len buf)) /\
  (err r = Some EOF ->
   count r = undelivered s /\
   undelivered (stream r) = 0 /\
   forall buf' : list byte,
     Read (stream r) buf' = Ok (mkRead 0 (Some EOF) buf' (stream r))).
Proof.
  intros Hinv Hbuf Hread.
  destruct (Read_err s buf r Hinv Hbuf Hread) as (_ & Heof & Hend).
  destruct (Read_step s buf r Hinv Hbuf Hread)
    as (_ & _ & _ & _ & _ & _ & Hu & _).
  split; [exact Heof|]. intros He.
  destruct (Hend He) as [Hrem Hpos].
  assert (Hu0 : undelivered (stream r) = 0).
  { unfold undelivered. rewrite Hrem, Hpos. change (len []) with 0. lia. }
  split; [lia|]. split; [exact Hu0|].
  intros buf'. apply Read_exhausted; assumption.
Qed.

(** X7. A call with an empty buffer returns 0 and leaves the stream as it is;
    the error is [io.EOF] when the stream is exhausted and nil otherwise. *)
Theorem Read_empty_buffer s :
  Configured s -> Inv s ->
  Read s []
  = Ok (mkRead 0
          (if (len (SineWave.remaining s) =? 0)
              && (SineWave.pos s =? SineWave.length s)
           then Some EOF else None)
          [] s).
Proof.
  intros Hcfg Hinv.
  destruct (SineWave.remaining s) as [|b rem] eqn:Hrem.
  - change (len [] =? 0) with true. cbv iota beta. cbn [andb].
    destruct (Z.eqb_spec (SineWave.pos s) (SineWave.length s)) as [Hpos|Hpos].
    + apply Read_exhausted; assumption.
    + rewrite Read_fresh by (try assumption; vm_compute; reflexivity).
      destruct Hinv as [Hlen _ Hp _ _].
      assert (Hk : requested s [] = 0)
        by (unfold requested; change (len []) with 0; lia).
      assert (Hg : generated s [] = []).
      { apply nil_length_inv.
        pose proof (generated_length s [] Hcfg) as Hgl.
        rewrite Hk in Hgl. change (len []) with 0 in Hgl.
        change (roundup4 0) with 0 in Hgl.
        specialize (Hgl ltac:(lia)). unfold len in Hgl. lia. }
      rewrite Hk, Hg. change (len []) with 0. rewrite Z.add_0_r.
      replace (SineWave.pos s >? SineWave.length s) with false
        by (symmetry; rewrite Z.gtb_ltb; apply Z.ltb_ge; lia).
      change (roundup4 0) with 0. cbn [take drop Z.to_nat app].
      unfold advanced. rewrite Z.add_0_r, <- Hrem.
      destruct s; reflexivity.
  - rewrite Read_pending by (rewrite Hrem; discriminate).
    change (len []) with 0.
    pose proof (len_nonneg (SineWave.remaining s)) as Hr.
    replace (Z.min 0 (len (SineWave.remaining s))) with 0 by lia.
    replace (len (b :: rem) =? 0) with false
      by (symmetry; apply Z.eqb_neq; rewrite len_cons;
          pose proof (len_nonneg rem); lia).
    cbn [take drop Z.to_nat app andb]. unfold with_remaining.
    destruct s; reflexivity.
Qed.

(** ** The bytes of a whole run *)

Lemma ReadAll_results s bufs rs s' :
  Inv s -> Forall small bufs ->
  ReadAll s bufs = Ok (rs, s') ->
  Forall (fun r => (err r = None \/ err r = Some EOF) /\
                   len (delivered r) = count r) rs.
Proof.
  revert s rs. induction bufs as [|buf bufs IH]; intros s rs Hinv Hsmall Hrun.
  - injection Hrun as <- <-. constructor.
  - apply ReadAll_cons in Hrun as (r & rs' & Hread & Hrest & ->).
    apply Forall_cons in Hsmall as [Hbuf Hsmall].
    destruct (Read_step s buf r Hinv Hbuf Hread) as (Hinv' & _).
    constructor; [|exact (IH _ _ Hinv' Hsmall Hrest)].
    split; [apply (Read_err s buf r Hinv Hbuf Hread)
           | apply (delivered_length s buf r Hread)].
Qed.

Lemma ReadAll_eof s bufs rs s' :
  Inv s -> Forall small bufs ->
  ReadAll s bufs = Ok (rs, s') ->
  Exists (fun r => err r = Some EOF) rs ->
  undelivered s' = 0.
Proof.
  revert s rs. induction bufs as [|buf bufs IH];
    intros s rs Hinv Hsmall Hrun Hex.
  - injection Hrun as <- <-. apply Exists_nil in Hex. contradiction.
  - apply ReadAll_cons in Hrun as (r & rs' & Hread & Hrest & ->).
    apply Forall_cons in Hsmall as [Hbuf Hsmall].
    destruct (Read_step s buf r Hinv Hbuf Hread) as (Hinv' & _).
    apply Exists_cons in Hex as [He|Hex].
    + destruct (Read_err s buf r Hinv Hbuf Hread) as (_ & _ & Hend).
      destruct (Hend He) as [Hrem Hpos].
      rewrite ReadAll_exhausted in Hrest by assumption.
      injection Hrest as _ <-.
      unfold undelivered. rewrite Hrem, Hpos. change (len []) with 0. lia.
    + exact (IH _ _ Hinv' Hsmall Hrest Hex).
Qed.

Lemma total_delivered rs :
  Forall (fun r => (err r = None \/ err r = Some EOF) /\
                   len (delivered r) = count r) rs ->
  len (concat (map delivered rs)) = total rs.
Proof.
  induction 1 as [|r rs [_ Hr] _ IH]; [reflexivity|].
  cbn [map concat total foldr]. rewrite len_app, Hr.
  unfold total in IH. rewrite IH. reflexivity.
Qed.

(** X8. A stream made by [NewSineWave] hands out [totalLength] bytes and no
    more, whatever the sizes of the buffers: the counts of a run of calls
    add up to [totalLength] less what is still to come, [io.EOF] is not
    returned before the last byte is out, and once it has been returned
    the counts add up to [totalLength]. *)
Theorem ReadAll_delivers_totalLength
    freq duration channelCount format bps bufs s rs s' :
  formatByteLength format = Ok bps ->
  0 <= channelCount * bps * Flag.sampleRate flags * duration < 2 ^ 63 ->
  Forall small bufs ->
  NewSineWave freq duration channelCount format = Ok s ->
  ReadAll s bufs = Ok (rs, s') ->
  len (concat (map delivered rs)) = total rs /\
  total rs = SineWave.length s - undelivered s' /\
  0 <= undelivered s' /\
  0 <= total rs <= SineWave.length s /\
  (total rs < SineWave.length s -> Forall (fun r => err r = None) rs) /\
  (Exists (fun r => err r = Some EOF) rs -> total rs = SineWave.length s).
Proof.
  intros Hbps Hprod Hsmall Hnew Hrun.
  rewrite (NewSineWave_spec _ _ _ _ _ Hbps) in Hnew. injection Hnew as <-.
  pose proof (NewSineWave_Inv freq duration channelCount format bps
                Hbps Hprod) as Hinv.
  set (s := SineWave.mk _ _ _ _ _ _) in *.
  destruct (ReadAll_step s bufs rs s' Hinv Hsmall Hrun)
    as (Hinv' & _ & _ & _ & Hu).
  pose proof (ReadAll_results s bufs rs s' Hinv Hsmall Hrun) as Hres.
  assert (Hs : undelivered s = SineWave.length s).
  { unfold undelivered, s. cbn [SineWave.length SineWave.pos
      SineWave.remaining]. change (len []) with 0. lia. }
  assert (Hu' : 0 <= undelivered s').
  { destruct Hinv' as [_ _ Hp _ _]. unfold undelivered.
    pose proof (len_nonneg (SineWave.remaining s')). lia. }
  assert (Hlen : 0 <= SineWave.length s) by (destruct Hinv as [Hl _ _ _ _]; lia).
  assert (Hpos : 0 <= total rs).
  { clear - Hres. induction Hres as [|r rs [_ Hr] _ IH]; [cbn; lia|].
    cbn [total foldr]. unfold total in IH.
    pose proof (len_nonneg (delivered r)). lia. }
  split; [exact (total_delivered rs Hres)|].
  split; [lia|]. split; [exact Hu'|]. split; [lia|]. split.
  - intros Hlt. apply Forall_forall. intros r Hin.
    rewrite Forall_forall in Hres. destruct (Hres r Hin) as [[Hn|He] _];
      [exact Hn|].
    assert (Hex : Exists (fun r => err r = Some EOF) rs)
      by (apply Exists_exists; exists r; split; assumption).
    pose proof (ReadAll_eof s bufs rs s' Hinv Hsmall Hrun Hex). lia.
  - intros Hex.
    pose proof (ReadAll_eof s bufs rs s' Hinv Hsmall Hrun Hex). lia.
Qed.

(** ** The byte order of a slot *)



(** ** Keys and notes *)

Lemma string_of_rune_one r a :
  string_of_rune r = String a EmptyString ->
  0 <= r < 128 /\ a = char_of_Z r.
Proof.
  unfold string_of_rune.
  destruct (_ || _) eqn:E1; [discriminate|].
  destruct (r <? 128) eqn:E2.
  - intros [= <-]. split; [|reflexivity].
    apply orb_false_iff in E1 as [E1 _].
    apply orb_false_iff in E1 as [E1 _].
    apply Z.ltb_ge in E1. apply Z.ltb_lt in E2. lia.
  - destruct (r <? 2048); [discriminate|].
    destruct (r <? 65536); discriminate.
Qed.

Lemma rune_of_char r a :
  0 <= r < 128 -> a = char_of_Z r -> r = Z.of_N (N_of_ascii a).
Proof.
  intros Hr ->. unfold char_of_Z.
  rewrite N_ascii_embedding by lia. lia.
Qed.

(** The keys of [noteFrequencies] are the strings of the runes of
    [noteRunes]. *)
Lemma note_key r :
  is_Some (noteFrequencies !! string_of_rune r) <-> r ∈ noteRunes.
Proof.
  split.
  - intros [f Hf]. unfold noteFrequencies in Hf.
    apply elem_of_list_to_map_2 in Hf. unfold noteTable in Hf.
    repeat (apply elem_of_cons in Hf as [Hf|Hf];
            [injection Hf as Hk _;
             apply string_of_rune_one in Hk as [Hr Ha];
             apply (rune_of_char r _ Hr) in Ha; vm_compute in Ha; subst r;
             apply (bool_decide_unpack _); vm_compute; exact I|]).
    apply elem_of_nil in Hf. contradiction.
  - intros Hr. unfold noteRunes in Hr.
    repeat (apply elem_of_cons in Hr as [->|Hr];
            [vm_compute; eexists; reflexivity|]).
    apply elem_of_nil in Hr. contradiction.
Qed.

(** ** [Run] *)

(** X10. [Run] does nothing for a rune that is no key of [noteFrequencies]
    (an upper-case letter, a rune above U+007F, the rune 0 of a special
    key ...): no player, no sleep, [NoteCount] as it was, a nil error. *)
Theorem Run_ignores_other_keys key c op w :
  key ∉ noteRunes ->
  Run key c op w = Ok (None, w).
Proof.
  intros Hkey. unfold Run.
  destruct (noteFrequencies !! string_of_rune key) as [freq|] eqn:E;
    [|reflexivity].
  exfalso. apply Hkey, note_key. rewrite E. eauto.
Qed.

Lemma Run_note key c op w bps :
  key ∈ noteRunes ->
  formatByteLength (oto.NewContextOptions.Format op) = Ok bps ->
  exists freq,
    noteFrequencies !! string_of_rune key = Some freq /\
    let s := SineWave.mk freq
               (newLength (oto.NewContextOptions.ChannelCount op) bps
                  (3 * Second))
               0 (oto.NewContextOptions.ChannelCount op)
               (oto.NewContextOptions.Format op) [] in
    let p := base.length (effects w) in
    let v := (1 / float64_of_int (NoteCount w))%float in
    Run key c op w
    = Ok (None,
          mkWorld (Int64.sub (NoteCount w) 1) (backend w)
            (effects w ++
             [NewPlayer c s; Play p;
              SetVolume p v; Sleep Second;
              SetVolume p (v / 2); Sleep Second;
              SetVolume p (v / 3); Sleep 50000;
              SetVolume p 0])).
Proof.
  intros Hkey Hbps. apply note_key in Hkey as [freq Hfreq].
  exists freq. split; [exact Hfreq|]. cbv zeta.
  unfold Run, play. rewrite Hfreq.
  rewrite (NewSineWave_spec _ _ _ _ _ Hbps). cbn [bind].
  unfold say. cbn [NoteCount backend effects].
  rewrite <- app_assoc. reflexivity.
Qed.

(** X11. For a key of [noteFrequencies] and a valid format, [Run] starts one
    player on the stream [NewSineWave(freq, 3*time.Second,
    op.ChannelCount, op.Format)] of the key's frequency, sets its volume
    to [1/NoteCount], to a half of that after one second, to a third
    after another second and to 0 after 50 more microseconds (the stream
    lasts 3 seconds), takes 1 off [NoteCount] and returns nil. With
    [NoteCount] at 0 the first volume is [1/0], positive infinity. *)
Theorem Run_plays_note key c op w bps :
  key ∈ noteRunes ->
  formatByteLength (oto.NewContextOptions.Format op) = Ok bps ->
  exists freq,
    noteFrequencies !! string_of_rune key = Some freq /\
    let s := SineWave.mk freq
               (newLength (oto.NewContextOptions.ChannelCount op) bps
                  (3 * Second))
               0 (oto.NewContextOptions.ChannelCount op)
               (oto.NewContextOptions.Format op) [] in
    let p := base.length (effects w) in
    let v := (1 / float64_of_int (NoteCount w))%float in
    Run key c op w
    = Ok (None,
          mkWorld (Int64.sub (NoteCount w) 1) (backend w)
            (effects w ++
             [NewPlayer c s; Play p;
              SetVolume p v; Sleep Second;
              SetVolume p (v / 2); Sleep Second;
              SetVolume p (v / 3); Sleep 50000;
              SetVolume p 0])) /\
    (NoteCount w = 0 -> v = infinity).
Proof.
  intros Hkey Hbps.
  destruct (Run_note key c op w bps Hkey Hbps) as (freq & Hfreq & Hrun).
  exists freq. split; [exact Hfreq|]. cbv zeta. split; [exact Hrun|].
  intros ->. reflexivity.
Qed.

(** What [InitAudioContext] returns with a nil error. *)
Lemma InitAudioContext_ok trace c op trace' :
  InitAudioContext trace = (c, op, None, trace') ->
  exists c0 f bps,
    c = Some c0 /\
    op = Some (oto.NewContextOptions.mk (Flag.sampleRate flags)
                 (Flag.channelCount flags) f) /\
    formatByteLength f = Ok bps /\
    NewContext (oto.NewContextOptions.mk (Flag.sampleRate flags)
                  (Flag.channelCount flags) f) = inl c0 /\
    trace' = NewContextCalled
               (oto.NewContextOptions.mk (Flag.sampleRate flags)
                  (Flag.channelCount flags) f) (inl c0) :: trace.
Proof.
  unfold InitAudioContext.
  destruct (String.eqb (Flag.format flags) "f32le");
    [|destruct (String.eqb (Flag.format flags) "u8");
      [|destruct (String.eqb (Flag.format flags) "s16le");
        [|discriminate]]];
    (destruct (NewContext _) as [c0|e] eqn:E; [|discriminate]);
    intros [= <- <- <-]; eexists c0, _, _;
    (split; [reflexivity|]); (split; [reflexivity|]);
    (split; [reflexivity|]); (split; [exact E | reflexivity]).
Qed.

Lemma three_seconds a : a * (3 * Second) / (Second * 4) = 3 * a / 4.
Proof.
  replace (a * (3 * Second)) with (3 * a * Second) by lia.
  rewrite <- Z.div_div by (unfold Second; lia).
  rewrite Z.div_mul by (unfold Second; lia). reflexivity.
Qed.

(** X12. The streams of the program are well formed. With a positive channel
    count and a sample rate whose product stays in range, the options
    that [InitAudioContext] returns make [Run] play, for every key of
    [noteFrequencies], a stream of the configured channel count that
    satisfies the invariant of [Read], is
    [3 * channelCount * bytesPerSample * sampleRate] bytes long (rounded
    down to a multiple of 4), and on which no run of [Read] calls
    panics. *)
Theorem Run_stream_well_formed key w c op trace' :
  0 < Flag.channelCount flags < 2 ^ 32 ->
  0 <= Flag.sampleRate flags ->
  12 * Flag.channelCount flags * Flag.sampleRate flags * Second < 2 ^ 63 ->
  InitAudioContext (backend w) = (Some c, Some op, None, trace') ->
  key ∈ noteRunes ->
  exists freq bps s fx,
    noteFrequencies !! string_of_rune key = Some freq /\
    formatByteLength (oto.NewContextOptions.Format op) = Ok bps /\
    Run key c op w
    = Ok (None, mkWorld (Int64.sub (NoteCount w) 1) (backend w)
                  (effects w ++ NewPlayer c s :: fx)) /\
    SineWave.freq s = freq /\
    SineWave.length s
    = 4 * (3 * (Flag.channelCount flags * bps * Flag.sampleRate flags) / 4) /\
    SineWave.pos s = 0 /\ SineWave.remaining s = [] /\
    Configured s /\ Inv s /\
    forall bufs, Forall small bufs ->
                 exists rs s', ReadAll s bufs = Ok (rs, s').
Proof.
  intros Hcc Hsr Hprod Hinit Hkey.
  apply InitAudioContext_ok in Hinit
    as (c0 & f & bps & [= <-] & [= ->] & Hbps & _ & _).
  destruct (Run_note key c
              (oto.NewContextOptions.mk (Flag.sampleRate flags)
                 (Flag.channelCount flags) f) w bps Hkey Hbps)
    as (freq & Hfreq & Hrun).
  cbv zeta in Hrun.
  cbn [oto.NewContextOptions.ChannelCount oto.NewContextOptions.Format]
    in Hrun |- *.
  assert (Hb : bps = 1 \/ bps = 2 \/ bps = 4)
    by (destruct f; inversion Hbps; auto).
  assert (Hrange : 0 <= Flag.channelCount flags * bps * Flag.sampleRate flags
                        * (3 * Second) < 2 ^ 63)
    by (unfold Second in *; nia).
  eexists freq, bps, _, _. split; [exact Hfreq|]. split; [exact Hbps|].
  split; [exact Hrun|].
  cbn [SineWave.freq SineWave.length SineWave.pos SineWave.remaining].
  split; [reflexivity|]. split.
  { rewrite newLength_nonneg by exact Hrange.
    unfold totalLength_spec. rewrite three_seconds. reflexivity. }
  split; [reflexivity|]. split; [reflexivity|].
  assert (Hcfg : Configured
            (SineWave.mk freq
               (newLength (Flag.channelCount flags) bps (3 * Second)) 0
               (Flag.channelCount flags) f [])).
  { split; cbn [SineWave.format SineWave.channelCount];
      [intros code ->; discriminate | reflexivity | exact Hcc]. }
  pose proof (NewSineWave_Inv freq (3 * Second) (Flag.channelCount flags)
                f bps Hbps Hrange) as Hinv.
  split; [exact Hcfg|]. split; [exact Hinv|].
  intros bufs Hsmall. apply ReadAll_total; assumption.
Qed.

(** ** [main] *)

Lemma wrap_add_l a b : Int64.wrap (Int64.wrap a + b) = Int64.wrap (a + b).
Proof.
  unfold Int64.wrap, Int64.modulus. f_equal.
  replace ((a + 2 ^ 63) mod 2 ^ 64 - 2 ^ 63 + b + 2 ^ 63)
    with ((a + 2 ^ 63) mod 2 ^ 64 + b) by lia.
  rewrite Zplus_mod_idemp_l. f_equal. lia.
Qed.

(** [NoteCount] after the loop has taken the events [pre]. *)
Lemma bumped_once (pre : list keyboard.KeyEvent) n :
  Int64.add (foldl (fun n _ => Int64.add n 1) n pre) 1
  = Int64.wrap (n + len pre + 1).
Proof.
  revert n. induction pre as [|e pre IH]; intros n.
  - cbn [foldl]. unfold Int64.add. change (len []) with 0. f_equal. lia.
  - cbn [foldl]. rewrite IH. unfold Int64.add. rewrite len_cons.
    rewrite <- Z.add_assoc, wrap_add_l. f_equal. lia.
Qed.

Lemma main_start spawn keysEvents w c op trace' :
  InitAudioContext (backend w) = (Some c, Some op, None, trace') ->
  main spawn (inl keysEvents) w
  = (r <- mainLoop (spawn c op) keysEvents
            (mkWorld (NoteCount w) trace'
               (effects w ++ [GetKeys 200; Println "Press ESC to quit"])) ;;
     match fst r with
     | Returned => Ok (Returned, say (snd r) [Close])
     | Waiting => Ok r
     end).
Proof. intros H. unfold main. rewrite H. reflexivity. Qed.

Lemma mainLoop_started c op pre rest w :
  Forall passes pre ->
  mainLoop (started c op) (pre ++ rest) w
  = mainLoop (started c op) rest
      (mkWorld (foldl (fun n _ => Int64.add n 1) (NoteCount w) pre)
         (backend w)
         (effects w ++
          flat_map (fun e => [Pressed (keyboard.Rune e);
                              Go (keyboard.Rune e) c op]) pre)).
Proof.
  intros Hpre. revert w.
  induction Hpre as [|e pre [Herr Hkey] _ IH]; intros w.
  - cbn [foldl flat_map app]. rewrite app_nil_r. destruct w; reflexivity.
  - cbn [app mainLoop]. rewrite Herr.
    replace (keyboard.Key e =? KeyEsc) with false
      by (symmetry; apply Z.eqb_neq; exact Hkey).
    unfold started at 1. cbn [bind]. rewrite IH.
    unfold say. cbn [NoteCount backend effects foldl flat_map app].
    rewrite <- !app_assoc. reflexivity.
Qed.

(** X14. [main] runs until Esc. When the audio context is there and the
    keyboard delivers the events [pre], an Esc event and then [post],
    with no error and no Esc in [pre], [main] prints each rune of [pre]
    and starts [Run] on it, in order, prints the rune of the Esc event,
    closes the keyboard and returns; [NoteCount] has gone up by one for
    every event taken, the Esc event too, and [post] is not looked at.
    Without an Esc event [main] does not return. *)
Theorem main_runs_until_esc pre esc post w c op trace' :
  InitAudioContext (backend w) = (Some c, Some op, None, trace') ->
  Forall passes pre ->
  keyboard.Err esc = None -> keyboard.Key esc = KeyEsc ->
  main started (inl (pre ++ esc :: post)) w
  = Ok (Returned,
        mkWorld (Int64.wrap (NoteCount w + len pre + 1)) trace'
          (effects w ++ [GetKeys 200; Println "Press ESC to quit"]
           ++ flat_map (fun e => [Pressed (keyboard.Rune e);
                                  Go (keyboard.Rune e) c op]) pre
           ++ [Pressed (keyboard.Rune esc); Close])) /\
  exists n,
    main started (inl pre) w
    = Ok (Waiting,
          mkWorld n trace'
            (effects w ++ [GetKeys 200; Println "Press ESC to quit"]
             ++ flat_map (fun e => [Pressed (keyboard.Rune e);
                                    Go (keyboard.Rune e) c op]) pre)).
Proof.
  intros Hinit Hpre Herr Hesc. split.
  - rewrite (main_start _ _ _ _ _ _ Hinit).
    rewrite (mainLoop_started c op pre (esc :: post) _ Hpre).
    cbn [mainLoop NoteCount backend effects]. rewrite Herr.
    replace (keyboard.Key esc =? KeyEsc) with true
      by (symmetry; apply Z.eqb_eq; exact Hesc).
    cbn [bind fst snd]. unfold say. cbn [NoteCount backend effects].
    rewrite bumped_once. rewrite <- !app_assoc. reflexivity.
  - eexists. rewrite (main_start _ _ _ _ _ _ Hinit).
    rewrite <- (app_nil_r pre) at 1.
    rewrite (mainLoop_started c op pre [] _ Hpre).
    cbn [mainLoop NoteCount backend effects bind fst].
    rewrite <- !app_assoc. reflexivity.
Qed.

(** X15. A key event that carries an error makes [main] panic, whatever its
    key, when the loop reaches it. *)
Theorem main_panics_on_event_error pre bad post msg w c op trace' :
  InitAudioContext (backend w) = (Some c, Some op, None, trace') ->
  Forall passes pre ->
  keyboard.Err bad = Some msg ->
  main started (inl (pre ++ bad :: post)) w = Panic.
Proof.
  intros Hinit Hpre Herr.
  rewrite (main_start _ _ _ _ _ _ Hinit).
  rewrite (mainLoop_started c op pre (bad :: post) _ Hpre).
  cbn [mainLoop]. rewrite Herr. reflexivity.
Qed.

(** ** One key at a time *)

Lemma mainLoop_app spawn events rest w w1 :
  mainLoop spawn events w = Ok (Waiting, w1) ->
  mainLoop spawn (events ++ rest) w = mainLoop spawn rest w1.
Proof.
  revert w. induction events as [|e events IH]; intros w.
  - intros [= <-]. reflexivity.
  - cbn [app mainLoop]. destruct (keyboard.Err e); [discriminate|].
    destruct (keyboard.Key e =? KeyEsc); [discriminate|].
    destruct (spawn _ _) as [w2|]; [|discriminate].
    cbn [bind]. apply IH.
Qed.

Lemma strays_cons e events :
  strays (e :: events)
  = (if decide (keyboard.Rune e ∈ noteRunes) then 0 else 1) + strays events.
Proof.
  unfold strays. destruct (decide (keyboard.Rune e ∈ noteRunes)) as [Hin|Hout].
  - rewrite filter_cons_False by (intros H; exact (H Hin)). reflexivity.
  - rewrite filter_cons_True by exact Hout. rewrite len_cons. reflexivity.
Qed.

Lemma strays_range events : 0 <= strays events <= len events.
Proof.
  induction events as [|e events IH]; [vm_compute; split; discriminate|].
  rewrite strays_cons, len_cons. destruct (decide _); lia.
Qed.

(** One turn of the loop whose goroutine runs to its end. *)
Lemma finished_turn c op bps e w :
  formatByteLength (oto.NewContextOptions.Format op) = Ok bps ->
  - 2 ^ 63 <= NoteCount w < 2 ^ 63 - 1 ->
  let w1 := mkWorld (NoteCount w + 1) (backend w)
              (effects w ++ [Pressed (keyboard.Rune e);
                             Go (keyboard.Rune e) c op]) in
  (keyboard.Rune e ∉ noteRunes ->
   finished c op (keyboard.Rune e)
     (say (mkWorld (Int64.add (NoteCount w) 1) (backend w) (effects w))
        [Pressed (keyboard.Rune e)])
   = Ok w1) /\
  (keyboard.Rune e ∈ noteRunes ->
   exists freq,
     noteFrequencies !! string_of_rune (keyboard.Rune e) = Some freq /\
     let s := SineWave.mk freq
                (newLength (oto.NewContextOptions.ChannelCount op) bps
                   (3 * Second))
                0 (oto.NewContextOptions.ChannelCount op)
                (oto.NewContextOptions.Format op) [] in
     let p := base.length (effects w1) in
     let v := (1 / float64_of_int (NoteCount w + 1))%float in
     finished c op (keyboard.Rune e)
       (say (mkWorld (Int64.add (NoteCount w) 1) (backend w) (effects w))
          [Pressed (keyboard.Rune e)])
     = Ok (mkWorld (NoteCount w) (backend w)
             (effects w1 ++
              [NewPlayer c s; Play p;
               SetVolume p v; Sleep Second;
               SetVolume p (v / 2); Sleep Second;
               SetVolume p (v / 3); Sleep 50000;
               SetVolume p 0]))).
Proof.
  intros Hbps Hn w1.
  assert (Hadd : Int64.add (NoteCount w) 1 = NoteCount w + 1)
    by (unfold Int64.add; apply wrap_small; lia).
  assert (Hw : say (say (mkWorld (Int64.add (NoteCount w) 1) (backend w)
                           (effects w)) [Pressed (keyboard.Rune e)])
                 [Go (keyboard.Rune e) c op] = w1).
  { unfold say, w1. cbn [NoteCount backend effects].
    rewrite Hadd, <- app_assoc. reflexivity. }
  split.
  - intros Hout. unfold finished. rewrite Hw. unfold Run.
    destruct (noteFrequencies !! string_of_rune (keyboard.Rune e))
      as [freq|] eqn:E; [|reflexivity].
    exfalso. apply Hout, note_key. rewrite E. eauto.
  - intros Hin. unfold finished. rewrite Hw.
    destruct (Run_note _ c op w1 bps Hin Hbps) as (freq & Hfreq & Hrun).
    exists freq. split; [exact Hfreq|]. cbv zeta in Hrun |- *.
    rewrite Hrun. cbn [bind fst snd]. cbn [NoteCount backend w1].
    unfold Int64.sub. rewrite wrap_small by lia.
    replace (NoteCount w + 1 - 1) with (NoteCount w) by lia. reflexivity.
Qed.

Lemma mainLoop_finished c op bps events w :
  formatByteLength (oto.NewContextOptions.Format op) = Ok bps ->
  Forall passes events ->
  0 <= NoteCount w -> NoteCount w + len events < 2 ^ 63 ->
  exists fx,
    mainLoop (finished c op) events w
    = Ok (Waiting,
          mkWorld (NoteCount w + strays events) (backend w)
            (effects w ++ fx)).
Proof.
  intros Hbps Hev. revert w.
  induction Hev as [|e events [Herr Hkey] _ IH]; intros w Hn0 Hn.
  - exists []. cbn [mainLoop]. change (strays []) with 0.
    rewrite Z.add_0_r, app_nil_r. destruct w; reflexivity.
  - rewrite len_cons in Hn. pose proof (len_nonneg events) as Hl.
    cbn [mainLoop]. rewrite Herr.
    replace (keyboard.Key e =? KeyEsc) with false
      by (symmetry; apply Z.eqb_neq; exact Hkey).
    destruct (finished_turn c op bps e w Hbps ltac:(lia)) as [Hout Hin].
    rewrite strays_cons.
    destruct (decide (keyboard.Rune e ∈ noteRunes)) as [Hnote|Hstray].
    + destruct (Hin Hnote) as (freq & _ & Hturn). cbv zeta in Hturn.
      rewrite Hturn. cbn [bind].
      match goal with
      | |- context [mainLoop _ events ?w2] =>
          destruct (IH w2 ltac:(cbn; lia) ltac:(cbn; lia)) as (fx & Hrest)
      end.
      rewrite Hrest. cbn [NoteCount backend effects].
      eexists. rewrite <- !app_assoc. rewrite Z.add_0_l. reflexivity.
    + rewrite (Hout Hstray). cbn [bind].
      match goal with
      | |- context [mainLoop _ events ?w2] =>
          destruct (IH w2 ltac:(cbn; lia) ltac:(cbn; lia)) as (fx & Hrest)
      end.
      rewrite Hrest. cbn [NoteCount backend effects].
      eexists. rewrite <- !app_assoc. rewrite Z.add_assoc. reflexivity.
Qed.

(** X13. [NoteCount] leaks. [main] adds one to it for every key event and
    [Run] takes one off only for a key of [noteFrequencies]. When each
    note is over before the next key event (no two goroutines at a
    time), [NoteCount] ends a run of events higher by the number of the
    events that are no note keys, and a note played after them starts at
    the volume [1/(NoteCount + strays + 1)]: every stray key makes all
    later notes quieter. *)
Theorem stray_keys_lower_the_volume events note w c op bps :
  formatByteLength (oto.NewContextOptions.Format op) = Ok bps ->
  Forall passes events -> passes note ->
  keyboard.Rune note ∈ noteRunes ->
  0 <= NoteCount w -> NoteCount w + len events + 1 < 2 ^ 63 ->
  exists fx freq,
    noteFrequencies !! string_of_rune (keyboard.Rune note) = Some freq /\
    let n := NoteCount w + strays events in
    mainLoop (finished c op) events w
    = Ok (Waiting, mkWorld n (backend w) (effects w ++ fx)) /\
    let s := SineWave.mk freq
               (newLength (oto.NewContextOptions.ChannelCount op) bps
                  (3 * Second))
               0 (oto.NewContextOptions.ChannelCount op)
               (oto.NewContextOptions.Format op) [] in
    let p := (base.length (effects w ++ fx) + 2)%nat in
    let v := (1 / float64_of_int (n + 1))%float in
    mainLoop (finished c op) (events ++ [note]) w
    = Ok (Waiting,
          mkWorld n (backend w)
            (effects w ++ fx ++
             [Pressed (keyboard.Rune note); Go (keyboard.Rune note) c op;
              NewPlayer c s; Play p;
              SetVolume p v; Sleep Second;
              SetVolume p (v / 2); Sleep Second;
              SetVolume p (v / 3); Sleep 50000;
              SetVolume p 0])).
Proof.
  intros Hbps Hev [Herr Hkey] Hnote Hn0 Hn.
  pose proof (strays_range events) as Hs.
  destruct (mainLoop_finished c op bps events w Hbps Hev Hn0 ltac:(lia))
    as (fx & Hrun).
  set (w1 := mkWorld (NoteCount w + strays events) (backend w)
               (effects w ++ fx)) in *.
  destruct (finished_turn c op bps note w1 Hbps ltac:(cbn; lia))
    as [_ Hin].
  destruct (Hin Hnote) as (freq & Hfreq & Hturn). cbv zeta in Hturn.
  exists fx, freq. split; [exact Hfreq|]. cbv zeta. split; [exact Hrun|].
  rewrite (mainLoop_app _ events [note] w w1 Hrun).
  cbn [mainLoop]. rewrite Herr.
  replace (keyboard.Key note =? KeyEsc) with false
    by (symmetry; apply Z.eqb_neq; exact Hkey).
  rewrite Hturn. cbn [bind NoteCount backend effects w1].
  rewrite !length_app. cbn [base.length]. rewrite <- !app_assoc.
  reflexivity.
Qed.

(** ** When [Read] panics *)

Lemma for_from_total {St} (P : St -> Prop) (body : Z -> St -> result St) :
  forall (k : nat) i st,
    (forall j st, i <= j < i + Z.of_nat k -> P st ->
                  exists st', body j st = Ok st' /\ P st') ->
    P st ->
    exists st', for_from k i body st = Ok st' /\ P st'.
Proof.
  induction k as [|k IH]; intros i st Hbody HP.
  - exists st. split; [reflexivity | exact HP].
  - cbn [for_from].
    destruct (Hbody i st ltac:(lia) HP) as (st1 & H1 & HP1).
    rewrite H1. cbn [bind]. apply IH; [|exact HP1].
    intros j st0 Hj. apply Hbody. lia.
Qed.

Lemma for_from_visits {St} (P : St -> Prop) (body : Z -> St -> result St) :
  (forall i st st', P st -> body i st = Ok st' -> P st') ->
  forall (k : nat) i st st',
    P st -> for_from k i body st = Ok st' ->
    forall j : nat, (j < k)%nat ->
      exists s s', P s /\ body (i + Z.of_nat j) s = Ok s'.
Proof.
  intros Hpres. induction k as [|k IH]; intros i st st' HP Hrun j Hj; [lia|].
  cbn [for_from] in Hrun. apply bind_Ok in Hrun as (st1 & H1 & Hrest).
  destruct j as [|j].
  - exists st, st1. rewrite Z.add_0_r. split; assumption.
  - destruct (IH (i + 1) st1 st' (Hpres _ _ _ HP H1) Hrest j ltac:(lia))
      as (s0 & s' & Hs & Hb).
    exists s0, s'. split; [exact Hs|].
    replace (i + Z.of_nat (S j)) with (i + 1 + Z.of_nat j) by lia. exact Hb.
Qed.

Lemma store_total (buf : list byte) idx b :
  0 <= idx < len buf ->
  exists buf', store buf idx b = Ok buf' /\ len buf' = len buf.
Proof.
  intros Hidx. unfold store.
  replace ((0 <=? idx) && (idx <? len buf)) with true
    by (symmetry; apply andb_true_iff; split;
        [apply Z.leb_le | apply Z.ltb_lt]; lia).
  eexists. split; [reflexivity|]. unfold len. rewrite length_insert.
  reflexivity.
Qed.

Lemma store_range (buf buf' : list byte) idx b :
  store buf idx b = Ok buf' -> 0 <= idx < len buf /\ len buf' = len buf.
Proof.
  intros H. pose proof (store_length _ _ _ _ H) as Hl.
  unfold store in H. destruct (_ && _) eqn:E; [|discriminate].
  apply andb_true_iff in E as [E1 E2].
  apply Z.leb_le in E1. apply Z.ltb_lt in E2. unfold len in *. split; lia.
Qed.

Lemma put_total format bps length num i p ch (buf : list byte) :
  formatByteLength format = Ok bps ->
  0 <= num * i + bps * ch -> num * i + bps * ch + bps <= len buf ->
  exists buf', put format length num i p ch buf = Ok buf' /\
               len buf' = len buf.
Proof.
  intros Hbps Hlo Hhi.
  destruct format; inversion Hbps; subst bps; unfold put.
  - unfold put_f32.
    destruct (store_total buf (num * i + 4 * ch)
                (byte_of_Z (Float32bits_float32 (sample length p)))
                ltac:(lia)) as (b1 & -> & H1). cbn [bind].
    destruct (store_total b1 (num * i + 1 + 4 * ch)
                (byte_of_Z (Z.shiftr (Float32bits_float32 (sample length p)) 8))
                ltac:(lia)) as (b2 & -> & H2). cbn [bind].
    destruct (store_total b2 (num * i + 2 + 4 * ch)
                (byte_of_Z (Z.shiftr (Float32bits_float32 (sample length p)) 16))
                ltac:(lia)) as (b3 & -> & H3). cbn [bind].
    destruct (store_total b3 (num * i + 3 + 4 * ch)
                (byte_of_Z (Z.shiftr (Float32bits_float32 (sample length p)) 24))
                ltac:(lia)) as (b4 & -> & H4).
    exists b4. split; [reflexivity | lia].
  - unfold put_u8. apply store_total. lia.
  - unfold put_s16.
    destruct (store_total buf (num * i + 2 * ch)
                (byte_of_Z (int16_of_float (sample length p * 32767)))
                ltac:(lia)) as (b1 & -> & H1). cbn [bind].
    destruct (store_total b1 (num * i + 1 + 2 * ch)
                (byte_of_Z (Z.shiftr
                              (int16_of_float (sample length p * 32767)) 8))
                ltac:(lia)) as (b2 & -> & H2).
    exists b2. split; [reflexivity | lia].
Qed.

Lemma put_range format bps length num i p ch (buf buf' : list byte) :
  formatByteLength format = Ok bps ->
  put format length num i p ch buf = Ok buf' ->
  num * i + bps * ch + bps <= len buf /\ len buf' = len buf.
Proof.
  intros Hbps.
  destruct format; inversion Hbps; subst bps; unfold put.
  - unfold put_f32. intros H.
    apply bind_Ok in H as (b1 & H1 & H). apply store_range in H1.
    apply bind_Ok in H as (b2 & H2 & H). apply store_range in H2.
    apply bind_Ok in H as (b3 & H3 & H). apply store_range in H3.
    apply store_range in H. lia.
  - unfold put_u8. intros H. apply store_range in H. lia.
  - unfold put_s16. intros H.
    apply bind_Ok in H as (b1 & H1 & H). apply store_range in H1.
    apply store_range in H. lia.
Qed.

(** The frame loop in terms of [put]. *)
Lemma generate_put format bps length num p (buf : list byte) :
  formatByteLength format = Ok bps ->
  generate format length num p buf
  = (st <- for_lt (Z.quot (len buf) num)
             (fun i st =>
                buf <- for_lt (Flag.channelCount flags)
                         (put format length num i (snd st)) (fst st) ;;
                Ok (buf, Int64.add (snd st) 1))
             (buf, p) ;;
     Ok (fst st)).
Proof.
  intros Hbps. unfold generate.
  assert (Hext : forall (f g : Z -> list byte * Z -> result (list byte * Z)),
    (forall i st, f i st = g i st) ->
    forall (k : nat) i st, for_from k i f st = for_from k i g st).
  { intros f g Hfg k. induction k as [|k IH]; intros i st; [reflexivity|].
    cbn [for_from]. rewrite Hfg. destruct (g i st); [|reflexivity].
    cbn [bind]. apply IH. }
  destruct format; inversion Hbps; unfold for_lt; f_equal;
    apply Hext; intros i [b q]; reflexivity.
Qed.

Lemma generate_total format bps length num p (buf : list byte) :
  formatByteLength format = Ok bps ->
  0 < num -> 0 <= Flag.channelCount flags ->
  len buf < num \/ bps * Flag.channelCount flags <= num + len buf mod num ->
  exists buf', generate format length num p buf = Ok buf'.
Proof.
  intros Hbps Hnum HF Hfit.
  pose proof (len_nonneg buf) as Hbuf.
  assert (Hb : 0 < bps) by (destruct format; inversion Hbps; lia).
  rewrite (generate_put _ bps) by exact Hbps.
  rewrite Z.quot_div_nonneg by lia. unfold for_lt.
  pose proof (Z.div_mod (len buf) num ltac:(lia)) as Hdm.
  pose proof (Z.mod_pos_bound (len buf) num Hnum) as Hmod.
  assert (Hq : 0 <= len buf / num) by (apply Z.div_pos; lia).
  destruct (for_from_total (fun st : list byte * Z => len (fst st) = len buf)
              (fun i st =>
                 buf <- for_from (Z.to_nat (Flag.channelCount flags)) 0
                          (put format length num i (snd st)) (fst st) ;;
                 Ok (buf, Int64.add (snd st) 1))
              (Z.to_nat (len buf / num)) 0 (buf, p)) as (st' & Hrun & _);
    [| reflexivity | rewrite Hrun; cbn [bind]; eauto].
  intros i [b q] Hi Hlen. cbn [fst snd] in *.
  destruct (for_from_total (fun b' : list byte => len b' = len buf)
              (put format length num i q)
              (Z.to_nat (Flag.channelCount flags)) 0 b) as (b' & Hch & Hb');
    [| exact Hlen | rewrite Hch; cbn [bind]; eauto].
  intros ch b0 Hch Hb0.
  destruct (put_total format bps length num i q ch b0 Hbps) as (b1 & H1 & H2);
    [nia | | exists b1; split; [exact H1 | lia]].
  rewrite Hb0. destruct Hfit as [Hfit|Hfit].
  - assert (len buf / num = 0) by (apply Z.div_small; lia). lia.
  - nia.
Qed.

Lemma generate_panics format bps length num p (buf : list byte) :
  formatByteLength format = Ok bps ->
  0 < num -> num <= len buf ->
  num + len buf mod num < bps * Flag.channelCount flags ->
  generate format length num p buf = Panic.
Proof.
  intros Hbps Hnum Hone Hover.
  assert (Hb : 0 < bps) by (destruct format; inversion Hbps; lia).
  pose proof (Z.div_mod (len buf) num ltac:(lia)) as Hdm.
  pose proof (Z.mod_pos_bound (len buf) num Hnum) as Hmod.
  assert (Hq : 1 <= len buf / num)
    by (apply Z.div_le_lower_bound; lia).
  assert (HF : 1 <= Flag.channelCount flags) by nia.
  destruct (generate format length num p buf) as [gen|] eqn:E;
    [exfalso | reflexivity].
  rewrite (generate_put _ bps) in E by exact Hbps.
  rewrite Z.quot_div_nonneg in E by lia. unfold for_lt in E.
  apply bind_Ok in E as (st' & Hrun & _).
  assert (Hpres : forall i (st st' : list byte * Z),
    len (fst st) = len buf ->
    (b <- for_from (Z.to_nat (Flag.channelCount flags)) 0
            (put format length num i (snd st)) (fst st) ;;
     Ok (b, Int64.add (snd st) 1)) = Ok st' ->
    len (fst st') = len buf).
  { intros i [b q] st1 Hlen H. cbn [fst snd] in *.
    apply bind_Ok in H as (b' & Hch & [= <-]). cbn [fst].
    apply (for_from_inv (fun x : list byte => len x = len buf)
             (put format length num i q))
      with (k := Z.to_nat (Flag.channelCount flags)) (i := 0) (st := b);
      [| exact Hlen | exact Hch].
    intros ch x x' Hx Hput.
    apply (put_range _ bps) in Hput as [_ Hl]; [lia | exact Hbps]. }
  destruct (for_from_visits _ _ Hpres _ 0 (buf, p) st' eq_refl Hrun
              (Z.to_nat (len buf / num - 1)) ltac:(lia))
    as ([b q] & s' & Hlen & Hbody).
  cbn [fst snd] in *.
  apply bind_Ok in Hbody as (b' & Hch & _).
  assert (Hpres' : forall ch (x x' : list byte),
    len x = len buf ->
    put format length num (0 + Z.of_nat (Z.to_nat (len buf / num - 1))) q ch x
    = Ok x' -> len x' = len buf).
  { intros ch x x' Hx Hput.
    apply (put_range _ bps) in Hput as [_ Hl]; [lia | exact Hbps]. }
  destruct (for_from_visits _ _ Hpres' _ 0 b b' Hlen Hch
              (Z.to_nat (Flag.channelCount flags - 1)) ltac:(lia))
    as (x & x' & Hx & Hput).
  apply (put_range _ bps) in Hput as [Hin _]; [|exact Hbps].
  rewrite Hx in Hin. rewrite !Z2Nat.id in Hin by lia. nia.
Qed.

(** Before the end and with nothing pending, [Read] panics exactly when
    its frame loop does. *)
Lemma Read_fresh_panics s (buf : list byte) bps :
  formatByteLength (SineWave.format s) = Ok bps ->
  0 < SineWave.channelCount s < 2 ^ 32 ->
  Inv s ->
  SineWave.remaining s = [] ->
  SineWave.pos s <> SineWave.length s ->
  small buf ->
  let num := bps * SineWave.channelCount s in
  Read s buf = Panic <->
  generate (SineWave.format s) (period s) num (SineWave.pos s / num)
    (workbuf (requested s buf) buf) = Panic.
Proof.
  intros Hbps Hcc Hinv Hrem Hpos Hbuf num.
  assert (Hb : bps = 1 \/ bps = 2 \/ bps = 4)
    by (destruct (SineWave.format s); inversion Hbps; auto).
  destruct Hinv as [Hlen [ql Hql] Hp [qp Hqp] _].
  pose proof (len_nonneg buf) as Hbuf0. unfold small in Hbuf.
  set (k := requested s buf).
  assert (Hk : 0 <= k <= len buf) by (unfold k, requested; lia).
  assert (Hnum0 : 0 < num) by (unfold num; nia).
  unfold Read. rewrite Hrem. change (0 <? len []) with false. cbv iota.
  replace (SineWave.pos s =? SineWave.length s) with false
    by (symmetry; apply Z.eqb_neq; exact Hpos).
  unfold Int64.add at 1. rewrite wrap_small by lia.
  rewrite (Read_view s buf) by lia. fold k. cbn [bind].
  rewrite Hbps. cbn [bind].
  unfold Int64.mul. fold num. rewrite wrap_small by (unfold num; nia).
  replace (num =? 0) with false by (symmetry; apply Z.eqb_neq; lia).
  cbn [bind].
  assert (Hlv : len (take (Z.to_nat k) buf) = k) by (apply len_take; exact Hk).
  rewrite Hlv.
  assert (Hquot : Int64.quot (SineWave.pos s) num = SineWave.pos s / num).
  { unfold Int64.quot. rewrite Z.quot_div_nonneg by lia.
    assert (0 <= SineWave.pos s / num) by (apply Z.div_pos; lia).
    assert (SineWave.pos s / num <= SineWave.pos s)
      by (apply Z.div_le_upper_bound; nia).
    apply wrap_small. lia. }
  rewrite Hquot.
  assert (Hwork : (if Z.rem k 4 >? 0
                   then make (k + 4 - Z.rem k 4)
                   else take (Z.to_nat k) buf) = workbuf k buf).
  { unfold workbuf, roundup4. destruct (Z.rem k 4 >? 0); reflexivity. }
  rewrite Hwork. fold (period s).
  destruct (generate _ _ _ _ _) as [gen|]; cbn [bind]; [|tauto].
  split; [|discriminate]. intros H. exfalso.
  destruct (Z.rem k 4 >? 0); unfold copy in H; discriminate.
Qed.

(** X2. [Read] takes the frame size [num] from the channel count of the
    stream and runs its channel loops over the flag [*channelCount].
    Before the end of a stream with nothing pending it panics (a store
    past the working buffer) exactly when the working length [L], the
    request rounded up to a multiple of 4, holds at least one frame and
    the channels of the flag need more bytes than the last frame and the
    rest of the buffer have: [num + L mod num < bytesPerSample *
    *channelCount]. A stream of the configured channel count never
    panics, one of fewer channels panics whenever [L] is a multiple of
    its frame size, and pending bytes or an exhausted stream never
    panic. *)
Theorem Read_panics_iff s (buf : list byte) bps :
  formatByteLength (SineWave.format s) = Ok bps ->
  0 < SineWave.channelCount s < 2 ^ 32 ->
  0 <= Flag.channelCount flags ->
  Inv s -> small buf ->
  let num := bps * SineWave.channelCount s in
  let L := roundup4 (requested s buf) in
  Read s buf = Panic <->
  SineWave.remaining s = [] /\ SineWave.pos s <> SineWave.length s /\
  num <= L /\ num + L mod num < bps * Flag.channelCount flags.
Proof.
  intros Hbps Hcc HF Hinv Hbuf num L.
  assert (Hb : 0 < bps)
    by (destruct (SineWave.format s); inversion Hbps; lia).
  assert (Hnum0 : 0 < num) by (unfold num; nia).
  destruct (SineWave.remaining s) as [|b rem] eqn:Hrem.
  2:{ rewrite Read_pending by (rewrite Hrem; discriminate).
      split; [discriminate | intros [H _]; discriminate]. }
  destruct (Z.eq_dec (SineWave.pos s) (SineWave.length s)) as [Hpos|Hpos].
  { rewrite Read_exhausted by assumption.
    split; [discriminate | intros (_ & H & _); contradiction]. }
  rewrite (Read_fresh_panics s buf bps Hbps Hcc Hinv Hrem Hpos Hbuf).
  fold num.
  pose proof (len_nonneg buf) as Hbuf0.
  assert (Hk : 0 <= requested s buf <= len buf)
    by (destruct Hinv as [_ _ Hp _ _]; unfold requested; lia).
  pose proof (workbuf_length _ buf Hk) as Hwl. fold L in Hwl.
  split.
  - intros Hpanic. split; [reflexivity|]. split; [exact Hpos|].
    destruct (Z_lt_le_dec L num) as [Hlt|Hge].
    + destruct (generate_total (SineWave.format s) bps (period s) num
                  (SineWave.pos s / num) (workbuf (requested s buf) buf)
                  Hbps Hnum0 HF ltac:(left; rewrite Hwl; lia)) as (g & Hg).
      rewrite Hg in Hpanic. discriminate.
    + split; [exact Hge|].
      destruct (Z_lt_le_dec (num + L mod num) (bps * Flag.channelCount flags))
        as [Hover|Hfit]; [exact Hover|].
      destruct (generate_total (SineWave.format s) bps (period s) num
                  (SineWave.pos s / num) (workbuf (requested s buf) buf)
                  Hbps Hnum0 HF ltac:(right; rewrite Hwl; lia)) as (g & Hg).
      rewrite Hg in Hpanic. discriminate.
  - intros (_ & _ & Hge & Hover).
    apply (generate_panics _ bps); try assumption; rewrite Hwl; assumption.
Qed.

(** ** Chunking with whole frames *)

(** When the cursor and the request are whole frames and the request is
    a multiple of 4, a call generates exactly the next frames of the
    stream. *)
Lemma generated_framed s (buf : list byte) :
  Configured s -> Inv s ->
  (frameSize s | SineWave.pos s) ->
  (frameSize s | requested s buf) -> (4 | requested s buf) ->
  len buf < 2 ^ 62 ->
  take (Z.to_nat (SineWave.pos s)) (ideal s) ++ generated s buf
  = take (Z.to_nat (SineWave.pos s + requested s buf)) (ideal s).
Proof.
  intros Hcfg Hinv [a Ha] [n Hn] Hk4 Hbuf.
  destruct (Configured_bps s Hcfg) as (bps & Hbps & Hb & Hnum).
  pose proof (cfg_channels s Hcfg) as Hcc.
  pose proof (cfg_flag s Hcfg) as Hflag.
  destruct Hinv as [Hlen Hl4 Hp Hp4 _].
  pose proof (len_nonneg buf) as Hbuf0.
  assert (Hk : 0 <= requested s buf <= len buf) by (unfold requested; lia).
  assert (Hkl : requested s buf <= SineWave.length s - SineWave.pos s)
    by (unfold requested; lia).
  assert (Hnum0 : 0 < frameSize s) by (rewrite Hnum; nia).
  assert (Ha0 : 0 <= a) by nia.
  assert (Hn0 : 0 <= n) by nia.
  assert (Hanm : a + n <= SineWave.length s / frameSize s)
    by (apply Z.div_le_lower_bound; nia).
  pose proof (workbuf_length _ buf Hk) as Hw.
  unfold generated, ideal.
  rewrite roundup4_aligned in * by (lia || assumption).
  rewrite Hn in *. rewrite Ha, !Z.div_mul by lia.
  rewrite (drop_ge (workbuf _ _)) by (unfold len in Hw; lia).
  rewrite app_nil_r.
  replace (a * frameSize s)
    with (bps * Flag.channelCount flags * Z.of_nat (Z.to_nat a))
    by (rewrite Hnum, Hflag, Z2Nat.id by lia; lia).
  replace (bps * Flag.channelCount flags * Z.of_nat (Z.to_nat a)
           + n * frameSize s)
    with (bps * Flag.channelCount flags * Z.of_nat (Z.to_nat a + Z.to_nat n))
    by (rewrite Hnum, Hflag, Nat2Z.inj_add, !Z2Nat.id by lia; lia).
  rewrite !(frames_prefix _ bps) by (assumption || lia).
  rewrite frames_app. do 2 f_equal. lia.
Qed.

(** A buffer of whole frames whose length is a multiple of 4. *)
Lemma Read_framed s (buf : list byte) r acc :
  Configured s -> Inv s ->
  SineWave.remaining s = [] ->
  (frameSize s | SineWave.pos s) -> (frameSize s | SineWave.length s) ->
  small buf -> (4 | len buf) -> (frameSize s | len buf) ->
  in_order s acc ->
  Read s buf = Ok r ->
  in_order (stream r) (acc ++ delivered r) /\
  SineWave.remaining (stream r) = [] /\
  (frameSize (stream r) | SineWave.pos (stream r)) /\
  (frameSize (stream r) | SineWave.length (stream r)).
Proof.
  intros Hcfg Hinv Hrem Hpn Hln Hbuf Hb4 Hbn Hord Hread.
  destruct (Read_static s buf r Hread) as (_ & Hl & Hc & Hfmt).
  assert (Hfs : frameSize (stream r) = frameSize s)
    by (unfold frameSize; rewrite Hc, Hfmt; reflexivity).
  rewrite Hfs, Hl.
  unfold in_order in *. rewrite (Read_ideal s buf r Hread).
  rewrite Hrem, app_nil_r in Hord.
  destruct (Z.eq_dec (SineWave.pos s) (SineWave.length s)) as [Hpos|Hpos].
  - rewrite Read_exhausted in Hread by assumption.
    injection Hread as <-. unfold delivered. cbn [count out stream].
    rewrite Hrem. cbn [Z.to_nat take]. rewrite !app_nil_r.
    repeat split; assumption.
  - destruct (Read_fresh_generated s buf Hcfg Hinv Hrem Hpos Hbuf)
      as (r' & Hr' & _ & _ & Hgen).
    rewrite Hread in Hr'. injection Hr' as <-.
    destruct (Read_fresh_observables s buf Hcfg Hinv Hrem Hpos Hbuf)
      as (r' & Hr' & _ & _ & Hp' & _ & Hrem').
    rewrite Hread in Hr'. injection Hr' as <-.
    pose proof (len_nonneg buf) as Hbuf0.
    destruct Hinv as [Hlen Hl4 Hp Hp4 Hr3].
    assert (Hk0 : 0 <= requested s buf) by (unfold requested; lia).
    assert (Hkn : (frameSize s | requested s buf)).
    { unfold requested.
      destruct (Z.min_spec (len buf) (SineWave.length s - SineWave.pos s))
        as [[_ ->]|[_ ->]]; [exact Hbn | apply Z.divide_sub_r; assumption]. }
    assert (Hk4 : (4 | requested s buf)).
    { unfold requested.
      destruct (Z.min_spec (len buf) (SineWave.length s - SineWave.pos s))
        as [[_ ->]|[_ ->]]; [exact Hb4 | apply Z.divide_sub_r; assumption]. }
    rewrite roundup4_aligned in Hp', Hrem' by assumption.
    assert (Hnil : SineWave.remaining (stream r) = [])
      by (apply nil_length_inv; unfold len in Hrem'; lia).
    split; [|split; [exact Hnil|split; [|exact Hln]]].
    + rewrite <- app_assoc, Hgen, Hp', Hord.
      apply generated_framed; try assumption.
      split; assumption.
    + rewrite Hp'. apply Z.divide_add_r; assumption.
Qed.

Lemma ReadAll_framed s bufs rs s' acc :
  Configured s -> Inv s ->
  SineWave.remaining s = [] ->
  (frameSize s | SineWave.pos s) -> (frameSize s | SineWave.length s) ->
  Forall (fun buf : list byte =>
            small buf /\ (4 | len buf) /\ (frameSize s | len buf)) bufs ->
  in_order s acc ->
  ReadAll s bufs = Ok (rs, s') ->
  in_order s' (acc ++ concat (map delivered rs)) /\ ideal s' = ideal s /\
  SineWave.remaining s' = [] /\
  Forall (fun r => SineWave.remaining (stream r) = []) rs.
Proof.
  intros Hcfg Hinv Hrem Hpn Hln Hbufs.
  revert s rs acc Hcfg Hinv Hrem Hpn Hln Hbufs.
  induction bufs as [|buf bufs IH];
    intros s rs acc Hcfg Hinv Hrem Hpn Hln Hbufs Hord Hrun.
  - injection Hrun as <- <-. cbn [map concat]. rewrite app_nil_r.
    repeat split; try assumption. constructor.
  - apply ReadAll_cons in Hrun as (r & rs' & Hr & Hrest & ->).
    apply Forall_cons in Hbufs as [(Hbuf & Hb4 & Hbn) Hbufs].
    destruct (Read_framed s buf r acc Hcfg Hinv Hrem Hpn Hln Hbuf Hb4 Hbn
                Hord Hr) as (H1 & Hrem1 & Hpn1 & Hln1).
    destruct (Read_step s buf r Hinv Hbuf Hr) as (Hinv1 & _).
    pose proof (Read_Configured s buf r Hcfg Hinv Hbuf Hr) as Hcfg1.
    destruct (Read_static s buf r Hr) as (_ & _ & Hc & Hfmt).
    assert (Hfs : frameSize (stream r) = frameSize s)
      by (unfold frameSize; rewrite Hc, Hfmt; reflexivity).
    assert (Hbufs1 : Forall (fun buf : list byte =>
              small buf /\ (4 | len buf) /\ (frameSize (stream r) | len buf))
              bufs) by (rewrite Hfs; exact Hbufs).
    destruct (IH _ _ _ Hcfg1 Hinv1 Hrem1 Hpn1 Hln1 Hbufs1 H1 Hrest)
      as (H2 & Hid & Hrem' & Hall).
    cbn [map concat]. rewrite app_assoc.
    split; [exact H2|]. split; [rewrite Hid; apply (Read_ideal s buf r Hr)|].
    split; [exact Hrem'|]. constructor; assumption.
Qed.

(** X3. Chunking invariance for whole frames. When the total length is a
    whole number of frames and every buffer holds a whole number of
    frames and a multiple of 4 bytes (any multiple of 20 bytes under the
    default flags), the bytes handed out by a run of calls, concatenated,
    are the first bytes of the stream's frames, which are what one call
    into a buffer of at least the total length hands out; no call leaves
    pending bytes. *)
Theorem whole_frames_chunking s bufs (whole : list byte) :
  Configured s -> Inv s ->
  SineWave.pos s = 0 -> SineWave.remaining s = [] ->
  (frameSize s | SineWave.length s) ->
  Forall (fun buf : list byte =>
            small buf /\ (4 | len buf) /\ (frameSize s | len buf)) bufs ->
  small whole -> SineWave.length s <= len whole ->
  exists single rs s',
    Read s whole = Ok single /\
    ReadAll s bufs = Ok (rs, s') /\
    delivered single = ideal s /\
    len (ideal s) = SineWave.length s /\
    concat (map delivered rs)
    = take (Z.to_nat (total rs)) (delivered single) /\
    Forall (fun r => SineWave.remaining (stream r) = []) rs /\
    (undelivered s' = 0 -> concat (map delivered rs) = delivered single).
Proof.
  intros Hcfg Hinv Hpos Hrem Hln Hbufs Hwhole Hlen.
  assert (Hsmall : Forall small bufs)
    by (eapply Forall_impl; [exact Hbufs | intros b (H & _); exact H]).
  destruct (ReadAll_total s bufs Hcfg Hinv Hsmall) as (rs & s' & Hrun).
  destruct (Read_total s whole Hcfg Hinv Hwhole) as (single & Hsingle).
  destruct (Configured_bps s Hcfg) as (bps & Hbps & Hb & Hnum).
  pose proof (cfg_channels s Hcfg) as Hcc.
  pose proof (cfg_flag s Hcfg) as Hflag.
  assert (Hnum0 : 0 < frameSize s) by (rewrite Hnum; nia).
  assert (Hil : len (ideal s) = SineWave.length s).
  { destruct Hln as [m Hm]. destruct Hinv as [Hl0 _ _ _ _].
    unfold ideal. rewrite (frames_length _ bps) by (assumption || lia).
    rewrite <- Hflag, <- Hnum, Hm, Z.div_mul by lia.
    rewrite Z2Nat.id by nia. reflexivity. }
  assert (H0 : in_order s []).
  { unfold in_order. rewrite Hrem, Hpos. reflexivity. }
  assert (Hpn : (frameSize s | SineWave.pos s))
    by (rewrite Hpos; apply Z.divide_0_r).
  assert (Hds : delivered single = ideal s).
  { destruct (Z.eq_dec (SineWave.pos s) (SineWave.length s)) as [He|Hne].
    - rewrite Read_exhausted in Hsingle by assumption.
      injection Hsingle as <-. unfold delivered. cbn [count out Z.to_nat take].
      symmetry. apply nil_length_inv. unfold len in Hil. lia.
    - destruct (Read_fresh_generated s whole Hcfg Hinv Hrem Hne Hwhole)
        as (r' & Hr' & _ & Hdel & _).
      rewrite Hsingle in Hr'. injection Hr' as <-.
      pose proof (len_nonneg whole) as Hw0.
      destruct Hinv as [Hlen0 Hl4 Hp Hp4 Hr3].
      assert (Hreq : requested s whole = SineWave.length s)
        by (unfold requested; lia).
      pose proof (generated_framed s whole Hcfg
                    (Build_Inv s Hlen0 Hl4 Hp Hp4 Hr3) Hpn
                    ltac:(rewrite Hreq; exact Hln)
                    ltac:(rewrite Hreq; exact Hl4) Hwhole) as Hgen.
      rewrite Hpos, Hreq in Hgen.
      change (take (Z.to_nat 0) (ideal s)) with (@nil byte) in Hgen.
      cbn [app] in Hgen.
      rewrite Hdel, Hreq, Hgen. rewrite Z.add_0_l, take_take.
      apply take_ge. unfold len in Hil. lia. }
  destruct (ReadAll_framed s bufs rs s' [] Hcfg Hinv Hrem Hpn Hln Hbufs H0
              Hrun) as (Hord & Hid & Hrem' & Hall).
  destruct (ReadAll_step s bufs rs s' Hinv Hsmall Hrun)
    as (Hinv' & _ & _ & Hl' & Hund').
  unfold in_order in Hord. cbn [app] in Hord. rewrite Hid in Hord.
  rewrite Hrem', app_nil_r in Hord.
  assert (Htot : SineWave.pos s' = total rs).
  { unfold undelivered in Hund'. rewrite Hrem, Hrem', Hpos in Hund'.
    change (len []) with 0 in Hund'. lia. }
  exists single, rs, s'.
  split; [exact Hsingle|]. split; [exact Hrun|]. split; [exact Hds|].
  split; [exact Hil|].
  rewrite Hds, Hord, Htot. split; [reflexivity|]. split; [exact Hall|].
  intros Hz. apply take_ge.
  unfold undelivered in Hz. rewrite Hrem' in Hz. change (len []) with 0 in Hz.
  unfold len in Hil. lia.
Qed.

End Keys.

Arguments InitAudioContext flags {Context} NewContext trace.
Arguments selects flags {Context} NewContext f trace.
Arguments say {Context} w fx.
Arguments play flags {Context} context freq duration channelCount format w.
Arguments Run flags {Context} key c op w.
Arguments started {Context} c op key w.
Arguments finished flags {Context} c op key w.
Arguments mainLoop {Context} KeyEsc spawn keysEvents w.
Arguments main flags {Context} NewContext KeyEsc spawn keys w.

(** ** The concrete streams are well formed *)

Lemma fresh_Configured flags freq length channelCount format bps :
  formatByteLength format = Ok bps ->
  channelCount = Flag.channelCount flags ->
  0 < channelCount < 2 ^ 32 ->
  Configured flags (SineWave.mk freq length 0 channelCount format []).
Proof.
  intros Hbps Hflag Hcc.
  split; cbn [SineWave.format SineWave.channelCount]; try assumption.
  intros code ->. discriminate.
Qed.

Lemma fresh_Inv freq length channelCount format :
  0 <= length < 2 ^ 62 -> (4 | length) ->
  Inv (SineWave.mk freq length 0 channelCount format []).
Proof.
  intros Hl H4.
  split; cbn [SineWave.length SineWave.pos SineWave.remaining];
    try assumption; try (change (len []) with 0); try lia.
  exists 0. reflexivity.
Qed.

Lemma tone_u8_ok : Configured (mono "u8") tone_u8 /\ Inv tone_u8.
Proof.
  split.
  - apply (fresh_Configured _ _ _ _ _ 1); [reflexivity | reflexivity | lia].
  - apply fresh_Inv; [lia | exists 11025; reflexivity].
Qed.

Lemma blip_s16_ok : Configured (mono "s16le") blip_s16 /\ Inv blip_s16.
Proof.
  split.
  - apply (fresh_Configured _ _ _ _ _ 2); [reflexivity | reflexivity | lia].
  - apply fresh_Inv; [lia | exists 22; reflexivity].
Qed.

Lemma note_h_ok : Configured Flag.default note_h /\ Inv note_h.
Proof.
  split.
  - apply (fresh_Configured _ _ _ _ _ 2); [reflexivity | reflexivity | lia].
  - apply fresh_Inv; [lia | exists 661500; reflexivity].
Qed.

(** A stream without pending bytes whose total length is negative makes
    every [Read] panic: the slice [buf[:length-pos]] has a negative bound. *)
Lemma Read_negative_length Sin flags s (buf : list byte) :
  SineWave.remaining s = [] ->
  SineWave.pos s = 0 ->
  - 2 ^ 62 < SineWave.length s < 0 ->
  len buf < 2 ^ 62 ->
  Read Sin flags s buf = Panic.
Proof.
  intros Hrem Hpos Hlen Hbuf. pose proof (len_nonneg buf) as Hbuf0.
  unfold Read. rewrite Hrem, Hpos. change (0 <? len []) with false. cbv iota.
  replace (0 =? SineWave.length s) with false
    by (symmetry; apply Z.eqb_neq; lia).
  unfold Int64.add, Int64.sub. rewrite !wrap_small by lia.
  replace (0 + len buf >? SineWave.length s) with true
    by (symmetry; rewrite Z.gtb_ltb; apply Z.ltb_lt; lia).
  unfold slice_to.
  replace (0 <=? SineWave.length s - 0) with false
    by (symmetry; apply Z.leb_gt; lia).
  reflexivity.
Qed.

(** ** C6 *)

(** C6 at the three-second note under the default flags. *)
Lemma C6_witness :
  exists s,
    NewSineWave Flag.default 440 (3 * Second) 10 oto.FormatSignedInt16LE
    = Ok s /\
    SineWave.length s = 2646000 /\ (4 | SineWave.length s).
Proof.
  destruct (C6_totalLength Flag.default 440%float (3 * Second) 10
              oto.FormatSignedInt16LE 2 eq_refl)
    as (s & Hnew & Hlen & H4 & Hspec).
  exists s. split; [exact Hnew|]. split; [| exact H4].
  rewrite Hspec; [reflexivity | unfold Second; cbn; lia].
Defined.

(** C6, as stated, fails for a negative duration: under the default flags
    -1 ms gives -880 bytes, the product truncated toward zero, where
    rounding down would give -884. *)
Lemma C6_counterexample :
  exists s,
    NewSineWave Flag.default 440 (- Millisecond) 10 oto.FormatSignedInt16LE
    = Ok s /\
    SineWave.length s = -880 /\
    totalLength_spec 10 2 44100 (- Millisecond) = -884.
Proof.
  eexists. split; [vm_compute; reflexivity|]. split; reflexivity.
Qed.

(** ** C4 *)



(** ** C3 *)



(** ** C5 *)

(** C5 at the exhausted one-millisecond stream and two calls. *)
Lemma C5_witness :
  ReadAll sinTaylor (mono "s16le") blip_s16_spent [[x01]; [x02; x03]]
  = Ok ([mkRead 0 (Some EOF) [x01] blip_s16_spent;
         mkRead 0 (Some EOF) [x02; x03] blip_s16_spent], blip_s16_spent).
Proof.
  assert (Hinv : Inv blip_s16_spent).
  { split; unfold blip_s16_spent;
      cbn [SineWave.length SineWave.pos SineWave.remaining];
      try (change (len []) with 0); try lia; exists 22; reflexivity. }
  assert (Hsmall : Forall small [[x01]; [x02; x03]]).
  { repeat constructor; vm_compute; reflexivity. }
  exact (proj2 (C5_exhausted_is_final sinTaylor (mono "s16le") blip_s16_spent
                  [[x01]; [x02; x03]] Hinv Hsmall) eq_refl eq_refl).
Defined.

(** C5, as stated, fails while bytes are pending: an 85-byte read of the
    88-byte stream moves the cursor to the total length and keeps 3 bytes,
    and the next call hands them out without the end-of-stream signal. *)
Lemma C5_counterexample :
  NewSineWave (mono "s16le") 440 Millisecond 1 oto.FormatSignedInt16LE
  = Ok blip_s16 /\
  forall Sin,
    exists r1 r2,
      Read Sin (mono "s16le") blip_s16 (replicate 85 x00) = Ok r1 /\
      SineWave.pos (stream r1) = SineWave.length (stream r1) /\
      Read Sin (mono "s16le") (stream r1) (replicate 4 x00) = Ok r2 /\
      count r2 = 3 /\ err r2 = None.
Proof.
  split; [vm_compute; reflexivity|]. intros Sin.
  destruct (Read_fresh_observables Sin (mono "s16le") blip_s16
              (replicate 85 x00) (proj1 blip_s16_ok) (proj2 blip_s16_ok)
              eq_refl ltac:(cbn; lia) ltac:(vm_compute; reflexivity))
    as (r1 & Hr1 & _ & _ & Hpos & Hlen & Hrem).
  change (requested blip_s16 (replicate 85 x00)) with 85 in Hpos, Hrem.
  change (roundup4 85) with 88 in Hpos, Hrem.
  assert (Hne : SineWave.remaining (stream r1) <> []).
  { intros E. rewrite E in Hrem. discriminate. }
  pose proof (Read_pending Sin (mono "s16le") (stream r1) (replicate 4 x00)
                Hne) as Hr2.
  cbv zeta in Hr2. rewrite Hrem in Hr2.
  eexists r1, _. split; [exact Hr1|]. split; [rewrite Hpos, Hlen; reflexivity|].
  split; [exact Hr2|]. split; reflexivity.
Qed.

(** ** C2 *)

(** C2 at the one-second, one-channel, 8-bit stream and a 1-byte call. *)
Lemma C2_witness :
  exists rs s',
    ReadAll sinTaylor (mono "u8") tone_u8 [[x00]] = Ok (rs, s') /\
    len (SineWave.remaining s') <= 3.
Proof.
  destruct (ReadAll sinTaylor (mono "u8") tone_u8 [[x00]])
    as [[rs s']|] eqn:Hrun; [| vm_compute in Hrun; discriminate].
  exists rs, s'. split; [reflexivity|].
  exact (proj1 (C2_pending_bound sinTaylor (mono "u8") 440%float Second 1
                  oto.FormatUnsignedInt8 tone_u8 [[x00]] rs s'
                  ltac:(vm_compute; reflexivity) Hrun)).
Defined.

(** C2, as stated, fails for frames shorter than 4 bytes: with one
    unsigned 8-bit channel the frame size is 1, and a 1-byte read leaves 3
    bytes pending, not 0. *)
Lemma C2_counterexample :
  NewSineWave (mono "u8") 440 Second 1 oto.FormatUnsignedInt8 = Ok tone_u8 /\
  frameSize tone_u8 = 1 /\
  forall Sin,
    exists r,
      Read Sin (mono "u8") tone_u8 [x00] = Ok r /\
      len (SineWave.remaining (stream r)) = 3.
Proof.
  split; [vm_compute; reflexivity|]. split; [reflexivity|]. intros Sin.
  destruct (Read_fresh_observables Sin (mono "u8") tone_u8 [x00]
              (proj1 tone_u8_ok) (proj2 tone_u8_ok)
              eq_refl ltac:(cbn; lia) ltac:(vm_compute; reflexivity))
    as (r & Hr & _ & _ & _ & _ & Hrem).
  exists r. split; [exact Hr | exact Hrem].
Qed.

(** ** C10 *)

(** C10 at the three-second note under the default flags. *)
Lemma C10_witness :
  exists s,
    NewSineWave Flag.default 440 (3 * Second) 10 oto.FormatSignedInt16LE
    = Ok s /\
    Inv s.
Proof.
  destruct (C10_cursor_invariant sinTaylor Flag.default 440%float
              (3 * Second) 10 oto.FormatSignedInt16LE 2 [[x00]] eq_refl
              ltac:(vm_compute; split; [discriminate | reflexivity])
              ltac:(repeat constructor; vm_compute; reflexivity))
    as (s & Hnew & Hinv & _).
  exists s. split; [exact Hnew | exact Hinv].
Defined.

(** C10, as stated, fails when the int64 product wraps around: under the
    default flags a duration of three hours gives a negative total length,
    so the cursor is not within it after construction, and every [Read]
    panics. *)
Lemma C10_counterexample :
  exists s,
    NewSineWave Flag.default 440 (3 * Hour) 10 oto.FormatSignedInt16LE
    = Ok s /\
    SineWave.length s = -8921144072 /\
    ~ (0 <= SineWave.pos s <= SineWave.length s) /\
    forall Sin (buf : list byte),
      len buf < 2 ^ 62 -> Read Sin Flag.default s buf = Panic.
Proof.
  eexists. split; [vm_compute; reflexivity|]. split; [reflexivity|].
  split; [cbn; lia|].
  intros Sin buf Hbuf.
  apply Read_negative_length; cbn; try reflexivity; try lia; exact Hbuf.
Qed.

(** ** One channel, with the flag at one channel *)

(** The one-channel stream with the stand-in sine and a 4-byte buffer of
    bytes 7: the frame loop writes the first two bytes. *)
Lemma one_channel_stream_example :
  exists s r,
    NewSineWave (mono "s16le") 440 Second 1 oto.FormatSignedInt16LE = Ok s /\
    SineWave.length s = 88200 /\
    Read sinTaylor (mono "s16le") s [x07; x07; x07; x07] = Ok r /\
    take 2 (delivered r) = [x00; x00].
Proof.
  destruct (one_channel_stream sinTaylor (mono "s16le") [x07; x07; x07; x07]
              eq_refl eq_refl ltac:(vm_compute; reflexivity)
              ltac:(vm_compute; split; [discriminate | reflexivity]))
    as (s & r & Hnew & Hlen & Hread & _ & _ & _ & Htake).
  exists s, r. repeat split; assumption.
Defined.

(** ** C9 *)

(** C9 at the format string mp3. *)
Lemma C9_witness :
  InitAudioContext (Flag.mk 44100 10 "mp3")
    (fun _ : oto.NewContextOptions.t => inl tt) []
  = (None, None,
     Some (Errorf "format must be u8, s16le, or f32le but: mp3"), []).
Proof.
  exact (proj2 (proj2 (proj2
           (C9_format_selection (Flag.mk 44100 10 "mp3") unit
              (fun _ => inl tt) [])))
           ltac:(discriminate) ltac:(discriminate) ltac:(discriminate)).
Defined.

(** ** The slots of a working buffer *)

(** The three-second note and a 40-byte buffer: in frame 1 of the call,
    the slot of channel 1 equals the slot of channel 0. *)
Lemma replication_in_working_buffer_example :
  exists r,
    Read sinTaylor Flag.default note_h (replicate 40 x00) = Ok r /\
    let gen := delivered r ++ SineWave.remaining (stream r) in
    take 2 (drop 22 gen) = take 2 (drop 20 gen).
Proof.
  destruct (replication_in_working_buffer sinTaylor Flag.default note_h
              (replicate 40 x00) (proj1 note_h_ok) (proj2 note_h_ok)
              eq_refl ltac:(cbn; lia) ltac:(vm_compute; reflexivity))
    as (r & bps & Hr & Hbps & H).
  injection Hbps as <-.
  exists r. split; [exact Hr|].
  pose proof Hr as Hr'. vm_compute in Hr'. injection Hr' as <-.
  cbv zeta in H.
  exact (eq_trans
           (H 1 1 ltac:(vm_compute; split; [discriminate | reflexivity])
                  ltac:(vm_compute; split; [discriminate | reflexivity]))
           (eq_sym
              (H 1 0 ltac:(vm_compute; split; [discriminate | reflexivity])
                     ltac:(vm_compute; split; [discriminate | reflexivity])))).
Defined.

(** ** C1 *)

Lemma take_len (l : list byte) k : len l <= k -> take (Z.to_nat k) l = l.
Proof. intros H. apply take_ge. unfold len in H. lia. Qed.

Lemma frame0_length Sin :
  length (frame Sin Flag.default oto.FormatSignedInt16LE
            (period Flag.default note_h) 0) = 20%nat.
Proof.
  pose proof (frame_length Sin Flag.default oto.FormatSignedInt16LE 2
                (period Flag.default note_h) 0 eq_refl ltac:(cbn; lia)) as H.
  unfold len in *.
  change (Flag.channelCount Flag.default) with 10 in H. lia.
Qed.

(** The 24-byte read: one frame, then four bytes that were never written. *)
Lemma chunk24_read Sin :
  exists r1,
    Read Sin Flag.default note_h chunk24 = Ok r1 /\
    count r1 = 24 /\
    SineWave.pos (stream r1) = 24 /\
    delivered r1 = (frame Sin Flag.default oto.FormatSignedInt16LE
       (period Flag.default note_h) 0) ++ [x01; x02; x03; x04].
Proof.
  destruct note_h_ok as [Hcfg Hinv].
  destruct (Read_fresh_observables Sin Flag.default note_h chunk24 Hcfg Hinv
              eq_refl ltac:(cbn; lia) ltac:(vm_compute; reflexivity))
    as (r1 & Hr1 & Hc1 & _ & Hp1 & _).
  destruct (Read_fresh_generated Sin Flag.default note_h chunk24 Hcfg Hinv
              eq_refl ltac:(cbn; lia) ltac:(vm_compute; reflexivity))
    as (r1' & Hr1' & _ & Hd1 & _).
  rewrite Hr1 in Hr1'. injection Hr1' as <-.
  assert (Hg1 : generated Sin Flag.default note_h chunk24
                = ((frame Sin Flag.default oto.FormatSignedInt16LE
       (period Flag.default note_h) 0) ++ []) ++ [x01; x02; x03; x04]) by reflexivity.
  rewrite Hg1, app_nil_r in Hd1.
  change (requested note_h chunk24) with 24 in Hd1, Hc1, Hp1.
  change (Z.to_nat 24) with 24%nat in Hd1.
  rewrite take_ge in Hd1
    by (rewrite length_app, frame0_length; cbn; lia).
  exists r1. repeat split; assumption.
Qed.

Lemma whole_note_len : len whole_note = 2646000.
Proof.
  unfold whole_note, len. rewrite length_replicate. apply Z2Nat.id. lia.
Qed.

Lemma whole_note_small : len whole_note < 2 ^ 62.
Proof. rewrite whole_note_len. lia. Qed.

Lemma whole_note_requested : requested note_h whole_note = 2646000.
Proof. unfold requested. rewrite whole_note_len. reflexivity. Qed.

Lemma note_h_unread : SineWave.pos note_h <> SineWave.length note_h.
Proof. cbn. lia. Qed.

Lemma whole_note_generated_length Sin :
  len (generated Sin Flag.default note_h whole_note) = 2646000.
Proof.
  rewrite (generated_length Sin Flag.default note_h whole_note
             (proj1 note_h_ok))
    by (rewrite whole_note_requested, whole_note_len; lia).
  rewrite whole_note_requested. reflexivity.
Qed.

(** The read of the whole note hands out what it generated. *)
Lemma whole_note_read Sin :
  exists single,
    Read Sin Flag.default note_h whole_note = Ok single /\
    count single = 2646000 /\
    delivered single = generated Sin Flag.default note_h whole_note.
Proof.
  destruct (Read_fresh_generated Sin Flag.default note_h whole_note
              (proj1 note_h_ok) (proj2 note_h_ok) eq_refl note_h_unread
              whole_note_small)
    as (single & Hs & Hcs & Hds & _).
  exists single. split; [exact Hs|].
  rewrite whole_note_requested in Hcs, Hds. split; [exact Hcs|].
  rewrite take_len in Hds
    by (rewrite whole_note_generated_length; lia).
  exact Hds.
Qed.

(** In the read of the whole note, bytes 20-21 and 22-23 are the first two
    channel slots of frame 1, which hold the same sample. *)
Lemma whole_note_frame1 Sin :
  take 2 (drop 20 (generated Sin Flag.default note_h whole_note))
  = take 2 (drop 22 (generated Sin Flag.default note_h whole_note)).
Proof.
  unfold generated. rewrite whole_note_requested.
  change (roundup4 2646000) with 2646000.
  change (frameSize note_h) with 20.
  change (2646000 / 20) with 132300.
  pose proof (fun ch H =>
    slot_in_frames Sin Flag.default oto.FormatSignedInt16LE 2
      (period Flag.default note_h) (Z.to_nat 132300) 1 ch
      (SineWave.pos note_h / 20)
      (drop (Z.to_nat (20 * 132300)) (workbuf 2646000 whole_note))
      eq_refl ltac:(lia) H) as Hslot.
  pose proof (Hslot 0%nat ltac:(cbn; lia)) as H0.
  pose proof (Hslot 1%nat ltac:(cbn; lia)) as H1.
  exact (eq_trans H0 (eq_sym H1)).
Qed.

(** C1 fails on the code under the default flags (10 channels, signed
    16-bit: frames of 20 bytes). The three-second note read first into a
    24-byte buffer hands out 24 bytes of which the last four are the
    caller's own, never written, and moves the cursor to 24: only the
    whole frames that fit the working length are generated. The same
    stream read into one buffer of the total length has the start of
    frame 1 at these positions. So the chunked bytes differ from the
    single call's bytes, whatever is read afterwards. *)
Theorem C1_chunking_diverges (Sin : float -> float) (more : list byte) :
  exists r1 single,
    NewSineWave Flag.default 440 (3 * Second) 10 oto.FormatSignedInt16LE
    = Ok note_h /\
    frameSize note_h = 20 /\
    Read Sin Flag.default note_h chunk24 = Ok r1 /\
    count r1 = 24 /\
    drop 20 (delivered r1) = [x01; x02; x03; x04] /\
    SineWave.pos (stream r1) = 24 /\
    Read Sin Flag.default note_h whole_note = Ok single /\
    count single = 2646000 /\
    delivered r1 ++ more <> delivered single.
Proof.
  destruct (chunk24_read Sin) as (r1 & Hr1 & Hc1 & Hp1 & Hd1).
  destruct (whole_note_read Sin) as (single & Hs & Hcs & Hds).
  pose proof (whole_note_frame1 Sin) as Hslots.
  pose proof (frame0_length Sin) as HF.
  exists r1, single.
  split; [vm_compute; reflexivity|]. split; [reflexivity|].
  split; [exact Hr1|]. split; [exact Hc1|].
  split; [rewrite Hd1; apply drop_app_length'; exact HF|].
  split; [exact Hp1|]. split; [exact Hs|]. split; [exact Hcs|].
  rewrite Hd1, Hds. intros Heq. rewrite <- Heq in Hslots.
  rewrite <- !app_assoc in Hslots.
  rewrite (drop_app_length' ((frame Sin Flag.default oto.FormatSignedInt16LE
       (period Flag.default note_h) 0)) _ 20 HF) in Hslots.
  replace 22%nat with (20 + 2)%nat in Hslots by reflexivity.
  rewrite <- drop_drop, (drop_app_length' ((frame Sin Flag.default oto.FormatSignedInt16LE
       (period Flag.default note_h) 0)) _ 20 HF) in Hslots.
  discriminate Hslots.
Qed.

(** ** Chunking with frames of 2 bytes *)

(** The one-millisecond stream read into a 3-byte buffer, a 5-byte buffer
    and a buffer for the rest hands out the bytes of a single read. *)
Lemma chunking_invariance_witness :
  exists single rs s',
    Read sinTaylor (mono "s16le") blip_s16 (replicate 88 x00) = Ok single /\
    ReadAll sinTaylor (mono "s16le") blip_s16
      [replicate 3 x00; replicate 5 x00; replicate 84 x00] = Ok (rs, s') /\
    total rs = 88 /\
    concat (map delivered rs) = delivered single.
Proof.
  destruct (chunking_invariance sinTaylor (mono "s16le") blip_s16
              [replicate 3 x00; replicate 5 x00; replicate 84 x00]
              (replicate 88 x00)
              (proj1 blip_s16_ok) (proj2 blip_s16_ok) eq_refl eq_refl
              ltac:(exists 2; reflexivity)
              ltac:(repeat constructor; vm_compute; reflexivity)
              ltac:(vm_compute; reflexivity)
              ltac:(vm_compute; discriminate))
    as (single & rs & s' & Hsingle & Hrun & _ & _ & Hall).
  exists single, rs, s'. split; [exact Hsingle|]. split; [exact Hrun|].
  pose proof Hrun as Hrun'. vm_compute in Hrun'. injection Hrun' as <- <-.
  split; [reflexivity|]. apply Hall. reflexivity.
Defined.

(** ** The channel count of the flags and of the stream *)

(** An instance: [Read] takes its frame size from the stream's channel count and
    runs its channel loops over the flag. Under the default flags (10
    channels) the one-channel stream of 440 Hz panics on a 4-byte read,
    on the store at index 4; with the flag at 1 the same call returns 4
    bytes. *)
Theorem Read_channel_flag (Sin : float -> float) :
  NewSineWave Flag.default 440 Second 1 oto.FormatSignedInt16LE
  = Ok tone_s16 /\
  Read Sin Flag.default tone_s16 [x00; x00; x00; x00] = Panic /\
  exists r,
    Read Sin (mono "s16le") tone_s16 [x00; x00; x00; x00] = Ok r /\
    count r = 4.
Proof.
  split; [vm_compute; reflexivity|]. split.
  - lazy -[int16_of_float byte_of_Z]. reflexivity.
  - lazy -[int16_of_float byte_of_Z]. eexists. split; reflexivity.
Qed.

(** ** The caller's buffer, progress and the end of the stream *)

Lemma blip_s16_spent_Inv : Inv blip_s16_spent.
Proof.
  split; cbn [SineWave.length SineWave.pos SineWave.remaining blip_s16_spent];
    try (change (len []) with 0); try lia; exists 22; reflexivity.
Qed.

(** The 88-byte stream read into 100 bytes: 88 bytes are counted and the
    last 12 bytes of the buffer are as the caller left them. *)
Lemma Read_writes_only_count_witness :
  exists r,
    Read sinTaylor (mono "s16le") blip_s16 (replicate 100 x07) = Ok r /\
    count r = 88 /\ len (out r) = 100 /\
    drop 88 (out r) = replicate 12 x07.
Proof.
  destruct (Read_total sinTaylor (mono "s16le") blip_s16 (replicate 100 x07)
              (proj1 blip_s16_ok) (proj2 blip_s16_ok)
              ltac:(vm_compute; reflexivity)) as [r Hr].
  destruct (Read_writes_only_count sinTaylor (mono "s16le") blip_s16
              (replicate 100 x07) r Hr) as (_ & Hlen & Hdrop & _).
  exists r. split; [exact Hr|].
  pose proof Hr as Hr'. vm_compute in Hr'. injection Hr' as <-.
  split; [reflexivity|]. split; [exact Hlen | exact Hdrop].
Defined.

(** The exhausted stream and a 4-byte buffer: 0 bytes, and [io.EOF]. *)
Lemma Read_never_stalls_witness :
  exists r,
    Read sinTaylor (mono "s16le") blip_s16_spent [x00; x00; x00; x00] = Ok r /\
    count r = 0 /\ err r = Some EOF.
Proof.
  exists (mkRead 0 (Some EOF) [x00; x00; x00; x00] blip_s16_spent).
  assert (Hr : Read sinTaylor (mono "s16le") blip_s16_spent
                 [x00; x00; x00; x00]
               = Ok (mkRead 0 (Some EOF) [x00; x00; x00; x00] blip_s16_spent))
    by reflexivity.
  split; [exact Hr|]. split; [reflexivity|].
  exact (proj2 (Read_never_stalls sinTaylor (mono "s16le") blip_s16_spent
                  [x00; x00; x00; x00] _ blip_s16_spent_Inv
                  ltac:(vm_compute; reflexivity) Hr)
           ltac:(vm_compute; reflexivity) eq_refl).
Defined.

(** The 88-byte stream read into 100 bytes: [io.EOF] comes with the 88
    bytes, and the next call returns 0 and [io.EOF]. *)
Lemma Read_eof_is_the_end_witness :
  exists r,
    Read sinTaylor (mono "s16le") blip_s16 (replicate 100 x00) = Ok r /\
    err r = Some EOF /\ count r = 88 /\
    Read sinTaylor (mono "s16le") (stream r) [x00]
    = Ok (mkRead 0 (Some EOF) [x00] (stream r)).
Proof.
  destruct (Read_total sinTaylor (mono "s16le") blip_s16 (replicate 100 x00)
              (proj1 blip_s16_ok) (proj2 blip_s16_ok)
              ltac:(vm_compute; reflexivity)) as [r Hr].
  destruct (Read_eof_is_the_end sinTaylor (mono "s16le") blip_s16
              (replicate 100 x00) r (proj2 blip_s16_ok)
              ltac:(vm_compute; reflexivity) Hr) as [Hiff Hend].
  assert (He : err r = Some EOF).
  { apply Hiff. split; [reflexivity|]. right. vm_compute. reflexivity. }
  destruct (Hend He) as (Hc & _ & Hnext).
  exists r. split; [exact Hr|]. split; [exact He|].
  split; [exact Hc | apply Hnext].
Defined.

(** The one-millisecond stream and an empty buffer. *)
Lemma Read_empty_buffer_witness :
  Read sinTaylor (mono "s16le") blip_s16 []
  = Ok (mkRead 0 None [] blip_s16).
Proof.
  exact (Read_empty_buffer sinTaylor (mono "s16le") blip_s16
           (proj1 blip_s16_ok) (proj2 blip_s16_ok)).
Defined.

(** The one-millisecond stream read into buffers of 3, 5 and 100 bytes:
    88 bytes in all. *)
Lemma ReadAll_delivers_totalLength_witness :
  exists rs s',
    ReadAll sinTaylor (mono "s16le") blip_s16
      [replicate 3 x00; replicate 5 x00; replicate 100 x00] = Ok (rs, s') /\
    total rs = 88 /\ len (concat (map delivered rs)) = 88.
Proof.
  assert (Hsmall : Forall small
            [replicate 3 x00; replicate 5 x00; replicate 100 x00])
    by (repeat constructor; vm_compute; reflexivity).
  destruct (ReadAll_total sinTaylor (mono "s16le") blip_s16 _
              (proj1 blip_s16_ok) (proj2 blip_s16_ok) Hsmall)
    as (rs & s' & Hrun).
  destruct (ReadAll_delivers_totalLength sinTaylor (mono "s16le")
              440 Millisecond 1 oto.FormatSignedInt16LE 2 _ blip_s16 rs s'
              eq_refl ltac:(vm_compute; split; [discriminate | reflexivity])
              Hsmall ltac:(vm_compute; reflexivity) Hrun)
    as (Hlen & _ & _ & _ & _ & Heof).
  exists rs, s'. split; [exact Hrun|].
  assert (Htotal : total rs = 88).
  { apply Heof. pose proof Hrun as Hrun'. vm_compute in Hrun'.
    injection Hrun' as <- <-.
    apply Exists_cons_tl, Exists_cons_tl, Exists_cons_hd. reflexivity. }
  split; [exact Htotal | rewrite Hlen; exact Htotal].
Defined.


(** ** Keys, notes and the main loop *)

(** The key Q (upper case) plays nothing. *)
Lemma Run_ignores_other_keys_witness :
  Run Flag.default 81 tt defaultOp start = Ok (None, start).
Proof.
  apply Run_ignores_other_keys.
  apply (bool_decide_unpack _). vm_compute. exact I.
Defined.

(** The key h with [NoteCount] at 1: the three-second 440 Hz note at the
    volumes 1, 1/2, 1/3 and 0. *)
Lemma Run_plays_note_witness :
  Run Flag.default 104 tt defaultOp (mkWorld 1 [] [])
  = Ok (None,
        mkWorld 0 []
          [NewPlayer tt note_h; Play 0%nat;
           SetVolume 0%nat 1; Sleep Second;
           SetVolume 0%nat 0.5; Sleep Second;
           SetVolume 0%nat (1 / 3); Sleep 50000;
           SetVolume 0%nat 0]).
Proof.
  destruct (Run_plays_note Flag.default unit 104 tt defaultOp (mkWorld 1 [] []) 2
              ltac:(apply (bool_decide_unpack _); vm_compute; exact I)
              eq_refl) as (freq & Hfreq & Hrun & _).
  vm_compute in Hfreq. injection Hfreq as <-.
  rewrite Hrun. vm_compute. reflexivity.
Defined.

(** The key h after [InitAudioContext] under the default flags: a stream
    of 2646000 bytes that two calls of [Read] do not make panic. *)
Lemma Run_stream_well_formed_witness :
  exists s fx rs s',
    Run Flag.default 104 tt defaultOp start
    = Ok (None, mkWorld (-1) [] (NewPlayer tt s :: fx)) /\
    SineWave.length s = 2646000 /\
    ReadAll sinTaylor Flag.default s [replicate 20 x00; replicate 40 x00]
    = Ok (rs, s').
Proof.
  destruct (Run_stream_well_formed sinTaylor Flag.default unit backendUp 104
              start tt defaultOp
              [NewContextCalled defaultOp (inl tt)]
              ltac:(vm_compute; split; reflexivity)
              ltac:(vm_compute; discriminate)
              ltac:(vm_compute; reflexivity)
              eq_refl
              ltac:(apply (bool_decide_unpack _); vm_compute; exact I))
    as (freq & bps & s & fx & _ & Hbps & Hrun & _ & Hlen & _ & _ & _ & _
        & Htotal).
  injection Hbps as <-.
  destruct (Htotal [replicate 20 x00; replicate 40 x00]
              ltac:(repeat constructor; vm_compute; reflexivity))
    as (rs & s' & Hreads).
  exists s, fx, rs, s'.
  split; [exact Hrun|]. split; [exact Hlen | exact Hreads].
Defined.

(** The keys h and Q, then Esc, then h again: two goroutines, and the
    last key is not looked at. *)
Lemma main_runs_until_esc_witness :
  main Flag.default backendUp 27 (@started unit)
    (inl [key_h; key_Q; key_esc; key_h]) start
  = Ok (Returned,
        mkWorld 3 [NewContextCalled defaultOp (inl tt)]
          [GetKeys 200; Println "Press ESC to quit";
           Pressed 104; Go 104 tt defaultOp;
           Pressed 81; Go 81 tt defaultOp;
           Pressed 0; Close]).
Proof.
  exact (proj1
           (main_runs_until_esc Flag.default unit backendUp 27
              [key_h; key_Q] key_esc [key_h] start tt defaultOp
              [NewContextCalled defaultOp (inl tt)]
              eq_refl
              ltac:(repeat constructor; discriminate)
              eq_refl eq_refl)).
Defined.

(** The key h, then an event with an error. *)
Lemma main_panics_on_event_error_witness :
  main Flag.default backendUp 27 (@started unit)
    (inl [key_h; key_error; key_esc]) start
  = Panic.
Proof.
  exact (main_panics_on_event_error Flag.default unit backendUp 27
           [key_h] key_error [key_esc] "keyboard closed" start tt defaultOp
           [NewContextCalled defaultOp (inl tt)]
           eq_refl
           ltac:(repeat constructor; discriminate)
           eq_refl).
Defined.

(** Three times the key Q, then the key h, one at a time from
    [NoteCount] 0: [NoteCount] ends at 3 and the note starts at the
    volume 1/4. *)
Lemma stray_keys_lower_the_volume_witness :
  exists fx p,
    mainLoop 27 (finished Flag.default tt defaultOp)
      [key_Q; key_Q; key_Q; key_h] start
    = Ok (Waiting,
          mkWorld 3 []
            (fx ++
             [Pressed 104; Go 104 tt defaultOp;
              NewPlayer tt note_h; Play p;
              SetVolume p 0.25; Sleep Second;
              SetVolume p 0.125; Sleep Second;
              SetVolume p (0.25 / 3); Sleep 50000;
              SetVolume p 0])).
Proof.
  destruct (stray_keys_lower_the_volume Flag.default unit 27
              [key_Q; key_Q; key_Q] key_h start tt defaultOp 2
              eq_refl
              ltac:(repeat constructor; discriminate)
              ltac:(split; [reflexivity | discriminate])
              ltac:(apply (bool_decide_unpack _); vm_compute; exact I)
              ltac:(vm_compute; discriminate)
              ltac:(vm_compute; reflexivity))
    as (fx & freq & Hfreq & _ & Hrun).
  vm_compute in Hfreq. injection Hfreq as <-.
  exists fx, (base.length ([] ++ fx) + 2)%nat.
  cbv zeta in Hrun. exact Hrun.
Defined.

(** ** Channel counts that disagree, and whole frames *)

Lemma tone_s16_Inv : Inv tone_s16.
Proof. apply fresh_Inv; [lia | exists 22050; reflexivity]. Qed.

(** One channel under the default flags (ten channels) and a 4-byte
    buffer: [Read] panics. *)
Lemma Read_panics_iff_witness :
  Read sinTaylor Flag.default tone_s16 [x00; x00; x00; x00] = Panic.
Proof.
  apply (Read_panics_iff sinTaylor Flag.default tone_s16
           [x00; x00; x00; x00] 2 eq_refl
           ltac:(vm_compute; split; reflexivity)
           ltac:(vm_compute; discriminate)
           tone_s16_Inv
           ltac:(vm_compute; reflexivity)).
  split; [reflexivity|]. split; [discriminate|].
  split; [vm_compute; discriminate | vm_compute; reflexivity].
Defined.

Lemma blip_default_ok : Configured Flag.default blip_default /\ Inv blip_default.
Proof.
  split.
  - apply (fresh_Configured _ _ _ _ _ 2); [reflexivity | reflexivity | lia].
  - apply fresh_Inv; [lia | exists 220; reflexivity].
Qed.

(** One millisecond under the default flags (frames of 20 bytes) read
    into buffers of 20, 40 and 820 bytes, and into one of 880 bytes. *)
Lemma whole_frames_chunking_witness :
  exists single rs s',
    Read sinTaylor Flag.default blip_default (replicate 880 x00) = Ok single /\
    ReadAll sinTaylor Flag.default blip_default
      [replicate 20 x00; replicate 40 x00; replicate 820 x00] = Ok (rs, s') /\
    total rs = 880 /\
    concat (map delivered rs) = delivered single.
Proof.
  destruct (whole_frames_chunking sinTaylor Flag.default blip_default
              [replicate 20 x00; replicate 40 x00; replicate 820 x00]
              (replicate 880 x00)
              (proj1 blip_default_ok) (proj2 blip_default_ok)
              eq_refl eq_refl
              ltac:(exists 44; reflexivity)
              ltac:(repeat (apply Forall_cons; split;
                              [split; [vm_compute; reflexivity | split]|]);
                    [exists 5 | exists 1 | exists 10 | exists 2
                     | exists 205 | exists 41 | apply Forall_nil];
                    reflexivity)
              ltac:(vm_compute; reflexivity)
              ltac:(vm_compute; discriminate))
    as (single & rs & s' & Hsingle & Hrun & _ & _ & _ & _ & Hall).
  exists single, rs, s'. split; [exact Hsingle|]. split; [exact Hrun|].
  pose proof Hrun as Hrun'. vm_compute in Hrun'. injection Hrun' as <- <-.
  split; [reflexivity|]. apply Hall. reflexivity.
Defined.

(** ** The streams of C7 and C8 under the flags of the repository *)

(** C7. Nothing in the repository parses the flags, so [*sampleRate] is
    44100 and [*channelCount] is 10. The stream of 440 Hz, one second,
    one channel, signed 16-bit little-endian then has a total length of
    88200 bytes, and every [Read] of it into a non-empty buffer panics,
    whatever [math.Sin] is: the frame size 2 comes from the stream's one
    channel, the channel loop runs over the ten channels of the flag and
    stores past the working buffer. No byte is handed out, where the
    claim has 0x00 0x00 as the first two. *)
Theorem C7_stream_panics :
  NewSineWave Flag.default 440 Second 1 oto.FormatSignedInt16LE
  = Ok tone_s16 /\
  SineWave.length tone_s16 = 88200 /\
  forall (Sin : float -> float) (buf : list byte),
    0 < len buf -> small buf ->
    Read Sin Flag.default tone_s16 buf = Panic.
Proof.
  split; [vm_compute; reflexivity|]. split; [reflexivity|].
  intros Sin buf Hpos Hsmall.
  apply (proj2 (Read_fresh_panics Sin Flag.default tone_s16 buf 2 eq_refl
                  ltac:(vm_compute; split; reflexivity) tone_s16_Inv eq_refl
                  ltac:(discriminate) Hsmall)).
  assert (Hk : 1 <= requested tone_s16 buf <= len buf)
    by (unfold requested; cbn [tone_s16 SineWave.length SineWave.pos]; lia).
  destruct (roundup4_spec (requested tone_s16 buf) ltac:(lia)) as [Hr [q Hq]].
  pose proof (workbuf_length (requested tone_s16 buf) buf ltac:(lia)) as Hw.
  change (2 * SineWave.channelCount tone_s16) with 2.
  apply (generate_panics Sin Flag.default _ 2);
    [reflexivity | reflexivity | rewrite Hw; lia |].
  rewrite Hw, Hq. replace (q * 4) with (2 * q * 2) by lia.
  rewrite Z.mod_mul by lia. reflexivity.
Qed.

(** C8. Two streams made under the flags of the repository, read into
    the 24-byte buffer that ends in 1, 2, 3, 4, for every [math.Sin].
    The ten-channel note that [Run] plays has frames of 20 bytes: the
    call counts 24 bytes and moves the cursor to 24, yet its frame loop
    wrote one frame, so the bytes 20..23 of the stream, the slots of the
    channels 0 and 1 of frame 1, are 1, 2 and 3, 4. The twelve-channel
    note has frames of 24 bytes and the channel loop runs over the ten
    channels of the flag: in frame 0 the slots of the channels 10 and 11
    are 1, 2 and 3, 4. In both frames two channel slots differ. *)
Theorem C8_slots_differ (Sin : float -> float) :
  exists r r12,
    NewSineWave Flag.default 440 (3 * Second) 10 oto.FormatSignedInt16LE
    = Ok note_h /\
    frameSize note_h = 20 /\
    Read Sin Flag.default note_h chunk24 = Ok r /\
    count r = 24 /\ SineWave.pos (stream r) = 24 /\
    take 2 (drop 20 (delivered r)) = [x01; x02] /\
    take 2 (drop 22 (delivered r)) = [x03; x04] /\
    NewSineWave Flag.default 440 (3 * Second) 12 oto.FormatSignedInt16LE
    = Ok note_12 /\
    frameSize note_12 = 24 /\
    Read Sin Flag.default note_12 chunk24 = Ok r12 /\
    count r12 = 24 /\
    take 2 (drop 20 (delivered r12)) = [x01; x02] /\
    take 2 (drop 22 (delivered r12)) = [x03; x04].
Proof.
  destruct (chunk24_read Sin) as (r & Hr & Hc & Hp & Hd).
  pose proof (frame0_length Sin) as HF.
  assert (H12 : exists r12,
    Read Sin Flag.default note_12 chunk24 = Ok r12 /\
    count r12 = 24 /\
    take 2 (drop 20 (delivered r12)) = [x01; x02] /\
    take 2 (drop 22 (delivered r12)) = [x03; x04]).
  { eexists. split; [lazy -[int16_of_float byte_of_Z]; reflexivity|].
    split; [reflexivity|]. split; reflexivity. }
  destruct H12 as (r12 & Hr12 & Hc12 & Ha & Hb).
  exists r, r12.
  split; [vm_compute; reflexivity|]. split; [reflexivity|].
  split; [exact Hr|]. split; [exact Hc|]. split; [exact Hp|].
  split; [rewrite Hd, drop_app_length' by exact HF; reflexivity|].
  split.
  { rewrite Hd. replace 22%nat with (20 + 2)%nat by reflexivity.
    rewrite <- drop_drop, drop_app_length' by exact HF. reflexivity. }
  split; [vm_compute; reflexivity|]. split; [reflexivity|].
  split; [exact Hr12|]. split; [exact Hc12|]. split; [exact Ha | exact Hb].
Qed.
